(** * XBS billing core: plan pricing engine and subscription lifecycle

    A shallow embedding of [src/services/planService.ts] and
    [src/services/subscriptionService.ts].

    Conventions of the embedding.
    - JavaScript numbers that hold money, quantities and counts are integers
      in the repository (minor currency units); they are modelled as [Z].
    - A [Date] and a PostgreSQL [timestamptz] are modelled by their time
      value: milliseconds since 1970-01-01T00:00:00Z, a [Z].
    - The process and the database session run in UTC (local time zone
      adjustment zero, no daylight saving).
    - The database is an explicit [Store] threaded through every operation;
      a query is a function of the store, a write returns the new store.
    - A thrown exception is the [inl] branch of the result. *)

From Stdlib Require Import ZArith List String Ascii Bool Lia DecimalString.
Import ListNotations.
Local Open Scope string_scope.
Local Open Scope Z_scope.

(* ------------------------------------------------------------------ *)
(** ** Errors ([src/utils/errors.ts]) and JavaScript odds and ends *)

Inductive AppError : Type :=
  | ValidationError (message : string)
  | NotFoundError (message : string)
  | ConflictError (message : string)
  | TypeError (message : string)       (* the runtime's own exception *)
  | DatabaseError (message : string).  (* a statement rejected by the store *)

Definition Result (A : Type) : Type := (AppError + A)%type.

(** The three expected, caller-visible kinds of the error taxonomy. *)
Definition caller_visible (e : AppError) : Prop :=
  match e with
  | ValidationError _ | NotFoundError _ | ConflictError _ => True
  | _ => False
  end.

Definition show_Z (z : Z) : string := NilZero.string_of_int (Z.to_int z).

Definition upper_ascii (c : ascii) : ascii :=
  let n := nat_of_ascii c in
  if andb (Nat.leb 97 n) (Nat.leb n 122) then ascii_of_nat (n - 32) else c.

(** [String.prototype.toUpperCase], on ASCII. *)
Fixpoint toUpperCase (s : string) : string :=
  match s with
  | EmptyString => EmptyString
  | String c r => String (upper_ascii c) (toUpperCase r)
  end.

Definition is_white_space (c : ascii) : bool :=
  let n := nat_of_ascii c in
  orb (Nat.eqb n 32) (andb (Nat.leb 9 n) (Nat.leb n 13)).

Fixpoint trim_start (s : string) : string :=
  match s with
  | EmptyString => EmptyString
  | String c r => if is_white_space c then trim_start r else s
  end.

Definition rev_string (s : string) : string :=
  string_of_list_ascii (rev (list_ascii_of_string s)).

(** [String.prototype.trim]. *)
Definition trim (s : string) : string :=
  rev_string (trim_start (rev_string (trim_start s))).

(** Truthiness of an optional string: [undefined] and [''] are falsy. *)
Definition truthy_string (o : option string) : bool :=
  match o with
  | Some s => negb (String.eqb s "")
  | None => false
  end.

(** Truthiness of an optional number: [undefined] and [0] are falsy. *)
Definition truthy_number (o : option Z) : bool :=
  match o with
  | Some z => negb (z =? 0)
  | None => false
  end.

Fixpoint includes (xs : list string) (x : string) : bool :=
  match xs with
  | [] => false
  | y :: r => if String.eqb y x then true else includes r x
  end.

(* ------------------------------------------------------------------ *)
(** ** Plan service ([src/services/planService.ts]) *)

Module PlanService.

(** *** Types *)

Inductive BillingInterval : Type := day | week | month | year.
Inductive PricingModel : Type := flat | per_unit | tiered | volume.
Inductive TierMode : Type := graduated | volume_mode.
Inductive PlanStatus : Type := plan_active | plan_archived | plan_draft.

Definition PricingModel_eqb (a b : PricingModel) : bool :=
  match a, b with
  | flat, flat | per_unit, per_unit | tiered, tiered | volume, volume => true
  | _, _ => false
  end.

Definition PlanStatus_eqb (a b : PlanStatus) : bool :=
  match a, b with
  | plan_active, plan_active | plan_archived, plan_archived
  | plan_draft, plan_draft => true
  | _, _ => false
  end.

(** [interface PriceTier]; [up_to = None] is the source's [null], infinity. *)
Record PriceTier : Type := mkTier {
  up_to : option Z;
  tier_unit_amount : Z;
  flat_amount : option Z
}.

(** [interface PlanPrice]. *)
Record PlanPrice : Type := mkPrice {
  price_id : string;
  currency : string;
  unit_amount : Z;
  pricing_model : PricingModel;
  tiers : option (list PriceTier);
  tier_mode : option TierMode
}.

(** [interface Plan]; the free-form [features] and [metadata] bags are kept
    as their serialized text. *)
Record Plan : Type := mkPlan {
  plan_id : string;
  plan_application_id : string;
  plan_external_id : option string;
  plan_name : string;
  plan_description : option string;
  billing_interval : BillingInterval;
  billing_interval_count : Z;
  prices : list PlanPrice;
  trial_period_days : Z;
  plan_features : string;
  plan_metadata : string;
  plan_status : PlanStatus;
  plan_test_mode : bool;
  plan_created_at : Z;
  plan_updated_at : Z;
  plan_archived_at : option Z
}.

(** One entry of [CreatePlanInput.prices]. *)
Record PriceInput : Type := mkPriceInput {
  in_currency : string;
  in_unit_amount : Z;
  in_pricing_model : option PricingModel;
  in_tiers : option (list PriceTier);
  in_tier_mode : option TierMode
}.

(** [interface CreatePlanInput]. *)
Record CreatePlanInput : Type := mkCreatePlanInput {
  cpi_external_id : option string;
  cpi_name : string;
  cpi_description : option string;
  cpi_billing_interval : BillingInterval;
  cpi_billing_interval_count : option Z;
  cpi_prices : list PriceInput;
  cpi_trial_period_days : option Z;
  cpi_status : option PlanStatus
}.

Definition SUPPORTED_CURRENCIES : list string :=
  ["NGN"; "USD"; "GBP"; "EUR"; "KES"; "GHS"; "ZAR"; "XOF"; "XAF"; "EGP"; "TZS"].

(* ------------------------------------------------------------------ *)
(** *** Validation *)

(** The body of [validateTiers]' loop, from index [i] with the running
    [lastUpTo]. The test [i !== tiers.length - 1] is "this is not the last
    tier", here: the rest of the list is not empty. *)
Fixpoint validateTiers_from (i : Z) (lastUpTo : Z) (ts : list PriceTier)
  : Result unit :=
  match ts with
  | [] => inr tt
  | tier :: rest =>
      if tier_unit_amount tier <? 0 then
        inl (ValidationError
               ("Tier " ++ show_Z (i + 1) ++ ": unit_amount must be non-negative"))
      else
        match up_to tier with
        | Some u =>
            if u <=? lastUpTo then
              inl (ValidationError
                     ("Tier " ++ show_Z (i + 1)
                      ++ ": up_to must be greater than previous tier"))
            else validateTiers_from (i + 1) u rest
        | None =>
            match rest with
            | [] => validateTiers_from (i + 1) lastUpTo rest
            | _ :: _ =>
                inl (ValidationError
                       "Only the last tier can have up_to = null (infinity)")
            end
        end
  end.

Definition validateTiers (ts : list PriceTier) : Result unit :=
  validateTiers_from 0 0 ts.

(** The body of the [for (const price of input.prices)] loop of
    [validatePlanInput]. The membership test of [pricing_model] in
    [VALID_PRICING_MODELS] always passes on the type [PricingModel]. *)
Definition validatePriceInput (price : PriceInput) : Result unit :=
  if orb (String.eqb (in_currency price) "")
         (negb (includes SUPPORTED_CURRENCIES (toUpperCase (in_currency price))))
  then inl (ValidationError
              ("Invalid currency: " ++ in_currency price
               ++ ". Supported: NGN, USD, GBP, EUR, KES, GHS, ZAR, XOF, XAF, EGP, TZS"))
  else if in_unit_amount price <? 0
  then inl (ValidationError "unit_amount must be a non-negative number")
  else
    match in_pricing_model price with
    | Some tiered | Some volume =>
        match in_tiers price with
        | None | Some [] =>
            inl (ValidationError "Tiers are required for tiered/volume pricing")
        | Some ts => validateTiers ts
        end
    | _ => inr tt
    end.

Fixpoint validatePrices (ps : list PriceInput) : Result unit :=
  match ps with
  | [] => inr tt
  | p :: rest =>
      match validatePriceInput p with
      | inl e => inl e
      | inr _ => validatePrices rest
      end
  end.

(** [validatePlanInput]. The membership tests of [billing_interval] and
    [status] always pass on the types [BillingInterval] and [PlanStatus]. *)
Definition validatePlanInput (input : CreatePlanInput) : Result unit :=
  if String.eqb (cpi_name input) "" || (String.length (trim (cpi_name input)) =? 0)%nat
  then inl (ValidationError "Plan name is required")
  else if match cpi_billing_interval_count input with
          | Some c => c <? 1
          | None => false
          end
  then inl (ValidationError "billing_interval_count must be at least 1")
  else if (List.length (cpi_prices input) =? 0)%nat
  then inl (ValidationError "At least one price is required")
  else
    match validatePrices (cpi_prices input) with
    | inl e => inl e
    | inr _ =>
        if match cpi_trial_period_days input with
           | Some d => d <? 0
           | None => false
           end
        then inl (ValidationError "trial_period_days must be non-negative")
        else inr tt
    end.

(** The price records [create] builds from a validated input: the model
    defaults to ['flat'], the currency is upper-cased, [id] is a fresh uuid
    (supplied by the caller of the model). *)
Definition price_of_input (id : string) (p : PriceInput) : PlanPrice :=
  {| price_id := id;
     currency := toUpperCase (in_currency p);
     unit_amount := in_unit_amount p;
     pricing_model := match in_pricing_model p with
                      | Some m => m
                      | None => flat
                      end;
     tiers := in_tiers p;
     tier_mode := in_tier_mode p |}.

(* ------------------------------------------------------------------ *)
(** *** Price resolution and calculation *)

(** [plan.prices.find(p => p.currency === currency.toUpperCase()) || null]. *)
Definition getPriceForCurrency (plan : Plan) (cur : string) : option PlanPrice :=
  find (fun p => String.eqb (currency p) (toUpperCase cur)) (prices plan).

(** The graduated loop of [calculatePrice], with its two accumulators. *)
Fixpoint tiered_loop (ts : list PriceTier) (total remaining : Z) : Z :=
  match ts with
  | [] => total
  | tier :: rest =>
      let tierLimit := match up_to tier with
                       | None => remaining
                       | Some u => u
                       end in
      let unitsInTier := Z.min remaining tierLimit in
      let total1 := total + unitsInTier * tier_unit_amount tier in
      let total2 := if truthy_number (flat_amount tier)
                    then total1 + match flat_amount tier with
                                  | Some f => f
                                  | None => 0
                                  end
                    else total1 in
      let remaining' := remaining - unitsInTier in
      if remaining' <=? 0 then total2 else tiered_loop rest total2 remaining'
  end.

(** The volume loop of [calculatePrice]: [Some] at the [return] inside the
    loop, [None] when the loop runs off the end of the tiers. *)
Fixpoint volume_loop (ts : list PriceTier) (quantity : Z) : option Z :=
  match ts with
  | [] => None
  | tier :: rest =>
      if match up_to tier with
         | None => true
         | Some u => quantity <=? u
         end
      then
        let total := quantity * tier_unit_amount tier in
        Some (if truthy_number (flat_amount tier)
              then total + match flat_amount tier with
                           | Some f => f
                           | None => 0
                           end
              else total)
      else volume_loop rest quantity
  end.

(** [calculatePrice(price, quantity)]. An array, even an empty one, is
    truthy, so [price.tiers] is falsy exactly when it is absent. *)
Definition calculatePrice (price : PlanPrice) (quantity : Z) : Z :=
  if PricingModel_eqb (pricing_model price) flat then unit_amount price
  else if PricingModel_eqb (pricing_model price) per_unit
  then unit_amount price * quantity
  else
    match (if PricingModel_eqb (pricing_model price) tiered
           then tiers price else None) with
    | Some ts => tiered_loop ts 0 quantity
    | None =>
        match (if PricingModel_eqb (pricing_model price) volume
               then match tiers price with
                    | Some ts => volume_loop ts quantity
                    | None => None
                    end
               else None) with
        | Some total => total
        | None => unit_amount price * quantity
        end
    end.

(** The graduated rule as the specification words it: a tier holds the
    units between the previous bound and its own, the terminal tier all that
    remain; a tier's flat surcharge is due when units fell in it. *)
Fixpoint graduated_spec_from (prev : Z) (ts : list PriceTier) (remaining : Z) : Z :=
  match ts with
  | [] => 0
  | tier :: rest =>
      if remaining <=? 0 then 0
      else
        let capacity := match up_to tier with
                        | None => remaining
                        | Some u => u - prev
                        end in
        let units := Z.min remaining capacity in
        units * tier_unit_amount tier
        + (if 0 <? units then match flat_amount tier with
                              | Some f => f
                              | None => 0
                              end
           else 0)
        + graduated_spec_from (match up_to tier with
                               | None => prev
                               | Some u => u
                               end) rest (remaining - units)
  end.

Definition graduated_spec (ts : list PriceTier) (quantity : Z) : Z :=
  graduated_spec_from 0 ts quantity.

(** *** Lookup *)

(** [getById]: the [SELECT] over the plans table, scoped by tenant and mode,
    hiding archived plans unless [includeArchived]. *)
Definition plan_matches (applicationId planId : string) (testMode includeArchived : bool)
           (row : Plan) : bool :=
  String.eqb (plan_id row) planId
  && String.eqb (plan_application_id row) applicationId
  && Bool.eqb (plan_test_mode row) testMode
  && (includeArchived || negb (PlanStatus_eqb (plan_status row) plan_archived)).

Definition getById (table : list Plan) (applicationId planId : string)
           (testMode includeArchived : bool) : Result Plan :=
  match filter (plan_matches applicationId planId testMode includeArchived) table with
  | [] => inl (NotFoundError "Plan not found")
  | row :: _ => inr row
  end.

End PlanService.

(* ------------------------------------------------------------------ *)
(** ** Customer service: the lookup the subscription service calls *)

Module CustomerService.

Record Customer : Type := mkCustomer {
  id : string;
  application_id : string;
  test_mode : bool;
  deleted_at : option Z
}.

Definition customer_matches (applicationId customerId : string)
           (testMode includeDeleted : bool) (row : Customer) : bool :=
  String.eqb (id row) customerId
  && String.eqb (application_id row) applicationId
  && Bool.eqb (test_mode row) testMode
  && (includeDeleted || match deleted_at row with None => true | Some _ => false end).

Definition getById (table : list Customer) (applicationId customerId : string)
           (testMode includeDeleted : bool) : Result Customer :=
  match filter (customer_matches applicationId customerId testMode includeDeleted) table with
  | [] => inl (NotFoundError "Customer not found")
  | row :: _ => inr row
  end.

End CustomerService.

(* ------------------------------------------------------------------ *)
(** ** Dates: the ECMAScript time-value algorithms behind
       [getDate]/[setDate]/[getMonth]/[setMonth]/[getFullYear]/[setFullYear] *)

Module JSDate.

Definition msPerDay : Z := 86400000.

Definition Day (t : Z) : Z := t / msPerDay.
Definition TimeWithinDay (t : Z) : Z := t mod msPerDay.

Definition DaysInYear (y : Z) : Z :=
  if negb (y mod 4 =? 0) then 365
  else if negb (y mod 100 =? 0) then 366
  else if negb (y mod 400 =? 0) then 365
  else 366.

Definition InLeapYear (y : Z) : bool := DaysInYear y =? 366.

Definition DayFromYear (y : Z) : Z :=
  365 * (y - 1970) + (y - 1969) / 4 - (y - 1901) / 100 + (y - 1601) / 400.

(** The year whose first day is the latest one not after day [d]: an
    estimate from the mean year length, corrected by one either way. *)
Definition YearFromDay (d : Z) : Z :=
  let c := 1970 + (400 * d) / 146097 in
  if d <? DayFromYear c then c - 1
  else if DayFromYear (c + 1) <=? d then c + 1
  else c.

Definition YearFromTime (t : Z) : Z := YearFromDay (Day t).
Definition DayWithinYear (t : Z) : Z := Day t - DayFromYear (YearFromTime t).

Definition leap_day (leap : bool) : Z := if leap then 1 else 0.

(** Day-within-year on which month [m] (0 = January) starts. *)
Definition MonthStart (leap : bool) (m : Z) : Z :=
  if m <=? 0 then 0
  else if m =? 1 then 31
  else if m =? 2 then 59 + leap_day leap
  else if m =? 3 then 90 + leap_day leap
  else if m =? 4 then 120 + leap_day leap
  else if m =? 5 then 151 + leap_day leap
  else if m =? 6 then 181 + leap_day leap
  else if m =? 7 then 212 + leap_day leap
  else if m =? 8 then 243 + leap_day leap
  else if m =? 9 then 273 + leap_day leap
  else if m =? 10 then 304 + leap_day leap
  else 334 + leap_day leap.

Definition MonthFromDayWithinYear (leap : bool) (d : Z) : Z :=
  if d <? 31 then 0
  else if d <? 59 + leap_day leap then 1
  else if d <? 90 + leap_day leap then 2
  else if d <? 120 + leap_day leap then 3
  else if d <? 151 + leap_day leap then 4
  else if d <? 181 + leap_day leap then 5
  else if d <? 212 + leap_day leap then 6
  else if d <? 243 + leap_day leap then 7
  else if d <? 273 + leap_day leap then 8
  else if d <? 304 + leap_day leap then 9
  else if d <? 334 + leap_day leap then 10
  else 11.

Definition MonthFromTime (t : Z) : Z :=
  MonthFromDayWithinYear (InLeapYear (YearFromTime t)) (DayWithinYear t).

Definition DateFromTime (t : Z) : Z :=
  DayWithinYear t - MonthStart (InLeapYear (YearFromTime t)) (MonthFromTime t) + 1.

(** [MakeDay]: months beyond December carry into the year; the day of the
    month is added as a plain number of days, so a day past the end of the
    month runs on into the next month. *)
Definition MakeDay (y m dt : Z) : Z :=
  let ym := y + m / 12 in
  let mn := m mod 12 in
  DayFromYear ym + MonthStart (InLeapYear ym) mn + dt - 1.

Definition MakeDate (d time : Z) : Z := d * msPerDay + time.

Definition LocalTZA : Z := 0.
Definition LocalTime (t : Z) : Z := t + LocalTZA.
Definition UTC (t : Z) : Z := t - LocalTZA.

Definition getDate (t : Z) : Z := DateFromTime (LocalTime t).
Definition getMonth (t : Z) : Z := MonthFromTime (LocalTime t).
Definition getFullYear (t : Z) : Z := YearFromTime (LocalTime t).

Definition setDate (t dt : Z) : Z :=
  let lt := LocalTime t in
  UTC (MakeDate (MakeDay (YearFromTime lt) (MonthFromTime lt) dt) (TimeWithinDay lt)).

Definition setMonth (t m : Z) : Z :=
  let lt := LocalTime t in
  UTC (MakeDate (MakeDay (YearFromTime lt) m (DateFromTime lt)) (TimeWithinDay lt)).

Definition setFullYear (t y : Z) : Z :=
  let lt := LocalTime t in
  UTC (MakeDate (MakeDay y (MonthFromTime lt) (DateFromTime lt)) (TimeWithinDay lt)).

(** [Date.UTC(year, month - 1, date)], for writing instants down. *)
Definition utc_midnight (y m dt : Z) : Z := MakeDate (MakeDay y (m - 1) dt) 0.

End JSDate.

(* ------------------------------------------------------------------ *)
(** ** PostgreSQL [timestamptz + interval] *)

Module Pg.

Import JSDate.

Definition days_in_month (leap : bool) (mn : Z) : Z :=
  if mn =? 1 then 28 + leap_day leap
  else if (mn =? 3) || (mn =? 5) || (mn =? 8) || (mn =? 10) then 30
  else 31.

(** Adding the month field of an interval: the month and year move, and a
    day of the month that the target month does not have becomes its last
    day. *)
Definition add_months (t n : Z) : Z :=
  let total := MonthFromTime t + n in
  let ym := YearFromTime t + total / 12 in
  let mn := total mod 12 in
  let dd := Z.min (DateFromTime t) (days_in_month (InLeapYear ym) mn) in
  MakeDate (MakeDay ym mn dd) (TimeWithinDay t).

Definition add_days (t n : Z) : Z := t + n * msPerDay.

(** [trial_end + CASE billing_interval ... END]: the interval
    [interval '1 <unit>' * billing_interval_count] added to a timestamp. *)
Definition add_billing_interval (t : Z) (interval : PlanService.BillingInterval)
           (count : Z) : Z :=
  match interval with
  | PlanService.day => add_days t count
  | PlanService.week => add_days t (7 * count)
  | PlanService.month => add_months t count
  | PlanService.year => add_months t (12 * count)
  end.

End Pg.

(* ------------------------------------------------------------------ *)
(** ** Subscription service ([src/services/subscriptionService.ts]) *)

Module SubscriptionService.

Import PlanService.

(** *** Types *)

Inductive SubscriptionStatus : Type :=
  | trialing | active | past_due | paused | canceled | unpaid | incomplete.

Inductive CancellationReason : Type :=
  | customer_request | payment_failure | plan_change | fraud | other.

Definition SubscriptionStatus_eqb (a b : SubscriptionStatus) : bool :=
  match a, b with
  | trialing, trialing | active, active | past_due, past_due
  | paused, paused | canceled, canceled | unpaid, unpaid
  | incomplete, incomplete => true
  | _, _ => false
  end.

Record SubscriptionItem : Type := mkItem {
  item_id : string;
  item_plan_id : string;
  item_price_id : string;
  quantity : Z
}.

(** [interface Subscription], also the shape of a row of the table;
    [metadata] is kept as its serialized text. *)
Record Subscription : Type := mkSubscription {
  id : string;
  application_id : string;
  customer_id : string;
  external_id : option string;
  status : SubscriptionStatus;
  items : list SubscriptionItem;
  sub_currency : string;
  current_period_start : Z;
  current_period_end : Z;
  trial_start : option Z;
  trial_end : option Z;
  cancel_at : option Z;
  canceled_at : option Z;
  cancellation_reason : option CancellationReason;
  cancel_at_period_end : bool;
  pause_start : option Z;
  pause_end : option Z;
  billing_cycle_anchor : Z;
  metadata : string;
  test_mode : bool;
  created_at : Z;
  updated_at : Z
}.

Record CreateSubscriptionInput : Type := mkCreateInput {
  csi_customer_id : string;
  csi_plan_id : string;
  csi_external_id : option string;
  csi_currency : option string;
  csi_quantity : option Z;
  csi_trial_period_days : option Z;
  csi_trial_end : option Z;
  csi_billing_cycle_anchor : option Z;
  csi_metadata : option string
}.

Record UpdateSubscriptionInput : Type := mkUpdateInput {
  usi_external_id : option string;
  usi_quantity : option Z;
  usi_metadata : option string
}.

Record ListSubscriptionsParams : Type := mkListParams {
  lsp_application_id : string;
  lsp_test_mode : bool;
  lsp_customer_id : option string;
  lsp_plan_id : option string;
  lsp_status : option SubscriptionStatus;
  lsp_limit : option Z;
  lsp_starting_after : option string
}.

Record ListSubscriptionsResult : Type := mkListResult {
  data : list Subscription;
  has_more : bool
}.

(** *** The store and what the runtime supplies to one call *)

Record Store : Type := mkStore {
  subscriptions : list Subscription;
  plans : list Plan;
  customers : list CustomerService.Customer
}.

(** [new Date()], SQL [NOW()], and the results of the [uuidv4()] calls. *)
Record Runtime : Type := mkRuntime {
  js_now : Z;
  sql_now : Z;
  uuid_item : string;
  uuid_row : string
}.

(** A computation over the store that may throw. *)
Definition M (A : Type) : Type := Store -> Store * Result A.

Definition ret {A} (a : A) : M A := fun s => (s, inr a).
Definition throw {A} (e : AppError) : M A := fun s => (s, inl e).
Definition bind {A B} (m : M A) (k : A -> M B) : M B :=
  fun s => match m s with
           | (s', inl e) => (s', inl e)
           | (s', inr a) => k a s'
           end.
Definition query {A} (q : Store -> A) : M A := fun s => (s, inr (q s)).
Definition lift {A} (q : Store -> Result A) : M A := fun s => (s, q s).

Notation "x <- m ;; k" := (bind m (fun x => k))
  (at level 61, m at next level, right associativity).
Notation "m ;;; k" := (bind m (fun _ => k))
  (at level 61, right associativity).

Definition set_subscriptions (rows : list Subscription) (s : Store) : Store :=
  {| subscriptions := rows; plans := plans s; customers := customers s |}.

(** [INSERT INTO subscriptions ... RETURNING *]. *)
Definition db_insert (row : Subscription) : M (list Subscription) :=
  fun s => (set_subscriptions (subscriptions s ++ [row]) s, inr [row]).

(** [UPDATE subscriptions SET ... WHERE ... RETURNING *]: every row the
    condition selects is rewritten; the rewritten rows are returned. *)
Definition db_update (cond : Subscription -> bool)
           (set : Subscription -> Subscription) : M (list Subscription) :=
  fun s =>
    (set_subscriptions
       (map (fun r => if cond r then set r else r) (subscriptions s)) s,
     inr (map set (filter cond (subscriptions s)))).

(** The tenant and mode scope of a row, and the [WHERE] clause shared by
    the id-addressed statements. *)
Definition in_scope (applicationId : string) (testMode : bool)
           (row : Subscription) : bool :=
  String.eqb (application_id row) applicationId
  && Bool.eqb (test_mode row) testMode.

Definition where_id (subscriptionId applicationId : string) (testMode : bool)
           (row : Subscription) : bool :=
  String.eqb (id row) subscriptionId && in_scope applicationId testMode row.

(** [calculatePeriodEnd]. *)
Definition calculatePeriodEnd (start : Z) (interval : BillingInterval)
           (intervalCount : Z) : Z :=
  match interval with
  | day => JSDate.setDate start (JSDate.getDate start + intervalCount)
  | week => JSDate.setDate start (JSDate.getDate start + 7 * intervalCount)
  | month => JSDate.setMonth start (JSDate.getMonth start + intervalCount)
  | year => JSDate.setFullYear start (JSDate.getFullYear start + intervalCount)
  end.

(** [formatSubscription]: the row, field by field. Its [||] defaults guard
    columns that the table declares [NOT NULL]. *)
Definition formatSubscription (row : Subscription) : Subscription :=
  {| id := id row;
     application_id := application_id row;
     customer_id := customer_id row;
     external_id := external_id row;
     status := status row;
     items := items row;
     sub_currency := sub_currency row;
     current_period_start := current_period_start row;
     current_period_end := current_period_end row;
     trial_start := trial_start row;
     trial_end := trial_end row;
     cancel_at := cancel_at row;
     canceled_at := canceled_at row;
     cancellation_reason := cancellation_reason row;
     cancel_at_period_end := cancel_at_period_end row || false;
     pause_start := pause_start row;
     pause_end := pause_end row;
     billing_cycle_anchor := billing_cycle_anchor row;
     metadata := metadata row;
     test_mode := test_mode row;
     created_at := created_at row;
     updated_at := updated_at row |}.

(** [formatSubscription(result.rows[0])]: reading a field of the missing
    first row is the runtime's [TypeError]. *)
Definition format_first (rows : list Subscription) : M Subscription :=
  match rows with
  | [] => throw (TypeError "Cannot read properties of undefined")
  | row :: _ => ret (formatSubscription row)
  end.

(** *** Reads *)

Definition getById (applicationId subscriptionId : string) (testMode : bool)
  : M Subscription :=
  rows <- query (fun s => filter (where_id subscriptionId applicationId testMode)
                                 (subscriptions s)) ;;
  match rows with
  | [] => throw (NotFoundError "Subscription not found")
  | row :: _ => ret (formatSubscription row)
  end.

Definition option_string_eqb (o : option string) (x : string) : bool :=
  match o with
  | Some y => String.eqb y x
  | None => false
  end.

Definition where_external_id (externalId applicationId : string) (testMode : bool)
           (row : Subscription) : bool :=
  option_string_eqb (external_id row) externalId && in_scope applicationId testMode row.

Definition getByExternalId (applicationId externalId : string) (testMode : bool)
  : M Subscription :=
  rows <- query (fun s => filter (where_external_id externalId applicationId testMode)
                                 (subscriptions s)) ;;
  match rows with
  | [] => throw (NotFoundError "Subscription not found")
  | row :: _ => ret (formatSubscription row)
  end.

(** *** create *)

(** [(input.currency || defaultCurrency).toUpperCase()], with the default
    ['NGN'] of the [defaultCurrency] parameter. *)
Definition requested_currency (input : CreateSubscriptionInput)
           (defaultCurrency : option string) : string :=
  let defaultCurrency := match defaultCurrency with
                         | Some c => c
                         | None => "NGN"
                         end in
  toUpperCase (if truthy_string (csi_currency input)
               then match csi_currency input with
                    | Some c => c
                    | None => defaultCurrency
                    end
               else defaultCurrency).

(** The duplicate check of [create]: skipped for a falsy [external_id]. *)
Definition check_external_id_free (applicationId : string) (testMode : bool)
           (external : option string) : M unit :=
  match external with
  | Some e =>
      if negb (String.eqb e "")
      then
        existing <- query (fun s =>
          filter (where_external_id e applicationId testMode) (subscriptions s)) ;;
        match existing with
        | [] => ret tt
        | _ :: _ =>
            throw (ConflictError
                     ("Subscription with external_id '" ++ e ++ "' already exists"))
        end
      else ret tt
  | None => ret tt
  end.

(** The trial handling of [create]: the values of [trialStart], [trialEnd],
    [periodStart] and [status] after the [if (input.trial_end) ... else if
    (trialDays > 0) ...] statement. *)
Definition trial_window (now : Z) (trial_end_input : option Z) (trialDays : Z)
  : M (option Z * option Z * Z * SubscriptionStatus) :=
  match trial_end_input with
  | Some te =>
      if te <=? now
      then throw (ValidationError "trial_end must be in the future")
      else ret (Some now, Some te, te, trialing)
  | None =>
      if 0 <? trialDays
      then
        let trialEnd := JSDate.setDate now (JSDate.getDate now + trialDays) in
        ret (Some now, Some trialEnd, trialEnd, trialing)
      else ret (None, None, now, active)
  end.

Definition create (rt : Runtime) (applicationId : string) (testMode : bool)
           (input : CreateSubscriptionInput) (defaultCurrency : option string)
  : M Subscription :=
  (* Validate customer exists *)
  _ <- lift (fun s => CustomerService.getById (customers s) applicationId
                        (csi_customer_id input) testMode false) ;;
  (* Validate plan exists and is active *)
  plan <- lift (fun s => PlanService.getById (plans s) applicationId
                           (csi_plan_id input) testMode false) ;;
  if negb (PlanStatus_eqb (plan_status plan) plan_active)
  then throw (ValidationError "Cannot subscribe to inactive plan")
  else
  (* Check for duplicate external_id *)
  check_external_id_free applicationId testMode (csi_external_id input) ;;;
  (* Determine currency *)
  let currency := requested_currency input defaultCurrency in
  match getPriceForCurrency plan currency with
  | None => throw (ValidationError
                     ("Plan does not have pricing for currency: " ++ currency))
  | Some price =>
      (* Calculate dates *)
      let now := js_now rt in
      let billingAnchor := match csi_billing_cycle_anchor input with
                           | Some a => a
                           | None => now
                           end in
      let trialDays := match csi_trial_period_days input with
                       | Some d => d
                       | None => trial_period_days plan
                       end in
      (* Trial handling: (trialStart, trialEnd, periodStart, status) *)
      window <- trial_window now (csi_trial_end input) trialDays ;;
      let '(trialStart, trialEnd, periodStart, status0) := window in
      let periodEnd := calculatePeriodEnd periodStart (billing_interval plan)
                                          (billing_interval_count plan) in
      (* Create subscription item *)
      let items0 := [ {| item_id := uuid_item rt;
                         item_plan_id := plan_id plan;
                         item_price_id := price_id price;
                         quantity := if truthy_number (csi_quantity input)
                                     then match csi_quantity input with
                                          | Some q => q
                                          | None => 1
                                          end
                                     else 1 |} ] in
      rows <- db_insert
        {| id := uuid_row rt;
           application_id := applicationId;
           customer_id := csi_customer_id input;
           external_id := if truthy_string (csi_external_id input)
                          then csi_external_id input else None;
           status := status0;
           items := items0;
           sub_currency := currency;
           current_period_start :=
             if SubscriptionStatus_eqb status0 trialing then now else periodStart;
           current_period_end :=
             if SubscriptionStatus_eqb status0 trialing
             then match trialEnd with Some te => te | None => periodEnd end
             else periodEnd;
           trial_start := trialStart;
           trial_end := trialEnd;
           cancel_at := None;
           canceled_at := None;
           cancellation_reason := None;
           cancel_at_period_end := false;
           pause_start := None;
           pause_end := None;
           billing_cycle_anchor := billingAnchor;
           metadata := match csi_metadata input with
                       | Some m => m
                       | None => "{}"
                       end;
           test_mode := testMode;
           created_at := sql_now rt;
           updated_at := sql_now rt |} ;;
      format_first rows
  end.

(** *** update *)

(** The uniqueness check of [update]: run for a truthy [external_id] that
    differs from the stored one, over the other rows of the scope. *)
Definition check_external_id_unique (applicationId subscriptionId : string)
           (testMode : bool) (external current : option string) : M unit :=
  match external with
  | Some e =>
      if negb (String.eqb e "") && negb (option_string_eqb current e)
      then
        duplicate <- query (fun s =>
          filter (fun row => where_external_id e applicationId testMode row
                             && negb (String.eqb (id row) subscriptionId))
                 (subscriptions s)) ;;
        match duplicate with
        | [] => ret tt
        | _ :: _ =>
            throw (ConflictError
                     ("Subscription with external_id '" ++ e ++ "' already exists"))
        end
      else ret tt
  | None => ret tt
  end.

Definition update (rt : Runtime) (applicationId subscriptionId : string)
           (testMode : bool) (input : UpdateSubscriptionInput) : M Subscription :=
  existing <- getById applicationId subscriptionId testMode ;;
  if SubscriptionStatus_eqb (status existing) canceled
  then throw (ValidationError "Cannot update canceled subscription")
  else
  (* Check external_id uniqueness *)
  check_external_id_unique applicationId subscriptionId testMode
                           (usi_external_id input) (external_id existing) ;;;
  (* Build update query *)
  let set_external_id (row : Subscription) :=
    match usi_external_id input with
    | Some e => Some e
    | None => external_id row
    end in
  let set_items (row : Subscription) :=
    match usi_quantity input with
    | Some q =>
        map (fun item => {| item_id := item_id item;
                            item_plan_id := item_plan_id item;
                            item_price_id := item_price_id item;
                            quantity := q |}) (items existing)
    | None => items row
    end in
  let set_metadata (row : Subscription) :=
    match usi_metadata input with
    | Some m => m
    | None => metadata row
    end in
  rows <- db_update (where_id subscriptionId applicationId testMode)
    (fun row =>
       {| id := id row;
          application_id := application_id row;
          customer_id := customer_id row;
          external_id := set_external_id row;
          status := status row;
          items := set_items row;
          sub_currency := sub_currency row;
          current_period_start := current_period_start row;
          current_period_end := current_period_end row;
          trial_start := trial_start row;
          trial_end := trial_end row;
          cancel_at := cancel_at row;
          canceled_at := canceled_at row;
          cancellation_reason := cancellation_reason row;
          cancel_at_period_end := cancel_at_period_end row;
          pause_start := pause_start row;
          pause_end := pause_end row;
          billing_cycle_anchor := billing_cycle_anchor row;
          metadata := set_metadata row;
          test_mode := test_mode row;
          created_at := created_at row;
          updated_at := sql_now rt |}) ;;
  format_first rows.

(** *** changePlan *)

Definition changePlan (rt : Runtime) (applicationId subscriptionId : string)
           (testMode : bool) (newPlanId : string) (immediate : bool)
  : M Subscription :=
  existing <- getById applicationId subscriptionId testMode ;;
  if negb (SubscriptionStatus_eqb (status existing) active
           || SubscriptionStatus_eqb (status existing) trialing)
  then throw (ValidationError
                "Can only change plan for active or trialing subscriptions")
  else
  (* Validate new plan *)
  newPlan <- lift (fun s => PlanService.getById (plans s) applicationId newPlanId
                              testMode false) ;;
  if negb (PlanStatus_eqb (plan_status newPlan) plan_active)
  then throw (ValidationError "Cannot change to inactive plan")
  else
  (* Get price for current currency *)
  match getPriceForCurrency newPlan (sub_currency existing) with
  | None => throw (ValidationError
                     ("New plan does not support currency: " ++ sub_currency existing))
  | Some price =>
      (* Update items with new plan *)
      let first := match items existing with
                   | [] => None
                   | item :: _ => Some item
                   end in
      let items1 :=
        [ {| item_id := match first with
                        | Some item => if String.eqb (item_id item) ""
                                       then uuid_item rt else item_id item
                        | None => uuid_item rt
                        end;
             item_plan_id := plan_id newPlan;
             item_price_id := price_id price;
             quantity := match first with
                         | Some item => if quantity item =? 0 then 1 else quantity item
                         | None => 1
                         end |} ] in
      (* If immediate, recalculate period *)
      let periodStart := if immediate then js_now rt
                         else current_period_start existing in
      let periodEnd := if immediate
                       then calculatePeriodEnd (js_now rt) (billing_interval newPlan)
                                               (billing_interval_count newPlan)
                       else current_period_end existing in
      rows <- db_update (where_id subscriptionId applicationId testMode)
        (fun row =>
           {| id := id row;
              application_id := application_id row;
              customer_id := customer_id row;
              external_id := external_id row;
              status := status row;
              items := items1;
              sub_currency := sub_currency row;
              current_period_start := periodStart;
              current_period_end := periodEnd;
              trial_start := trial_start row;
              trial_end := trial_end row;
              cancel_at := cancel_at row;
              canceled_at := canceled_at row;
              cancellation_reason := cancellation_reason row;
              cancel_at_period_end := cancel_at_period_end row;
              pause_start := pause_start row;
              pause_end := pause_end row;
              billing_cycle_anchor := billing_cycle_anchor row;
              metadata := metadata row;
              test_mode := test_mode row;
              created_at := created_at row;
              updated_at := sql_now rt |}) ;;
      format_first rows
  end.

(** *** cancel *)

Definition cancel (rt : Runtime) (applicationId subscriptionId : string)
           (testMode : bool) (at_period_end : option bool)
           (reason : option CancellationReason) : M Subscription :=
  existing <- getById applicationId subscriptionId testMode ;;
  if SubscriptionStatus_eqb (status existing) canceled
  then throw (ValidationError "Subscription is already canceled")
  else
  let atPeriodEnd := match at_period_end with
                     | Some b => b
                     | None => true
                     end in
  let now := js_now rt in
  let reason0 := match reason with
                 | Some r => r
                 | None => customer_request
                 end in
  rows <-
    (if atPeriodEnd
     then
       (* Cancel at end of current period *)
       db_update (where_id subscriptionId applicationId testMode)
         (fun row =>
            {| id := id row;
               application_id := application_id row;
               customer_id := customer_id row;
               external_id := external_id row;
               status := status row;
               items := items row;
               sub_currency := sub_currency row;
               current_period_start := current_period_start row;
               current_period_end := current_period_end row;
               trial_start := trial_start row;
               trial_end := trial_end row;
               cancel_at := Some (current_period_end existing);
               canceled_at := canceled_at row;
               cancellation_reason := Some reason0;
               cancel_at_period_end := true;
               pause_start := pause_start row;
               pause_end := pause_end row;
               billing_cycle_anchor := billing_cycle_anchor row;
               metadata := metadata row;
               test_mode := test_mode row;
               created_at := created_at row;
               updated_at := sql_now rt |})
     else
       (* Cancel immediately *)
       db_update (where_id subscriptionId applicationId testMode)
         (fun row =>
            {| id := id row;
               application_id := application_id row;
               customer_id := customer_id row;
               external_id := external_id row;
               status := canceled;
               items := items row;
               sub_currency := sub_currency row;
               current_period_start := current_period_start row;
               current_period_end := current_period_end row;
               trial_start := trial_start row;
               trial_end := trial_end row;
               cancel_at := Some now;
               canceled_at := Some now;
               cancellation_reason := Some reason0;
               cancel_at_period_end := cancel_at_period_end row;
               pause_start := pause_start row;
               pause_end := pause_end row;
               billing_cycle_anchor := billing_cycle_anchor row;
               metadata := metadata row;
               test_mode := test_mode row;
               created_at := created_at row;
               updated_at := sql_now rt |})) ;;
  format_first rows.

(** *** reactivate *)

Definition reactivate (rt : Runtime) (applicationId subscriptionId : string)
           (testMode : bool) : M Subscription :=
  existing <- getById applicationId subscriptionId testMode ;;
  if SubscriptionStatus_eqb (status existing) canceled
  then throw (ValidationError "Cannot reactivate fully canceled subscription")
  else if negb (cancel_at_period_end existing)
  then throw (ValidationError "Subscription is not pending cancellation")
  else
  rows <- db_update (where_id subscriptionId applicationId testMode)
    (fun row =>
       {| id := id row;
          application_id := application_id row;
          customer_id := customer_id row;
          external_id := external_id row;
          status := status row;
          items := items row;
          sub_currency := sub_currency row;
          current_period_start := current_period_start row;
          current_period_end := current_period_end row;
          trial_start := trial_start row;
          trial_end := trial_end row;
          cancel_at := None;
          canceled_at := canceled_at row;
          cancellation_reason := None;
          cancel_at_period_end := false;
          pause_start := pause_start row;
          pause_end := pause_end row;
          billing_cycle_anchor := billing_cycle_anchor row;
          metadata := metadata row;
          test_mode := test_mode row;
          created_at := created_at row;
          updated_at := sql_now rt |}) ;;
  format_first rows.

(** *** pause *)

Definition pause (rt : Runtime) (applicationId subscriptionId : string)
           (testMode : bool) (resume_at : option Z) : M Subscription :=
  existing <- getById applicationId subscriptionId testMode ;;
  if negb (SubscriptionStatus_eqb (status existing) active)
  then throw (ValidationError "Can only pause active subscriptions")
  else
  let now := js_now rt in
  let resumeAt := resume_at in
  if match resumeAt with
     | Some r => r <=? now
     | None => false
     end
  then throw (ValidationError "resume_at must be in the future")
  else
  rows <- db_update (where_id subscriptionId applicationId testMode)
    (fun row =>
       {| id := id row;
          application_id := application_id row;
          customer_id := customer_id row;
          external_id := external_id row;
          status := paused;
          items := items row;
          sub_currency := sub_currency row;
          current_period_start := current_period_start row;
          current_period_end := current_period_end row;
          trial_start := trial_start row;
          trial_end := trial_end row;
          cancel_at := cancel_at row;
          canceled_at := canceled_at row;
          cancellation_reason := cancellation_reason row;
          cancel_at_period_end := cancel_at_period_end row;
          pause_start := Some now;
          pause_end := resumeAt;
          billing_cycle_anchor := billing_cycle_anchor row;
          metadata := metadata row;
          test_mode := test_mode row;
          created_at := created_at row;
          updated_at := sql_now rt |}) ;;
  format_first rows.

(** *** resume *)

Definition resume (rt : Runtime) (applicationId subscriptionId : string)
           (testMode : bool) : M Subscription :=
  existing <- getById applicationId subscriptionId testMode ;;
  if negb (SubscriptionStatus_eqb (status existing) paused)
  then throw (ValidationError "Subscription is not paused")
  else
  (* Calculate new period dates from now *)
  match items existing with
  | [] => throw (TypeError "Cannot read properties of undefined (reading 'plan_id')")
  | item0 :: _ =>
      plan <- lift (fun s => PlanService.getById (plans s) applicationId
                               (item_plan_id item0) testMode true) ;;
      let now := js_now rt in
      let periodEnd := calculatePeriodEnd now (billing_interval plan)
                                          (billing_interval_count plan) in
      rows <- db_update (where_id subscriptionId applicationId testMode)
        (fun row =>
           {| id := id row;
              application_id := application_id row;
              customer_id := customer_id row;
              external_id := external_id row;
              status := active;
              items := items row;
              sub_currency := sub_currency row;
              current_period_start := now;
              current_period_end := periodEnd;
              trial_start := trial_start row;
              trial_end := trial_end row;
              cancel_at := cancel_at row;
              canceled_at := canceled_at row;
              cancellation_reason := cancellation_reason row;
              cancel_at_period_end := cancel_at_period_end row;
              pause_start := None;
              pause_end := None;
              billing_cycle_anchor := billing_cycle_anchor row;
              metadata := metadata row;
              test_mode := test_mode row;
              created_at := created_at row;
              updated_at := sql_now rt |}) ;;
      format_first rows
  end.

(** *** list and getCustomerSubscriptions *)

(** [ORDER BY created_at DESC], as a stable insertion sort. *)
Fixpoint insert_desc (row : Subscription) (sorted : list Subscription)
  : list Subscription :=
  match sorted with
  | [] => [row]
  | r :: rest => if created_at r <? created_at row then row :: sorted
                 else r :: insert_desc row rest
  end.

Definition order_by_created_at_desc (rows : list Subscription) : list Subscription :=
  fold_right insert_desc [] rows.

(** The conditions [list] joins with [AND]. The cursor's sub-select reads
    [created_at] of the row whose id is [starting_after], by id alone; with
    no such row it is [NULL] and the comparison selects nothing. *)
Definition list_condition (params : ListSubscriptionsParams) (s : Store)
           (row : Subscription) : bool :=
  in_scope (lsp_application_id params) (lsp_test_mode params) row
  && (if truthy_string (lsp_customer_id params)
      then option_string_eqb (lsp_customer_id params) (customer_id row)
      else true)
  && (if truthy_string (lsp_plan_id params)
      then existsb (fun item => option_string_eqb (lsp_plan_id params)
                                                  (item_plan_id item))
                   (items row)
      else true)
  && (match lsp_status params with
      | Some st => SubscriptionStatus_eqb (status row) st
      | None => true
      end)
  && (if truthy_string (lsp_starting_after params)
      then match filter (fun r => option_string_eqb (lsp_starting_after params) (id r))
                        (subscriptions s) with
           | [] => false
           | cursor :: _ => created_at row <? created_at cursor
           end
      else true).

(** The source's [list]; the name is the type of lists here. *)
Definition listSubscriptions (params : ListSubscriptionsParams)
  : M ListSubscriptionsResult :=
  let limit := match lsp_limit params with
               | Some l => l
               | None => 10
               end in
  let safeLimit := Z.min (Z.max 1 limit) 100 in
  rows <- query (fun s =>
    firstn (Z.to_nat (safeLimit + 1))
           (order_by_created_at_desc
              (filter (list_condition params s) (subscriptions s)))) ;;
  let hasMore := Z.of_nat (List.length rows) >? safeLimit in
  ret {| data := map formatSubscription (firstn (Z.to_nat safeLimit) rows);
         has_more := hasMore |}.

Definition getCustomerSubscriptions (applicationId customerId : string)
           (testMode : bool) (status_filter : option SubscriptionStatus)
  : M (list Subscription) :=
  rows <- query (fun s =>
    order_by_created_at_desc
      (filter (fun row =>
                 String.eqb (application_id row) applicationId
                 && String.eqb (customer_id row) customerId
                 && Bool.eqb (test_mode row) testMode
                 && match status_filter with
                    | Some st => SubscriptionStatus_eqb (status row) st
                    | None => true
                    end)
              (subscriptions s))) ;;
  ret (map formatSubscription rows).

(** *** activateTrialEnding *)

(** The [WHERE] clause of the scheduler's statement. *)
Definition trial_ended (subscriptionId : string) (now : Z) (row : Subscription)
  : bool :=
  String.eqb (id row) subscriptionId
  && SubscriptionStatus_eqb (status row) trialing
  && match trial_end row with
     | Some te => te <=? now
     | None => false
     end.

(** The [SET] clause on a selected row. The sub-select finds the plan of the
    first item by id alone; without such a plan (or without an item) the new
    [current_period_end] is [NULL]: [None]. *)
Definition activated (s : Store) (now : Z) (row : Subscription)
  : option Subscription :=
  match trial_end row, items row with
  | Some te, item0 :: _ =>
      match filter (fun p => String.eqb (plan_id p) (item_plan_id item0)) (plans s) with
      | [] => None
      | plan :: _ =>
          Some {| id := id row;
                  application_id := application_id row;
                  customer_id := customer_id row;
                  external_id := external_id row;
                  status := active;
                  items := items row;
                  sub_currency := sub_currency row;
                  current_period_start := te;
                  current_period_end :=
                    Pg.add_billing_interval te (billing_interval plan)
                                            (billing_interval_count plan);
                  trial_start := trial_start row;
                  trial_end := trial_end row;
                  cancel_at := cancel_at row;
                  canceled_at := canceled_at row;
                  cancellation_reason := cancellation_reason row;
                  cancel_at_period_end := cancel_at_period_end row;
                  pause_start := pause_start row;
                  pause_end := pause_end row;
                  billing_cycle_anchor := billing_cycle_anchor row;
                  metadata := metadata row;
                  test_mode := test_mode row;
                  created_at := created_at row;
                  updated_at := now |}
      end
  | _, _ => None
  end.

(** [activateTrialEnding]. A selected row whose new [current_period_end]
    would be [NULL] violates the column's [NOT NULL]: the statement fails
    and changes nothing. *)
Definition activateTrialEnding (rt : Runtime) (subscriptionId : string)
  : M (option Subscription) :=
  fun s =>
    let now := sql_now rt in
    let selected := filter (trial_ended subscriptionId now) (subscriptions s) in
    if forallb (fun row => match activated s now row with
                           | Some _ => true
                           | None => false
                           end) selected
    then
      let set := fun row => match activated s now row with
                            | Some row' => row'
                            | None => row
                            end in
      match db_update (trial_ended subscriptionId now) set s with
      | (s', inr []) => (s', inr None)
      | (s', inr (row :: _)) => (s', inr (Some (formatSubscription row)))
      | (s', inl e) => (s', inl e)
      end
    else (s, inl (DatabaseError
                    "null value in column current_period_end violates not-null constraint")).

End SubscriptionService.


(* ------------------------------------------------------------------ *)
(** ** Plan service, continued: the operations on the plans table
       ([create], [getByExternalId], [update], [archive], [unarchive],
       [list], [clone] of [src/services/planService.ts]) *)

Module PlanStore.

Import PlanService SubscriptionService.

(** [interface UpdatePlanInput]; the bags are their serialized text. *)
Record UpdatePlanInput : Type := mkUpdatePlanInput {
  upi_external_id : option string;
  upi_name : option string;
  upi_description : option string;
  upi_trial_period_days : option Z;
  upi_features : option string;
  upi_metadata : option string;
  upi_status : option PlanStatus
}.

Record ListPlansParams : Type := mkListPlansParams {
  lpp_application_id : string;
  lpp_test_mode : bool;
  lpp_limit : option Z;
  lpp_starting_after : option string;
  lpp_status : option PlanStatus;
  lpp_include_archived : option bool
}.

Record ListPlansResult : Type := mkListPlansResult {
  plan_data : list Plan;
  plan_has_more : bool
}.

(** [Partial<CreatePlanInput>], the [overrides] of [clone]. *)
Record PlanOverrides : Type := mkPlanOverrides {
  ov_external_id : option string;
  ov_name : option string;
  ov_description : option string;
  ov_billing_interval : option BillingInterval;
  ov_billing_interval_count : option Z;
  ov_prices : option (list PriceInput);
  ov_trial_period_days : option Z;
  ov_features : option string;
  ov_metadata : option string
}.

(** SQL [NOW()] and the results of the [uuidv4()] calls of one call: one
    per price, in order, then one for the plan. *)
Record PlanRuntime : Type := mkPlanRuntime {
  plan_sql_now : Z;
  price_uuid : nat -> string;
  plan_uuid : string
}.

Definition set_plans (rows : list Plan) (s : Store) : Store :=
  {| subscriptions := subscriptions s; plans := rows; customers := customers s |}.

Definition db_insert_plan (row : Plan) : M (list Plan) :=
  fun s => (set_plans (plans s ++ [row]) s, inr [row]).

Definition db_update_plans (cond : Plan -> bool) (set : Plan -> Plan)
  : M (list Plan) :=
  fun s =>
    (set_plans (map (fun r => if cond r then set r else r) (plans s)) s,
     inr (map set (filter cond (plans s)))).

(** [formatPlan]: the row, field by field; [row.trial_period_days || 0]
    is the number itself. *)
Definition formatPlan (row : Plan) : Plan :=
  {| plan_id := plan_id row;
     plan_application_id := plan_application_id row;
     plan_external_id := plan_external_id row;
     plan_name := plan_name row;
     plan_description := plan_description row;
     billing_interval := billing_interval row;
     billing_interval_count := billing_interval_count row;
     prices := prices row;
     trial_period_days := if trial_period_days row =? 0 then 0
                          else trial_period_days row;
     plan_features := plan_features row;
     plan_metadata := plan_metadata row;
     plan_status := plan_status row;
     plan_test_mode := plan_test_mode row;
     plan_created_at := plan_created_at row;
     plan_updated_at := plan_updated_at row;
     plan_archived_at := plan_archived_at row |}.

Definition format_first_plan (rows : list Plan) : M Plan :=
  match rows with
  | [] => throw (TypeError "Cannot read properties of undefined")
  | row :: _ => ret (formatPlan row)
  end.

Definition plan_scope (applicationId : string) (testMode : bool) (row : Plan)
  : bool :=
  String.eqb (plan_application_id row) applicationId
  && Bool.eqb (plan_test_mode row) testMode.

Definition where_plan_id (planId applicationId : string) (testMode : bool)
           (row : Plan) : bool :=
  String.eqb (plan_id row) planId && plan_scope applicationId testMode row.

Definition where_plan_external_id (externalId applicationId : string)
           (testMode : bool) (row : Plan) : bool :=
  option_string_eqb (plan_external_id row) externalId
  && plan_scope applicationId testMode row.

(** [getById], as a computation on the store. *)
Definition getById (applicationId planId : string) (testMode includeArchived : bool)
  : M Plan :=
  row <- lift (fun s => PlanService.getById (plans s) applicationId planId
                          testMode includeArchived) ;;
  ret (formatPlan row).

Definition getByExternalId (applicationId externalId : string)
           (testMode includeArchived : bool) : M Plan :=
  rows <- query (fun s =>
    filter (fun row => where_plan_external_id externalId applicationId testMode row
                       && (includeArchived
                           || negb (PlanStatus_eqb (plan_status row) plan_archived)))
           (plans s)) ;;
  match rows with
  | [] => throw (NotFoundError "Plan not found")
  | row :: _ => ret (formatPlan row)
  end.

(** *** create *)

(** [input.prices.map(p => ({ id: uuidv4(), ... }))], the [i]-th uuid for
    the [i]-th price. *)
Fixpoint prices_with_ids (uuid : nat -> string) (i : nat) (ps : list PriceInput)
  : list PlanPrice :=
  match ps with
  | [] => []
  | p :: rest => price_of_input (uuid i) p :: prices_with_ids uuid (S i) rest
  end.

Definition check_plan_external_id_free (applicationId : string) (testMode : bool)
           (external : option string) : M unit :=
  match external with
  | Some e =>
      if negb (String.eqb e "")
      then
        existing <- query (fun s =>
          filter (where_plan_external_id e applicationId testMode) (plans s)) ;;
        match existing with
        | [] => ret tt
        | _ :: _ =>
            throw (ConflictError
                     ("Plan with external_id '" ++ e ++ "' already exists"))
        end
      else ret tt
  | None => ret tt
  end.

(** [create]; [features] and [metadata] are the two bags of the input,
    serialized, which the record of the validated fields does not carry. *)
Definition create (rt : PlanRuntime) (applicationId : string) (testMode : bool)
           (input : CreatePlanInput) (features metadata : option string)
  : M Plan :=
  lift (fun _ => validatePlanInput input) ;;;
  (* Check for duplicate external_id *)
  check_plan_external_id_free applicationId testMode (cpi_external_id input) ;;;
  (* Format prices with IDs *)
  let prices0 := prices_with_ids (price_uuid rt) 0 (cpi_prices input) in
  rows <- db_insert_plan
    {| plan_id := plan_uuid rt;
       plan_application_id := applicationId;
       plan_external_id := if truthy_string (cpi_external_id input)
                           then cpi_external_id input else None;
       plan_name := trim (cpi_name input);
       plan_description := if truthy_string (cpi_description input)
                           then cpi_description input else None;
       billing_interval := cpi_billing_interval input;
       billing_interval_count :=
         if truthy_number (cpi_billing_interval_count input)
         then match cpi_billing_interval_count input with
              | Some c => c
              | None => 1
              end
         else 1;
       prices := prices0;
       trial_period_days :=
         if truthy_number (cpi_trial_period_days input)
         then match cpi_trial_period_days input with
              | Some d => d
              | None => 0
              end
         else 0;
       plan_features := match features with Some f => f | None => "{}" end;
       plan_metadata := match metadata with Some m => m | None => "{}" end;
       plan_status := match cpi_status input with
                      | Some st => st
                      | None => plan_active
                      end;
       plan_test_mode := testMode;
       plan_created_at := plan_sql_now rt;
       plan_updated_at := plan_sql_now rt;
       plan_archived_at := None |} ;;
  format_first_plan rows.

(** *** update *)

Definition check_plan_external_id_unique (applicationId planId : string)
           (testMode : bool) (external current : option string) : M unit :=
  match external with
  | Some e =>
      if negb (String.eqb e "") && negb (option_string_eqb current e)
      then
        duplicate <- query (fun s =>
          filter (fun row => where_plan_external_id e applicationId testMode row
                             && negb (String.eqb (plan_id row) planId))
                 (plans s)) ;;
        match duplicate with
        | [] => ret tt
        | _ :: _ =>
            throw (ConflictError
                     ("Plan with external_id '" ++ e ++ "' already exists"))
        end
      else ret tt
  | None => ret tt
  end.

(** The [SET] clause [update] builds, on a row. A non-empty [name] is
    trimmed; an empty one is stored as it is. *)
Definition updated_plan (rt : PlanRuntime) (existing : Plan)
           (input : UpdatePlanInput) (row : Plan) : Plan :=
  {| plan_id := plan_id row;
     plan_application_id := plan_application_id row;
     plan_external_id := match upi_external_id input with
                         | Some e => Some e
                         | None => plan_external_id row
                         end;
     plan_name := match upi_name input with
                  | Some n => if String.eqb n "" then n else trim n
                  | None => plan_name row
                  end;
     plan_description := match upi_description input with
                         | Some d => Some d
                         | None => plan_description row
                         end;
     billing_interval := billing_interval row;
     billing_interval_count := billing_interval_count row;
     prices := prices row;
     trial_period_days := match upi_trial_period_days input with
                          | Some d => d
                          | None => trial_period_days row
                          end;
     plan_features := match upi_features input with
                      | Some f => f
                      | None => plan_features row
                      end;
     plan_metadata := match upi_metadata input with
                      | Some m => m
                      | None => plan_metadata row
                      end;
     plan_status := match upi_status input with
                    | Some st => st
                    | None => plan_status row
                    end;
     plan_test_mode := plan_test_mode row;
     plan_created_at := plan_created_at row;
     plan_updated_at := plan_sql_now rt;
     plan_archived_at :=
       match upi_status input with
       | Some plan_archived => Some (plan_sql_now rt)
       | Some _ =>
           if PlanStatus_eqb (plan_status existing) plan_archived
           then None else plan_archived_at row
       | None => plan_archived_at row
       end |}.

Definition update (rt : PlanRuntime) (applicationId planId : string)
           (testMode : bool) (input : UpdatePlanInput) : M Plan :=
  (* Check plan exists *)
  existing <- getById applicationId planId testMode true ;;
  (* Cannot update archived plans (except to unarchive via status) *)
  if PlanStatus_eqb (plan_status existing) plan_archived
     && negb (match upi_status input with
              | Some plan_active | Some plan_draft => true
              | _ => false
              end)
  then throw (ValidationError "Cannot update archived plan. Change status first.")
  else
  (* Check external_id uniqueness if changing *)
  check_plan_external_id_unique applicationId planId testMode
                                (upi_external_id input)
                                (plan_external_id existing) ;;;
  (* [VALID_STATUSES.includes(input.status)] always passes on the type
     [PlanStatus]. *)
  rows <- db_update_plans (where_plan_id planId applicationId testMode)
                          (updated_plan rt existing input) ;;
  format_first_plan rows.

(** *** archive and unarchive *)

Definition archived_plan (rt : PlanRuntime) (row : Plan) : Plan :=
  {| plan_id := plan_id row;
     plan_application_id := plan_application_id row;
     plan_external_id := plan_external_id row;
     plan_name := plan_name row;
     plan_description := plan_description row;
     billing_interval := billing_interval row;
     billing_interval_count := billing_interval_count row;
     prices := prices row;
     trial_period_days := trial_period_days row;
     plan_features := plan_features row;
     plan_metadata := plan_metadata row;
     plan_status := plan_archived;
     plan_test_mode := plan_test_mode row;
     plan_created_at := plan_created_at row;
     plan_updated_at := plan_sql_now rt;
     plan_archived_at := Some (plan_sql_now rt) |}.

Definition archive (rt : PlanRuntime) (applicationId planId : string)
           (testMode : bool) : M Plan :=
  existing <- getById applicationId planId testMode true ;;
  if PlanStatus_eqb (plan_status existing) plan_archived
  then throw (ValidationError "Plan is already archived")
  else
  rows <- db_update_plans (where_plan_id planId applicationId testMode)
                          (archived_plan rt) ;;
  format_first_plan rows.

Definition unarchived_plan (rt : PlanRuntime) (row : Plan) : Plan :=
  {| plan_id := plan_id row;
     plan_application_id := plan_application_id row;
     plan_external_id := plan_external_id row;
     plan_name := plan_name row;
     plan_description := plan_description row;
     billing_interval := billing_interval row;
     billing_interval_count := billing_interval_count row;
     prices := prices row;
     trial_period_days := trial_period_days row;
     plan_features := plan_features row;
     plan_metadata := plan_metadata row;
     plan_status := plan_active;
     plan_test_mode := plan_test_mode row;
     plan_created_at := plan_created_at row;
     plan_updated_at := plan_sql_now rt;
     plan_archived_at := None |}.

Definition unarchive (rt : PlanRuntime) (applicationId planId : string)
           (testMode : bool) : M Plan :=
  rows <- db_update_plans
            (fun row => where_plan_id planId applicationId testMode row
                        && PlanStatus_eqb (plan_status row) plan_archived)
            (unarchived_plan rt) ;;
  match rows with
  | [] => throw (NotFoundError "Archived plan not found")
  | row :: _ => ret (formatPlan row)
  end.

(** *** list *)

Fixpoint insert_plan_desc (row : Plan) (sorted : list Plan) : list Plan :=
  match sorted with
  | [] => [row]
  | r :: rest => if plan_created_at r <? plan_created_at row then row :: sorted
                 else r :: insert_plan_desc row rest
  end.

Definition order_plans_by_created_at_desc (rows : list Plan) : list Plan :=
  fold_right insert_plan_desc [] rows.

(** The conditions [list] joins with [AND]; the cursor's sub-select reads
    the [starting_after] row by id alone. *)
Definition list_plans_condition (params : ListPlansParams) (s : Store) (row : Plan)
  : bool :=
  plan_scope (lpp_application_id params) (lpp_test_mode params) row
  && (match lpp_status params with
      | Some st => PlanStatus_eqb (plan_status row) st
      | None =>
          if negb (match lpp_include_archived params with
                   | Some b => b
                   | None => false
                   end)
          then negb (PlanStatus_eqb (plan_status row) plan_archived)
          else true
      end)
  && (if truthy_string (lpp_starting_after params)
      then match filter (fun r => option_string_eqb (lpp_starting_after params)
                                                     (plan_id r))
                        (plans s) with
           | [] => false
           | cursor :: _ => plan_created_at row <? plan_created_at cursor
           end
      else true).

(** The source's [list]. *)
Definition listPlans (params : ListPlansParams) : M ListPlansResult :=
  let limit := match lpp_limit params with
               | Some l => l
               | None => 10
               end in
  let safeLimit := Z.min (Z.max 1 limit) 100 in
  rows <- query (fun s =>
    firstn (Z.to_nat (safeLimit + 1))
           (order_plans_by_created_at_desc
              (filter (list_plans_condition params s) (plans s)))) ;;
  let hasMore := Z.of_nat (List.length rows) >? safeLimit in
  ret {| plan_data := map formatPlan (firstn (Z.to_nat safeLimit) rows);
         plan_has_more := hasMore |}.

(** *** clone *)

(** A stored price as a price of an input: [clone] copies currency, unit
    amount, model, tiers and tier mode. *)
Definition input_of_price (p : PlanPrice) : PriceInput :=
  {| in_currency := currency p;
     in_unit_amount := unit_amount p;
     in_pricing_model := Some (pricing_model p);
     in_tiers := tiers p;
     in_tier_mode := tier_mode p |}.

(** The input [clone] builds from the existing plan and the overrides. *)
Definition clone_input (existing : Plan) (overrides : PlanOverrides)
  : CreatePlanInput :=
  {| cpi_external_id := ov_external_id overrides;
     cpi_name := if truthy_string (ov_name overrides)
                 then match ov_name overrides with
                      | Some n => n
                      | None => plan_name existing ++ " (Copy)"
                      end
                 else plan_name existing ++ " (Copy)";
     cpi_description := match ov_description overrides with
                        | Some d => Some d
                        | None => plan_description existing
                        end;
     cpi_billing_interval := match ov_billing_interval overrides with
                             | Some i => i
                             | None => billing_interval existing
                             end;
     cpi_billing_interval_count :=
       Some (if truthy_number (ov_billing_interval_count overrides)
             then match ov_billing_interval_count overrides with
                  | Some c => c
                  | None => billing_interval_count existing
                  end
             else billing_interval_count existing);
     cpi_prices := match ov_prices overrides with
                   | Some ps => ps
                   | None => map input_of_price (prices existing)
                   end;
     cpi_trial_period_days := Some (match ov_trial_period_days overrides with
                                    | Some d => d
                                    | None => trial_period_days existing
                                    end);
     cpi_status := Some plan_draft |}.

Definition clone (rt : PlanRuntime) (applicationId planId : string)
           (testMode : bool) (overrides : PlanOverrides) : M Plan :=
  existing <- getById applicationId planId testMode true ;;
  create rt applicationId testMode (clone_input existing overrides)
         (Some match ov_features overrides with
               | Some f => f
               | None => plan_features existing
               end)
         (Some match ov_metadata overrides with
               | Some m => m
               | None => plan_metadata existing
               end).

End PlanStore.
(* ------------------------------------------------------------------ *)
(** ** Derived notions and sample data for the pricing properties *)

Module PricingNotions.

Import PlanService.

Definition surcharge (tier : PriceTier) : Z :=
  match flat_amount tier with
  | Some f => f
  | None => 0
  end.

(** The flat surcharge of the first tier, zero without tiers. *)
Definition first_tier_surcharge (price : PlanPrice) : Z :=
  match tiers price with
  | Some (tier :: _) => surcharge tier
  | _ => 0
  end.

(** The tiers of a price are absent or pass [validateTiers]. *)
Definition tiers_validated (price : PlanPrice) : Prop :=
  match tiers price with
  | Some ts => validateTiers ts = inr tt
  | None => True
  end.

Definition example_tiers : list PriceTier :=
  [ {| up_to := Some 100; tier_unit_amount := 0; flat_amount := None |};
    {| up_to := None; tier_unit_amount := 30; flat_amount := None |} ].

Definition three_tiers : list PriceTier :=
  [ {| up_to := Some 10; tier_unit_amount := 5; flat_amount := None |};
    {| up_to := Some 20; tier_unit_amount := 3; flat_amount := None |};
    {| up_to := None; tier_unit_amount := 1; flat_amount := None |} ].

Definition tiered_price (ts : list PriceTier) : PlanPrice :=
  {| price_id := "price_1"; currency := "USD"; unit_amount := 0;
     pricing_model := tiered; tiers := Some ts; tier_mode := None |}.

Definition surcharged_tiers : list PriceTier :=
  [ {| up_to := Some 100; tier_unit_amount := 10; flat_amount := Some 500 |};
    {| up_to := None; tier_unit_amount := 5; flat_amount := None |} ].

(** Tiers that [validateTiers] rejects: the bound is not positive. *)
Definition negative_bound_tiers : list PriceTier :=
  [ {| up_to := Some (-5); tier_unit_amount := 10; flat_amount := None |} ].

Definition rebate_input : CreatePlanInput :=
  {| cpi_external_id := None;
     cpi_name := "Metered";
     cpi_description := None;
     cpi_billing_interval := month;
     cpi_billing_interval_count := None;
     cpi_prices :=
       [ {| in_currency := "usd"; in_unit_amount := 0;
            in_pricing_model := Some tiered;
            in_tiers := Some [ {| up_to := None; tier_unit_amount := 10;
                                  flat_amount := Some (-500) |} ];
            in_tier_mode := None |} ];
     cpi_trial_period_days := None;
     cpi_status := None |}.

(** What [validateTiers] establishes, as a predicate on the list. *)
Fixpoint tiers_ok (lastUpTo : Z) (ts : list PriceTier) : Prop :=
  match ts with
  | [] => True
  | tier :: rest =>
      0 <= tier_unit_amount tier /\
      match up_to tier with
      | Some u => lastUpTo < u /\ tiers_ok u rest
      | None => rest = []
      end
  end.

(** The units the graduated loop of [calculatePrice] prices in each tier it
    visits, in order: the loop's [unitsInTier]. *)
Fixpoint tiered_units (ts : list PriceTier) (remaining : Z) : list Z :=
  match ts with
  | [] => []
  | tier :: rest =>
      let tierLimit := match up_to tier with
                       | None => remaining
                       | Some u => u
                       end in
      let unitsInTier := Z.min remaining tierLimit in
      unitsInTier :: (if remaining - unitsInTier <=? 0 then []
                      else tiered_units rest (remaining - unitsInTier))
  end.

(** The charge for the visited tiers, given the units priced in each. *)
Fixpoint charge_for (units : list Z) (ts : list PriceTier) : Z :=
  match units, ts with
  | n :: units', tier :: rest =>
      n * tier_unit_amount tier + surcharge tier + charge_for units' rest
  | _, _ => 0
  end.

Definition flat_price : PlanPrice :=
  {| price_id := "price_flat"; currency := "USD"; unit_amount := 5000;
     pricing_model := flat; tiers := None; tier_mode := None |}.

Definition volume_price_without_tiers : PlanPrice :=
  {| price_id := "price_v"; currency := "USD"; unit_amount := 7;
     pricing_model := volume; tiers := None; tier_mode := None |}.

End PricingNotions.

(* ------------------------------------------------------------------ *)
(** ** Further notions for the pricing properties *)

Module PricingNotionsMore.

Import PlanService PricingNotions.

Definition sum_Z (l : list Z) : Z := fold_right Z.add 0 l.

(** The finite bounds of a tier list, in order. *)
Fixpoint finite_bounds (ts : list PriceTier) : list Z :=
  match ts with
  | [] => []
  | tier :: rest =>
      match up_to tier with
      | Some u => u :: finite_bounds rest
      | None => finite_bounds rest
      end
  end.

(** The tier list ends with the infinite tier. *)
Definition ends_open (ts : list PriceTier) : Prop :=
  exists before tier, ts = (before ++ [tier])%list /\ up_to tier = None.

(** Every tier has a finite bound. *)
Definition all_finite (ts : list PriceTier) : Prop :=
  Forall (fun tier => exists u, up_to tier = Some u) ts.

(** Every tier has a finite bound below [q]. *)
Definition all_below (q : Z) (ts : list PriceTier) : Prop :=
  Forall (fun tier => exists u, up_to tier = Some u /\ u < q) ts.

(** What plan creation guarantees of a stored price. *)
Definition price_well_formed (price : PlanPrice) : Prop :=
  0 <= unit_amount price
  /\ includes SUPPORTED_CURRENCIES (currency price) = true
  /\ match pricing_model price with
     | tiered | volume =>
         exists tier rest, tiers price = Some (tier :: rest)
                           /\ validateTiers (tier :: rest) = inr tt
     | _ => True
     end.

Definition two_band_input : CreatePlanInput :=
  {| cpi_external_id := None;
     cpi_name := " Scale ";
     cpi_description := None;
     cpi_billing_interval := month;
     cpi_billing_interval_count := None;
     cpi_prices :=
       [ {| in_currency := "ngn"; in_unit_amount := 900;
            in_pricing_model := Some volume;
            in_tiers := Some [ {| up_to := Some 10; tier_unit_amount := 100;
                                  flat_amount := None |};
                               {| up_to := Some 50; tier_unit_amount := 80;
                                  flat_amount := Some 200 |} ];
            in_tier_mode := None |} ];
     cpi_trial_period_days := None;
     cpi_status := None |}.

Definition two_band_price : PlanPrice :=
  price_of_input "price_ngn"
    {| in_currency := "ngn"; in_unit_amount := 900;
       in_pricing_model := Some volume;
       in_tiers := Some [ {| up_to := Some 10; tier_unit_amount := 100;
                             flat_amount := None |};
                          {| up_to := Some 50; tier_unit_amount := 80;
                             flat_amount := Some 200 |} ];
       in_tier_mode := None |}.

End PricingNotionsMore.

(* ------------------------------------------------------------------ *)
(** ** Derived notions and sample data for the lifecycle properties *)

Module LifecycleNotions.

Import PlanService SubscriptionService.

(** *** The lifecycle operations as one family of calls *)

Inductive LifecycleCall : Type :=
  | Create (applicationId : string) (testMode : bool)
           (input : CreateSubscriptionInput) (defaultCurrency : option string)
  | Update (applicationId subscriptionId : string) (testMode : bool)
           (input : UpdateSubscriptionInput)
  | ChangePlan (applicationId subscriptionId : string) (testMode : bool)
               (newPlanId : string) (immediate : bool)
  | Cancel (applicationId subscriptionId : string) (testMode : bool)
           (at_period_end : option bool) (reason : option CancellationReason)
  | Reactivate (applicationId subscriptionId : string) (testMode : bool)
  | Pause (applicationId subscriptionId : string) (testMode : bool)
          (resume_at : option Z)
  | Resume (applicationId subscriptionId : string) (testMode : bool).

Definition run (rt : Runtime) (call : LifecycleCall) : M Subscription :=
  match call with
  | Create app mode input dc => create rt app mode input dc
  | Update app sid mode input => update rt app sid mode input
  | ChangePlan app sid mode newPlanId immediate =>
      changePlan rt app sid mode newPlanId immediate
  | Cancel app sid mode at_period_end reason =>
      cancel rt app sid mode at_period_end reason
  | Reactivate app sid mode => reactivate rt app sid mode
  | Pause app sid mode resume_at => pause rt app sid mode resume_at
  | Resume app sid mode => resume rt app sid mode
  end.

(** The subscription a call addresses, as the tenant sees it. *)
Definition found (s : Store) (app sid : string) (mode : bool) (sub : Subscription)
  : Prop :=
  getById app sid mode s = (s, inr sub).

(** No subscription of the tenant and mode, other than [except], carries
    the external id [e]. *)
Definition external_id_unused (s : Store) (app : string) (mode : bool)
           (e : string) (except : option string) : Prop :=
  forall row, In row (subscriptions s) ->
              where_external_id e app mode row = true ->
              except = Some (id row).

(** The preconditions of each operation, as the transition table of the
    specification lists them. *)
Definition precondition (rt : Runtime) (s : Store) (call : LifecycleCall) : Prop :=
  match call with
  | Create app mode input dc =>
      (exists customer,
          CustomerService.getById (customers s) app (csi_customer_id input)
                                  mode false = inr customer)
      /\ (exists plan,
             PlanService.getById (plans s) app (csi_plan_id input) mode false
             = inr plan
             /\ plan_status plan = plan_active
             /\ getPriceForCurrency plan (requested_currency input dc) <> None)
      /\ (forall e, csi_external_id input = Some e -> e <> "" ->
                    external_id_unused s app mode e None)
      /\ (forall te, csi_trial_end input = Some te -> js_now rt < te)
  | Update app sid mode input =>
      exists sub,
        found s app sid mode sub
        /\ status sub <> canceled
        /\ (forall e, usi_external_id input = Some e -> e <> "" ->
                      external_id sub <> Some e ->
                      external_id_unused s app mode e (Some sid))
  | ChangePlan app sid mode newPlanId _ =>
      exists sub,
        found s app sid mode sub
        /\ (status sub = active \/ status sub = trialing)
        /\ exists plan,
            PlanService.getById (plans s) app newPlanId mode false = inr plan
            /\ plan_status plan = plan_active
            /\ getPriceForCurrency plan (sub_currency sub) <> None
  | Cancel app sid mode _ _ =>
      exists sub, found s app sid mode sub /\ status sub <> canceled
  | Reactivate app sid mode =>
      exists sub,
        found s app sid mode sub
        /\ status sub <> canceled
        /\ cancel_at_period_end sub = true
  | Pause app sid mode resume_at =>
      exists sub,
        found s app sid mode sub
        /\ status sub = active
        /\ (forall r, resume_at = Some r -> js_now rt < r)
  | Resume app sid mode =>
      exists sub, found s app sid mode sub /\ status sub = paused
  end.

(** *** How each lifecycle operation ends

    Either the call raises an error and hands back the store it was given -
    with an error of the caller-visible kinds whenever a precondition of
    the transition table fails - or the preconditions hold and the call
    returns a subscription. *)

Definition outcome (rt : Runtime) (call : LifecycleCall) (s : Store) : Prop :=
  (exists e, run rt call s = (s, inl e)
             /\ (~ precondition rt s call -> caller_visible e))
  \/ (precondition rt s call
      /\ exists s' sub, run rt call s = (s', inr sub)).

(** *** Frames *)

(** Two subscriptions agree on every field other than
    [cancel_at_period_end], [cancel_at], [cancellation_reason] and
    [updated_at]. *)
Definition same_but_pending_cancellation (a b : Subscription) : Prop :=
  id a = id b
  /\ application_id a = application_id b
  /\ customer_id a = customer_id b
  /\ external_id a = external_id b
  /\ status a = status b
  /\ items a = items b
  /\ sub_currency a = sub_currency b
  /\ current_period_start a = current_period_start b
  /\ current_period_end a = current_period_end b
  /\ trial_start a = trial_start b
  /\ trial_end a = trial_end b
  /\ canceled_at a = canceled_at b
  /\ pause_start a = pause_start b
  /\ pause_end a = pause_end b
  /\ billing_cycle_anchor a = billing_cycle_anchor b
  /\ metadata a = metadata b
  /\ test_mode a = test_mode b
  /\ created_at a = created_at b.

(** The rows of the table that the call of scope [app], [mode] on
    subscription [sid] does not address are the same in [s] and [s'], and
    the table has the same length; the other tables are untouched. *)
Definition other_rows_kept (sid app : string) (mode : bool) (s s' : Store) : Prop :=
  plans s' = plans s
  /\ customers s' = customers s
  /\ List.length (subscriptions s') = List.length (subscriptions s)
  /\ forall n row, nth_error (subscriptions s) n = Some row ->
                   where_id sid app mode row = false ->
                   nth_error (subscriptions s') n = Some row.

(** *** Scope *)

Definition call_application (call : LifecycleCall) : string :=
  match call with
  | Create app _ _ _ | Update app _ _ _ | ChangePlan app _ _ _ _
  | Cancel app _ _ _ _ | Reactivate app _ _ | Pause app _ _ _
  | Resume app _ _ => app
  end.

Definition call_mode (call : LifecycleCall) : bool :=
  match call with
  | Create _ mode _ _ | Update _ _ mode _ | ChangePlan _ _ mode _ _
  | Cancel _ _ mode _ _ | Reactivate _ _ mode | Pause _ _ mode _
  | Resume _ _ mode => mode
  end.

Definition out_of_scope (app : string) (mode : bool) (row : Subscription) : bool :=
  negb (in_scope app mode row).

(** Two stores look the same to a tenant and mode: the same subscription
    rows of that scope, in the same order, and the same other tables. *)
Definition same_view (app : string) (mode : bool) (s1 s2 : Store) : Prop :=
  filter (in_scope app mode) (subscriptions s1)
  = filter (in_scope app mode) (subscriptions s2)
  /\ plans s1 = plans s2
  /\ customers s1 = customers s2.

(** The rows outside a tenant's scope are the same in [s] and [s']. *)
Definition outside_kept (app : string) (mode : bool) (s s' : Store) : Prop :=
  filter (out_of_scope app mode) (subscriptions s')
  = filter (out_of_scope app mode) (subscriptions s)
  /\ plans s' = plans s
  /\ customers s' = customers s.

(** A computation reads and writes only rows of the scope: it leaves the
    rows outside the scope as they are, and on two stores that look the same
    to the scope it gives the same result and leaves stores that again look
    the same. *)
Definition within_scope {A : Type} (app : string) (mode : bool) (m : M A) : Prop :=
  (forall s, outside_kept app mode s (fst (m s)))
  /\ (forall s1 s2, same_view app mode s1 s2 ->
                    snd (m s1) = snd (m s2)
                    /\ same_view app mode (fst (m s1)) (fst (m s2))).

(** Moving subscriptions to other tenants and modes, as a function of the
    subscription id. *)
Definition rescope (tenant : string -> string * bool) (row : Subscription)
  : Subscription :=
  {| id := id row;
     application_id := fst (tenant (id row));
     customer_id := customer_id row;
     external_id := external_id row;
     status := status row;
     items := items row;
     sub_currency := sub_currency row;
     current_period_start := current_period_start row;
     current_period_end := current_period_end row;
     trial_start := trial_start row;
     trial_end := trial_end row;
     cancel_at := cancel_at row;
     canceled_at := canceled_at row;
     cancellation_reason := cancellation_reason row;
     cancel_at_period_end := cancel_at_period_end row;
     pause_start := pause_start row;
     pause_end := pause_end row;
     billing_cycle_anchor := billing_cycle_anchor row;
     metadata := metadata row;
     test_mode := snd (tenant (id row));
     created_at := created_at row;
     updated_at := updated_at row |}.

Definition rescope_store (tenant : string -> string * bool) (s : Store) : Store :=
  set_subscriptions (map (rescope tenant) (subscriptions s)) s.

Definition rescope_result (tenant : string -> string * bool)
           (r : Result (option Subscription)) : Result (option Subscription) :=
  match r with
  | inr (Some sub) => inr (Some (rescope tenant sub))
  | unchanged => unchanged
  end.

(** *** Sample data *)

Definition jan31 : Z := JSDate.utc_midnight 2024 1 31.
Definition feb29 : Z := JSDate.utc_midnight 2024 2 29.
Definition mar02 : Z := JSDate.utc_midnight 2024 3 2.

Definition monthly_plan : Plan :=
  {| plan_id := "plan_1";
     plan_application_id := "app_1";
     plan_external_id := None;
     plan_name := "Monthly";
     plan_description := None;
     billing_interval := month;
     billing_interval_count := 1;
     prices := [ {| price_id := "price_usd"; currency := "USD";
                    unit_amount := 5000; pricing_model := flat;
                    tiers := None; tier_mode := None |} ];
     trial_period_days := 0;
     plan_features := "{}";
     plan_metadata := "{}";
     plan_status := plan_active;
     plan_test_mode := false;
     plan_created_at := 0;
     plan_updated_at := 0;
     plan_archived_at := None |}.

Definition a_customer : CustomerService.Customer :=
  {| CustomerService.id := "cus_1";
     CustomerService.application_id := "app_1";
     CustomerService.test_mode := false;
     CustomerService.deleted_at := None |}.

Definition empty_store : Store :=
  {| subscriptions := []; plans := [monthly_plan]; customers := [a_customer] |}.

Definition runtime_at (now : Z) : Runtime :=
  {| js_now := now; sql_now := now + 3;
     uuid_item := "si_1"; uuid_row := "sub_1" |}.

Definition plain_input : CreateSubscriptionInput :=
  {| csi_customer_id := "cus_1";
     csi_plan_id := "plan_1";
     csi_external_id := None;
     csi_currency := Some "usd";
     csi_quantity := None;
     csi_trial_period_days := None;
     csi_trial_end := None;
     csi_billing_cycle_anchor := None;
     csi_metadata := None |}.

Definition trial_input : CreateSubscriptionInput :=
  {| csi_customer_id := "cus_1";
     csi_plan_id := "plan_1";
     csi_external_id := None;
     csi_currency := Some "usd";
     csi_quantity := None;
     csi_trial_period_days := Some 14;
     csi_trial_end := None;
     csi_billing_cycle_anchor := None;
     csi_metadata := None |}.

(** The subscription [create] stores for [plain_input] at 2024-01-31. *)
Definition a_subscription : Subscription :=
  {| id := "sub_1";
     application_id := "app_1";
     customer_id := "cus_1";
     external_id := None;
     status := active;
     items := [ {| item_id := "si_1"; item_plan_id := "plan_1";
                   item_price_id := "price_usd"; quantity := 1 |} ];
     sub_currency := "USD";
     current_period_start := jan31;
     current_period_end := mar02;
     trial_start := None;
     trial_end := None;
     cancel_at := None;
     canceled_at := None;
     cancellation_reason := None;
     cancel_at_period_end := false;
     pause_start := None;
     pause_end := None;
     billing_cycle_anchor := jan31;
     metadata := "{}";
     test_mode := false;
     created_at := jan31 + 3;
     updated_at := jan31 + 3 |}.

Definition one_subscription : Store :=
  {| subscriptions := [a_subscription];
     plans := [monthly_plan];
     customers := [a_customer] |}.

(** The store after [create] with [trial_input] at 2024-01-31, and what
    the scheduler makes of it on 2024-03-02. *)
Definition trialing_store : Store :=
  Eval vm_compute in
    fst (create (runtime_at jan31) "app_1" false trial_input None empty_store).

Definition activated_store : Store :=
  Eval vm_compute in
    fst (activateTrialEnding (runtime_at mar02) "sub_1" trialing_store).

Definition activated_subscription : Subscription :=
  Eval vm_compute in
    match snd (activateTrialEnding (runtime_at mar02) "sub_1" trialing_store) with
    | inr (Some sub) => sub
    | _ => a_subscription
    end.

(** A subscription of another tenant, created late or early, next to the
    subscription of ["app_1"]; and a page request of ["app_1"] whose cursor
    is that foreign subscription. *)
Definition foreign_subscription (created : Z) : Subscription :=
  {| id := "sub_x";
     application_id := "app_2";
     customer_id := "cus_x";
     external_id := None;
     status := active;
     items := [];
     sub_currency := "USD";
     current_period_start := created;
     current_period_end := created + 1;
     trial_start := None;
     trial_end := None;
     cancel_at := None;
     canceled_at := None;
     cancellation_reason := None;
     cancel_at_period_end := false;
     pause_start := None;
     pause_end := None;
     billing_cycle_anchor := created;
     metadata := "{}";
     test_mode := false;
     created_at := created;
     updated_at := created |}.

Definition two_tenants (created : Z) : Store :=
  {| subscriptions := [a_subscription; foreign_subscription created];
     plans := [monthly_plan];
     customers := [a_customer] |}.

Definition page_after_foreign : ListSubscriptionsParams :=
  {| lsp_application_id := "app_1";
     lsp_test_mode := false;
     lsp_customer_id := None;
     lsp_plan_id := None;
     lsp_status := None;
     lsp_limit := None;
     lsp_starting_after := Some "sub_x" |}.

End LifecycleNotions.
(* ------------------------------------------------------------------ *)
(** ** Notions and sample data for the plan-store properties *)

Module PlanNotions.

Import PlanService SubscriptionService PlanStore PricingNotionsMore.

(** The writing operations on plans as one family of calls. *)
Inductive PlanCall : Type :=
  | CreatePlan (applicationId : string) (testMode : bool)
               (input : CreatePlanInput) (features metadata : option string)
  | UpdatePlan (applicationId planId : string) (testMode : bool)
               (input : UpdatePlanInput)
  | ArchivePlan (applicationId planId : string) (testMode : bool)
  | UnarchivePlan (applicationId planId : string) (testMode : bool)
  | ClonePlan (applicationId planId : string) (testMode : bool)
              (overrides : PlanOverrides).

Definition run_plan (rt : PlanRuntime) (call : PlanCall) : M Plan :=
  match call with
  | CreatePlan app mode input features metadata =>
      create rt app mode input features metadata
  | UpdatePlan app pid mode input => update rt app pid mode input
  | ArchivePlan app pid mode => archive rt app pid mode
  | UnarchivePlan app pid mode => unarchive rt app pid mode
  | ClonePlan app pid mode overrides => clone rt app pid mode overrides
  end.

(** The call adds no plan that is archived from the start. *)
Definition adds_no_archived_plan (call : PlanCall) : Prop :=
  match call with
  | CreatePlan _ _ input _ _ => cpi_status input <> Some plan_archived
  | _ => True
  end.

(** The [WHERE] clause of [unarchive]. *)
Definition archived_in_scope (pid app : string) (mode : bool) (row : Plan) : bool :=
  where_plan_id pid app mode row && PlanStatus_eqb (plan_status row) plan_archived.

(** A plan is marked archived exactly when it carries an archive date. *)
Definition archive_flag_consistent (row : Plan) : Prop :=
  plan_status row = plan_archived <-> plan_archived_at row <> None.

(** What does not change once a plan exists: identity, scope, cadence and
    prices. *)
Definition same_offering (a b : Plan) : Prop :=
  plan_id a = plan_id b
  /\ plan_application_id a = plan_application_id b
  /\ plan_test_mode a = plan_test_mode b
  /\ billing_interval a = billing_interval b
  /\ billing_interval_count a = billing_interval_count b
  /\ prices a = prices b
  /\ plan_created_at a = plan_created_at b.

(** Two plans differ at most in status, archive date and update stamp. *)
Definition same_but_archiving (a b : Plan) : Prop :=
  same_offering a b
  /\ plan_external_id a = plan_external_id b
  /\ plan_name a = plan_name b
  /\ plan_description a = plan_description b
  /\ trial_period_days a = trial_period_days b
  /\ plan_features a = plan_features b
  /\ plan_metadata a = plan_metadata b.

(** A cloned price carries over the amounts and tiers of the original. *)
Definition same_pricing (copy original : PlanPrice) : Prop :=
  currency copy = toUpperCase (currency original)
  /\ unit_amount copy = unit_amount original
  /\ pricing_model copy = pricing_model original
  /\ tiers copy = tiers original
  /\ tier_mode copy = tier_mode original.

(** The page size [list] works with: [Math.min(Math.max(1, limit), 100)],
    [limit] defaulting to 10. *)
Definition safe_limit (limit : option Z) : Z :=
  Z.min (Z.max 1 (match limit with Some l => l | None => 10 end)) 100.

(** A list of instants runs from the latest to the earliest. *)
Fixpoint descending (l : list Z) : Prop :=
  match l with
  | a :: (b :: _) as rest => b <= a /\ descending rest
  | _ => True
  end.

Definition plan_runtime (now : Z) : PlanRuntime :=
  {| plan_sql_now := now;
     price_uuid := fun i => "price_" ++ show_Z (Z.of_nat i);
     plan_uuid := "plan_new" |}.

Definition no_plans : Store :=
  {| subscriptions := []; plans := []; customers := [] |}.

Definition draft_input : CreatePlanInput :=
  {| cpi_external_id := Some "scale";
     cpi_name := " Scale ";
     cpi_description := None;
     cpi_billing_interval := month;
     cpi_billing_interval_count := None;
     cpi_prices := cpi_prices two_band_input;
     cpi_trial_period_days := Some 7;
     cpi_status := Some plan_draft |}.

(** The store and the plan after [create] with [draft_input]. *)
Definition one_draft_plan : Store :=
  Eval vm_compute in
    fst (create (plan_runtime 1000) "app_1" false draft_input None None no_plans).

Definition the_draft_plan : Plan :=
  Eval vm_compute in
    match plans one_draft_plan with
    | plan :: _ => plan
    | [] => LifecycleNotions.monthly_plan
    end.

Definition no_overrides : PlanOverrides :=
  {| ov_external_id := None; ov_name := None; ov_description := None;
     ov_billing_interval := None; ov_billing_interval_count := None;
     ov_prices := None; ov_trial_period_days := None;
     ov_features := None; ov_metadata := None |}.

Definition rename_input : UpdatePlanInput :=
  {| upi_external_id := None; upi_name := Some "  Scale up ";
     upi_description := None; upi_trial_period_days := None;
     upi_features := None; upi_metadata := None; upi_status := None |}.

Definition first_page : ListPlansParams :=
  {| lpp_application_id := "app_1"; lpp_test_mode := false;
     lpp_limit := Some 500; lpp_starting_after := None;
     lpp_status := None; lpp_include_archived := None |}.

End PlanNotions.

(* ------------------------------------------------------------------ *)
(** ** Further notions for the lifecycle properties *)

Module LifecycleNotionsMore.

Import PlanService SubscriptionService LifecycleNotions.

(** Two subscriptions agree on every field other than [items], the current
    period and [updated_at]. *)
Definition same_but_items_and_period (a b : Subscription) : Prop :=
  id a = id b
  /\ application_id a = application_id b
  /\ customer_id a = customer_id b
  /\ external_id a = external_id b
  /\ status a = status b
  /\ sub_currency a = sub_currency b
  /\ trial_start a = trial_start b
  /\ trial_end a = trial_end b
  /\ cancel_at a = cancel_at b
  /\ canceled_at a = canceled_at b
  /\ cancellation_reason a = cancellation_reason b
  /\ cancel_at_period_end a = cancel_at_period_end b
  /\ pause_start a = pause_start b
  /\ pause_end a = pause_end b
  /\ billing_cycle_anchor a = billing_cycle_anchor b
  /\ metadata a = metadata b
  /\ test_mode a = test_mode b
  /\ created_at a = created_at b.

(** Two subscriptions agree on every field other than [status], the pause
    window, the current period and [updated_at]. *)
Definition same_but_pause_and_period (a b : Subscription) : Prop :=
  id a = id b
  /\ application_id a = application_id b
  /\ customer_id a = customer_id b
  /\ external_id a = external_id b
  /\ items a = items b
  /\ sub_currency a = sub_currency b
  /\ trial_start a = trial_start b
  /\ trial_end a = trial_end b
  /\ cancel_at a = cancel_at b
  /\ canceled_at a = canceled_at b
  /\ cancellation_reason a = cancellation_reason b
  /\ cancel_at_period_end a = cancel_at_period_end b
  /\ billing_cycle_anchor a = billing_cycle_anchor b
  /\ metadata a = metadata b
  /\ test_mode a = test_mode b
  /\ created_at a = created_at b.

(** Two subscriptions agree on every field other than [status], the current
    period and [updated_at]. *)
Definition same_but_status_and_period (a b : Subscription) : Prop :=
  same_but_pause_and_period a b
  /\ pause_start a = pause_start b
  /\ pause_end a = pause_end b.

(** The call addresses the subscription [sid] of the scope. *)
Definition addresses (call : LifecycleCall) (app sid : string) (mode : bool) : Prop :=
  match call with
  | Create _ _ _ _ => False
  | Update a i m _ | ChangePlan a i m _ _ | Cancel a i m _ _
  | Reactivate a i m | Pause a i m _ | Resume a i m =>
      a = app /\ i = sid /\ m = mode
  end.

(** The shape every subscription written by the service has: at least one
    item; a trial that is absent or has its end after its start; a current
    period whose end is after its start. *)
Definition well_formed (row : Subscription) : Prop :=
  items row <> []
  /\ ((trial_start row = None /\ trial_end row = None)
      \/ exists a b, trial_start row = Some a /\ trial_end row = Some b /\ a < b)
  /\ current_period_start row < current_period_end row.

(** How a call ends on a well-formed table: the table it leaves is
    well-formed, the plans are untouched, a returned subscription is
    well-formed and an error is one of the caller-visible kinds. *)
Definition ends_well_formed (s s' : Store) (r : Result Subscription) : Prop :=
  Forall well_formed (subscriptions s')
  /\ plans s' = plans s
  /\ match r with
     | inr sub => well_formed sub
     | inl e => caller_visible e
     end.

Definition safe_page_size (limit : option Z) : Z :=
  Z.min (Z.max 1 (match limit with Some l => l | None => 10 end)) 100.

Definition quarterly_plan : Plan :=
  {| plan_id := "plan_2";
     plan_application_id := "app_1";
     plan_external_id := None;
     plan_name := "Quarterly";
     plan_description := None;
     billing_interval := month;
     billing_interval_count := 3;
     prices := [ {| price_id := "price_usd_q"; currency := "USD";
                    unit_amount := 14000; pricing_model := flat;
                    tiers := None; tier_mode := None |} ];
     trial_period_days := 0;
     plan_features := "{}";
     plan_metadata := "{}";
     plan_status := plan_active;
     plan_test_mode := false;
     plan_created_at := 0;
     plan_updated_at := 0;
     plan_archived_at := None |}.

Definition two_plans : Store :=
  {| subscriptions := [a_subscription];
     plans := [monthly_plan; quarterly_plan];
     customers := [a_customer] |}.

(** The subscription in [trialing_store]. *)
Definition trialing_subscription : Subscription :=
  Eval vm_compute in
    match subscriptions trialing_store with
    | row :: _ => row
    | [] => a_subscription
    end.

End LifecycleNotionsMore.

(* ------------------------------------------------------------------ *)
(** ** Properties of the pricing engine *)

Module PricingProperties.

Import PlanService PricingNotions.

(** *** Helper lemmas *)

Lemma truthy_surcharge (tier : PriceTier) (total : Z) :
  (if truthy_number (flat_amount tier) then total + surcharge tier else total)
  = total + surcharge tier.
Proof.
  unfold surcharge, truthy_number.
  destruct (flat_amount tier) as [f|]; simpl; [|lia].
  destruct (Z.eqb_spec f 0); simpl; lia.
Qed.

Lemma tiered_loop_step (tier : PriceTier) (rest : list PriceTier) (total remaining : Z) :
  tiered_loop (tier :: rest) total remaining =
  let units := Z.min remaining (match up_to tier with
                                | None => remaining
                                | Some u => u
                                end) in
  if remaining - units <=? 0
  then total + units * tier_unit_amount tier + surcharge tier
  else tiered_loop rest (total + units * tier_unit_amount tier + surcharge tier)
                   (remaining - units).
Proof.
  cbn [tiered_loop]. fold (surcharge tier). rewrite truthy_surcharge. reflexivity.
Qed.

Lemma volume_loop_step (tier : PriceTier) (rest : list PriceTier) (q : Z) :
  volume_loop (tier :: rest) q =
  if match up_to tier with
     | None => true
     | Some u => q <=? u
     end
  then Some (q * tier_unit_amount tier + surcharge tier)
  else volume_loop rest q.
Proof.
  cbn [volume_loop]. fold (surcharge tier). rewrite truthy_surcharge. reflexivity.
Qed.

Lemma validateTiers_from_ok (ts : list PriceTier) :
  forall i lastUpTo, validateTiers_from i lastUpTo ts = inr tt -> tiers_ok lastUpTo ts.
Proof.
  induction ts as [|tier rest IH]; intros i lastUpTo H; cbn in *; [exact I|].
  destruct (Z.ltb_spec (tier_unit_amount tier) 0); [discriminate|].
  split; [lia|].
  destruct (up_to tier) as [u|].
  - destruct (Z.leb_spec u lastUpTo); [discriminate|].
    split; [lia|]. eapply IH; eassumption.
  - destruct rest; [reflexivity|discriminate].
Qed.

Lemma tiers_ok_weaken (ts : list PriceTier) (a b : Z) :
  a <= b -> tiers_ok b ts -> tiers_ok a ts.
Proof.
  destruct ts as [|tier rest]; cbn; [trivial|].
  intros Hab [Hu H]. split; [assumption|].
  destruct (up_to tier); [|assumption].
  destruct H. split; [lia|assumption].
Qed.

Lemma validatePrices_In (ps : list PriceInput) :
  validatePrices ps = inr tt -> forall p, In p ps -> validatePriceInput p = inr tt.
Proof.
  induction ps as [|p0 rest IH]; cbn; intros H p Hin; [contradiction|].
  destruct (validatePriceInput p0) as [e|[]] eqn:E; [discriminate|].
  destruct Hin as [->|Hin]; [assumption|auto].
Qed.

Lemma validatePlanInput_prices (input : CreatePlanInput) :
  validatePlanInput input = inr tt -> validatePrices (cpi_prices input) = inr tt.
Proof.
  unfold validatePlanInput. intros H.
  repeat match type of H with
         | (if ?c then _ else _) = _ => destruct c; [discriminate|]
         end.
  destruct (validatePrices (cpi_prices input)) as [e|[]]; [discriminate|reflexivity].
Qed.

(** With no negative surcharge on any tier, the graduated loop keeps its
    total non-negative. *)
Lemma tiered_loop_nonneg (ts : list PriceTier) :
  forall lastUpTo total remaining,
    0 <= lastUpTo -> tiers_ok lastUpTo ts ->
    Forall (fun tier => 0 <= surcharge tier) ts ->
    0 <= total -> 0 <= remaining ->
    0 <= tiered_loop ts total remaining.
Proof.
  induction ts as [|tier rest IH]; intros lastUpTo total remaining Hl Hok Hs Ht Hr.
  - cbn. assumption.
  - rewrite tiered_loop_step. cbn zeta.
    destruct Hok as [Hu Hok]. inversion Hs as [|? ? Hs1 Hs2]; subst.
    set (units := Z.min remaining _).
    assert (Hunits : 0 <= units <= remaining).
    { subst units. destruct (up_to tier) as [u|]; [destruct Hok|]; lia. }
    assert (0 <= units * tier_unit_amount tier) by (apply Z.mul_nonneg_nonneg; lia).
    destruct (remaining - units <=? 0); [lia|].
    destruct (up_to tier) as [u|].
    + destruct Hok as [Hlt Hok]. apply (IH u); try assumption; lia.
    + subst rest. cbn. lia.
Qed.

Lemma volume_loop_nonneg (ts : list PriceTier) (q total : Z) :
  Forall (fun tier => 0 <= tier_unit_amount tier /\ 0 <= surcharge tier) ts ->
  0 <= q -> volume_loop ts q = Some total -> 0 <= total.
Proof.
  induction ts as [|tier rest IH]; intros Hall Hq H; [discriminate|].
  rewrite volume_loop_step in H. inversion Hall as [|? ? [Hu Hs] Hrest]; subst.
  destruct (match up_to tier with None => true | Some u => q <=? u end).
  - injection H as <-.
    assert (0 <= q * tier_unit_amount tier) by (apply Z.mul_nonneg_nonneg; lia). lia.
  - auto.
Qed.

Lemma tiers_ok_unit_amounts (ts : list PriceTier) :
  forall lastUpTo, tiers_ok lastUpTo ts ->
                   Forall (fun tier => 0 <= tier_unit_amount tier) ts.
Proof.
  induction ts as [|tier rest IH]; intros lastUpTo H; constructor.
  - apply H.
  - destruct H as [_ H]. destruct (up_to tier) as [u|].
    + destruct H. eauto.
    + subst rest. constructor.
Qed.

(** The guarantee that does hold: a validated price none of whose tiers
    carries a negative flat surcharge never yields a negative amount. *)
Lemma calculatePrice_nonneg_without_rebate (price : PlanPrice) (q : Z) :
  0 <= unit_amount price ->
  tiers_validated price ->
  (forall ts, tiers price = Some ts -> Forall (fun tier => 0 <= surcharge tier) ts) ->
  0 <= q ->
  0 <= calculatePrice price q.
Proof.
  intros Hu Hv Hs Hq. unfold calculatePrice, tiers_validated in *.
  assert (0 <= unit_amount price * q) by (apply Z.mul_nonneg_nonneg; lia).
  destruct (pricing_model price); cbn; try assumption.
  - destruct (tiers price) as [ts|]; [|assumption].
    apply (tiered_loop_nonneg ts 0); try lia.
    + eapply validateTiers_from_ok. exact Hv.
    + auto.
  - destruct (tiers price) as [ts|]; [|assumption].
    destruct (volume_loop ts q) as [total|] eqn:E; [|assumption].
    apply (volume_loop_nonneg ts q total); try assumption.
    apply validateTiers_from_ok in Hv. apply tiers_ok_unit_amounts in Hv.
    specialize (Hs ts eq_refl).
    rewrite Forall_forall in *. intros tier Hin. split; auto.
Qed.

Lemma tiered_loop_units (ts : list PriceTier) :
  forall total remaining,
    tiered_loop ts total remaining
    = total + charge_for (tiered_units ts remaining) ts.
Proof.
  induction ts as [|tier rest IH]; intros total remaining.
  - cbn. lia.
  - rewrite tiered_loop_step. cbn [tiered_units charge_for]. cbn zeta.
    destruct (_ <=? 0).
    + cbn [charge_for]. lia.
    + rewrite IH. lia.
Qed.

(** On a finite first tier followed by the terminal tier the loop and the
    specification's rule coincide: the shape of the documented scenario. *)
Lemma tiered_two_tiers_agree (t1 t2 : PriceTier) (u q : Z) :
  up_to t1 = Some u -> up_to t2 = None -> 0 < u -> 0 < q ->
  calculatePrice (tiered_price [t1; t2]) q = graduated_spec [t1; t2] q.
Proof.
  intros H1 H2 Hu Hq. unfold calculatePrice, graduated_spec. cbn [tiered_price pricing_model tiers PricingModel_eqb].
  rewrite tiered_loop_step. cbn zeta. rewrite tiered_loop_step.
  cbn [graduated_spec_from tiered_loop]. cbn zeta.
  rewrite H1, H2. fold (surcharge t1) (surcharge t2).
  replace (u - 0) with u by lia. rewrite !Z.min_id.
  destruct (Z.leb_spec q 0); [lia|].
  destruct (Z.le_gt_cases q u) as [Hle|Hgt].
  - rewrite (Z.min_l q u) by lia. replace (q - q) with 0 by lia. cbn [Z.leb Z.compare].
    destruct (Z.ltb_spec 0 q); lia.
  - rewrite (Z.min_r q u) by lia.
    destruct (Z.leb_spec (q - u) 0); [lia|].
    destruct (Z.ltb_spec 0 u); [|lia].
    destruct (Z.ltb_spec 0 (q - u)); [|lia].
    destruct (Z.leb_spec (q - u - (q - u)) 0); lia.
Qed.

(** *** The claims *)

(** C1. The graduated walk is claimed to charge each tier for at most
    [tier.up_to] minus the previous tier's [up_to] units. The loop of
    [calculatePrice] takes [tier.up_to] itself as the tier's capacity: on
    the validated tiers 10 / 20 / infinity and quantity 40 it prices 10, 20
    and 10 units (120 in all) where the claimed rule prices 10, 10 and 20
    (100 in all). The documented scenario, tiers 100 / infinity at quantity
    150, still comes to 1500. *)
Theorem tiered_takes_up_to_as_tier_capacity :
  validateTiers three_tiers = inr tt
  /\ tiered_units three_tiers 40 = [10; 20; 10]
  /\ calculatePrice (tiered_price three_tiers) 40 = 120
  /\ graduated_spec three_tiers 40 = 100
  /\ calculatePrice (tiered_price example_tiers) 150 = 1500
  /\ graduated_spec example_tiers 150 = 1500.
Proof. repeat split; vm_compute; reflexivity. Qed.




(** C5. A price that passes plan-creation validation is claimed never to
    yield a negative amount for a non-negative quantity. [validateTiers]
    checks each tier's [unit_amount] but not its [flat_amount]: the input
    below passes [validatePlanInput], and the price [create] stores for it
    costs -490 at quantity 1. *)
Theorem validated_price_can_be_negative :
  validatePlanInput rebate_input = inr tt
  /\ map (price_of_input "price_1") (cpi_prices rebate_input)
     = [ {| price_id := "price_1"; currency := "USD"; unit_amount := 0;
            pricing_model := tiered;
            tiers := Some [ {| up_to := None; tier_unit_amount := 10;
                               flat_amount := Some (-500) |} ];
            tier_mode := None |} ]
  /\ Forall (fun price => calculatePrice price 1 = -490)
            (map (price_of_input "price_1") (cpi_prices rebate_input)).
Proof.
  repeat split; try (vm_compute; reflexivity).
  repeat constructor.
Qed.

(** C9. For a tiered or volume price whose tier list is absent,
    [calculatePrice] takes the per-unit fallback [unit_amount * quantity];
    it is a total function, so no error is raised. Plan creation never
    stores such a price: [validatePlanInput] rejects every input that
    carries one. *)
Theorem calculatePrice_without_tiers (price : PlanPrice) (q : Z) :
  pricing_model price = tiered \/ pricing_model price = volume ->
  tiers price = None ->
  calculatePrice price q = unit_amount price * q
  /\ forall (input : CreatePlanInput) (p : PriceInput) (id : string),
       In p (cpi_prices input) -> price_of_input id p = price ->
       exists message, validatePlanInput input = inl (ValidationError message).
Proof.
  intros Hm Ht. split.
  - unfold calculatePrice. rewrite Ht. destruct Hm as [-> | ->]; reflexivity.
  - intros input p id Hin Hp.
    assert (Hbad : validatePriceInput p <> inr tt).
    { unfold validatePriceInput. subst price. cbn in Hm, Ht.
      destruct (_ || _); [discriminate|].
      destruct (in_unit_amount p <? 0); [discriminate|].
      rewrite Ht.
      destruct (in_pricing_model p) as [[]|]; destruct Hm; try discriminate. }
    destruct (validatePlanInput input) as [e|[]] eqn:E.
    + assert (Hkind : exists message, e = ValidationError message).
      { clear - E. unfold validatePlanInput in E.
        repeat match type of E with
               | (if ?c then _ else _) = _ =>
                   destruct c; [injection E as <-; eexists; reflexivity|]
               end.
        destruct (validatePrices (cpi_prices input)) as [e'|[]] eqn:Ep.
        - injection E as <-. clear - Ep.
          induction (cpi_prices input) as [|p0 rest IH]; [discriminate|].
          cbn in Ep. destruct (validatePriceInput p0) as [e0|[]] eqn:E0; [|auto].
          injection Ep as <-. clear - E0. unfold validatePriceInput in E0.
          repeat match type of E0 with
                 | (if ?c then _ else _) = _ =>
                     destruct c; [injection E0 as <-; eexists; reflexivity|]
                 end.
          assert (Hvt : forall ts i l e, validateTiers_from i l ts = inl e ->
                                         exists message, e = ValidationError message).
          { clear. induction ts as [|tier rest IH]; intros i l e H; cbn in H;
              [discriminate|].
            destruct (_ <? 0); [injection H as <-; eexists; reflexivity|].
            destruct (up_to tier).
            - destruct (_ <=? _); [injection H as <-; eexists; reflexivity|eauto].
            - destruct rest; [discriminate|injection H as <-; eexists; reflexivity]. }
          destruct (in_pricing_model p0) as [[]|]; try discriminate;
            (destruct (in_tiers p0) as [[|t ts]|];
             [injection E0 as <-; eexists; reflexivity
             |eapply Hvt; exact E0
             |injection E0 as <-; eexists; reflexivity]).
        - destruct (match cpi_trial_period_days input with
                    | Some d => d <? 0 | None => false end);
            [injection E as <-; eexists; reflexivity|discriminate]. }
      destruct Hkind as [message ->]. eauto.
    + exfalso. apply Hbad.
      apply (validatePrices_In (cpi_prices input)); [|assumption].
      apply validatePlanInput_prices. assumption.
Qed.

Lemma calculatePrice_without_tiers_witness :
  calculatePrice volume_price_without_tiers 12 = 84.
Proof.
  change 84 with (unit_amount volume_price_without_tiers * 12).
  apply (calculatePrice_without_tiers volume_price_without_tiers 12).
  - right. reflexivity.
  - reflexivity.
Defined.

End PricingProperties.

(* ------------------------------------------------------------------ *)
(** ** Further properties of the pricing engine *)

Module PricingPropertiesMore.

Import PlanService PricingNotions PricingNotionsMore PricingProperties.

(** *** Validation of tiers *)

Lemma tiers_ok_validateTiers_from (ts : list PriceTier) :
  forall i lastUpTo, tiers_ok lastUpTo ts -> validateTiers_from i lastUpTo ts = inr tt.
Proof.
  induction ts as [|tier rest IH]; intros i lastUpTo H; cbn in *; [reflexivity|].
  destruct H as [Hu H].
  destruct (Z.ltb_spec (tier_unit_amount tier) 0); [lia|].
  destruct (up_to tier) as [u|].
  - destruct H as [Hlt Hrest].
    destruct (Z.leb_spec u lastUpTo); [lia|]. apply IH. assumption.
  - subst rest. reflexivity.
Qed.

(** X1. [validateTiers] accepts exactly the tier lists whose unit amounts are
    non-negative, whose finite bounds are positive and strictly increasing,
    and in which only the last tier may be infinite. *)
Theorem validateTiers_accepts_exactly (ts : list PriceTier) :
  validateTiers ts = inr tt <-> tiers_ok 0 ts.
Proof.
  split.
  - apply validateTiers_from_ok.
  - apply tiers_ok_validateTiers_from.
Qed.

(** Whatever [validateTiers] rejects, it rejects with a ValidationError. *)
Lemma validateTiers_from_error (ts : list PriceTier) :
  forall i lastUpTo e, validateTiers_from i lastUpTo ts = inl e ->
                       exists message, e = ValidationError message.
Proof.
  induction ts as [|tier rest IH]; intros i lastUpTo e H; cbn in H; [discriminate|].
  destruct (_ <? 0); [injection H as <-; eauto|].
  destruct (up_to tier).
  - destruct (_ <=? _); [injection H as <-; eauto|eauto].
  - destruct rest; [discriminate|injection H as <-; eauto].
Qed.

(** *** Volume pricing *)

Lemma volume_loop_skips (before : list PriceTier) (rest : list PriceTier) (q : Z) :
  all_below q before -> volume_loop (before ++ rest) q = volume_loop rest q.
Proof.
  induction before as [|t before IH]; intros H; [reflexivity|].
  inversion H as [|? ? [u [Hu Hlt]] Hrest]; subst.
  cbn [app]. rewrite volume_loop_step, Hu.
  destruct (Z.leb_spec q u); [lia|]. apply IH. assumption.
Qed.

Lemma volume_loop_stops (tier : PriceTier) (after : list PriceTier) (q : Z) :
  (up_to tier = None \/ exists u, up_to tier = Some u /\ q <= u) ->
  volume_loop (tier :: after) q = Some (q * tier_unit_amount tier + surcharge tier).
Proof.
  intros Htier. rewrite volume_loop_step.
  destruct Htier as [->|[u [-> Hle]]]; [reflexivity|].
  destruct (Z.leb_spec q u); [reflexivity|lia].
Qed.

(** X2. Volume pricing charges the whole quantity at the first tier whose bound
    reaches it: with every earlier bound below the quantity, the price is
    quantity times that tier's unit amount plus its flat surcharge. *)
Theorem volume_prices_whole_quantity_in_one_tier
        (price : PlanPrice) (before after : list PriceTier) (tier : PriceTier)
        (q : Z) :
  pricing_model price = volume ->
  tiers price = Some (before ++ tier :: after)%list ->
  all_below q before ->
  (up_to tier = None \/ exists u, up_to tier = Some u /\ q <= u) ->
  calculatePrice price q = q * tier_unit_amount tier + surcharge tier.
Proof.
  intros Hm Ht Hbefore Htier. unfold calculatePrice. rewrite Hm, Ht.
  cbn [PricingModel_eqb]. rewrite volume_loop_skips by assumption.
  rewrite volume_loop_stops by assumption. reflexivity.
Qed.

Lemma volume_prices_whole_quantity_in_one_tier_witness :
  calculatePrice two_band_price 11 = 11 * 80 + 200.
Proof.
  apply (volume_prices_whole_quantity_in_one_tier two_band_price
           [ {| up_to := Some 10; tier_unit_amount := 100; flat_amount := None |} ]
           []
           {| up_to := Some 50; tier_unit_amount := 80; flat_amount := Some 200 |}
           11).
  - reflexivity.
  - reflexivity.
  - repeat constructor. exists 10. split; [reflexivity|lia].
  - right. exists 50. split; [reflexivity|lia].
Defined.

Lemma tiers_ok_bounds_below (before : list PriceTier) :
  forall lastUpTo (tier : PriceTier) (after : list PriceTier) (u : Z),
    tiers_ok lastUpTo (before ++ tier :: after) ->
    up_to tier = Some u ->
    lastUpTo < u /\ all_below u before.
Proof.
  induction before as [|t before IH]; intros lastUpTo tier after u Hok Hu.
  - cbn in Hok. rewrite Hu in Hok. split; [apply Hok|constructor].
  - cbn [app tiers_ok] in Hok. destruct Hok as [_ Hok].
    destruct (up_to t) as [ut|] eqn:Hut.
    + destruct Hok as [Hlt Hok]. destruct (IH ut tier after u Hok Hu) as [Hlt' Hb].
      split; [lia|]. constructor; [|assumption].
      exists ut. split; [assumption|lia].
    + destruct before; discriminate.
Qed.

(** X3. At a tier boundary of validated volume tiers the whole quantity changes
    rate: [up_to] units are all priced by the tier with that bound, and
    [up_to + 1] units are all priced by the tier after it. *)
Theorem volume_boundary_moves_every_unit
        (price : PlanPrice) (before after : list PriceTier)
        (t1 t2 : PriceTier) (u : Z) :
  pricing_model price = volume ->
  tiers price = Some (before ++ t1 :: t2 :: after)%list ->
  validateTiers (before ++ t1 :: t2 :: after) = inr tt ->
  up_to t1 = Some u ->
  calculatePrice price u = u * tier_unit_amount t1 + surcharge t1
  /\ calculatePrice price (u + 1) = (u + 1) * tier_unit_amount t2 + surcharge t2.
Proof.
  intros Hm Ht Hv Hu. apply validateTiers_from_ok in Hv.
  destruct (tiers_ok_bounds_below before 0 t1 (t2 :: after) u Hv Hu) as [_ Hb1].
  split.
  - unfold calculatePrice. rewrite Hm, Ht. cbn [PricingModel_eqb].
    rewrite volume_loop_skips by assumption.
    rewrite volume_loop_stops; [reflexivity|].
    right. exists u. split; [assumption|lia].
  - replace (before ++ t1 :: t2 :: after)%list
      with ((before ++ [t1]) ++ t2 :: after)%list in *
      by (rewrite <- app_assoc; reflexivity).
    unfold calculatePrice. rewrite Hm, Ht. cbn [PricingModel_eqb].
    rewrite volume_loop_skips; [rewrite volume_loop_stops; [reflexivity|]|].
    2:{ unfold all_below in *. apply Forall_app. split.
      * eapply Forall_impl; [|exact Hb1]. cbn. intros t [ut [H1 H2]].
        exists ut. split; [assumption|lia].
      * constructor; [|constructor]. exists u. split; [assumption|lia]. }
    + destruct (up_to t2) as [u2|] eqn:Hu2; [|left; reflexivity].
      right. exists u2. split; [reflexivity|].
      destruct (tiers_ok_bounds_below (before ++ [t1]) 0 t2 after u2 Hv Hu2)
        as [_ Hb2].
      unfold all_below in Hb2. apply Forall_app in Hb2. destruct Hb2 as [_ Hb2].
      inversion Hb2 as [|? ? [u' [Hu' Hlt]] _]; subst.
      rewrite Hu in Hu'. injection Hu' as <-. lia.
Qed.

Lemma volume_boundary_moves_every_unit_witness :
  calculatePrice two_band_price 10 = 10 * 100 + 0
  /\ calculatePrice two_band_price (10 + 1) = (10 + 1) * 80 + 200.
Proof.
  apply (volume_boundary_moves_every_unit two_band_price []
           []
           {| up_to := Some 10; tier_unit_amount := 100; flat_amount := None |}
           {| up_to := Some 50; tier_unit_amount := 80; flat_amount := Some 200 |}
           10); reflexivity.
Defined.

(** X4. A quantity above every bound of an all-finite volume tier list matches
    no tier: the price falls back to the price's own [unit_amount] times
    the quantity, and no tier's rate or surcharge applies. *)
Theorem volume_above_every_bound_falls_back
        (price : PlanPrice) (ts : list PriceTier) (q : Z) :
  pricing_model price = volume ->
  tiers price = Some ts ->
  all_below q ts ->
  calculatePrice price q = unit_amount price * q.
Proof.
  intros Hm Ht Hb. unfold calculatePrice. rewrite Hm, Ht. cbn [PricingModel_eqb].
  rewrite <- (app_nil_r ts). rewrite volume_loop_skips by assumption. reflexivity.
Qed.

Lemma volume_above_every_bound_falls_back_witness :
  calculatePrice two_band_price 51 = 900 * 51.
Proof.
  apply (volume_above_every_bound_falls_back two_band_price
           [ {| up_to := Some 10; tier_unit_amount := 100; flat_amount := None |};
             {| up_to := Some 50; tier_unit_amount := 80; flat_amount := Some 200 |} ]
           51).
  - reflexivity.
  - reflexivity.
  - repeat constructor.
    + exists 10. split; [reflexivity|lia].
    + exists 50. split; [reflexivity|lia].
Defined.

(** *** Graduated pricing *)

Lemma ends_open_tail (tier : PriceTier) (rest : list PriceTier) (u : Z) :
  up_to tier = Some u -> ends_open (tier :: rest) -> ends_open rest.
Proof.
  intros Hu [before [last [Heq Hlast]]].
  destruct before as [|b before]; cbn in Heq.
  - injection Heq as -> _. congruence.
  - injection Heq as _ ->. exists before, last. split; [reflexivity|assumption].
Qed.

Lemma tiered_units_open (ts : list PriceTier) :
  forall lastUpTo q,
    0 <= lastUpTo -> tiers_ok lastUpTo ts -> ends_open ts -> 0 <= q ->
    sum_Z (tiered_units ts q) = q /\ Forall (fun n => 0 <= n) (tiered_units ts q).
Proof.
  induction ts as [|tier rest IH]; intros lastUpTo q Hl Hok Hopen Hq.
  - destruct Hopen as [before [last [Heq _]]]. destruct before; discriminate.
  - cbn [tiered_units]. cbn zeta. destruct Hok as [_ Hok].
    destruct (up_to tier) as [u|] eqn:Hu.
    + destruct Hok as [Hlt Hok].
      destruct (Z.leb_spec (q - Z.min q u) 0) as [Hle|Hgt].
      * cbn. split; [lia|]. constructor; [lia|constructor].
      * assert (Hmin : Z.min q u = u) by lia. rewrite Hmin in *.
        destruct (IH u (q - u) ltac:(lia) Hok (ends_open_tail _ _ _ Hu Hopen)
                     ltac:(lia)) as [Hsum Hall].
        cbn [sum_Z fold_right]. fold (sum_Z (tiered_units rest (q - u))).
        split; [lia|]. constructor; [lia|assumption].
    + rewrite Z.min_id, Z.sub_diag. cbn. split; [lia|].
      constructor; [lia|constructor].
Qed.

(** X5. With validated tiers that end in the infinite tier, the graduated loop
    distributes the whole quantity: the units it prices per tier are
    non-negative and add up to the quantity, and the price is the charge
    for exactly those units. *)
Theorem tiered_distributes_the_whole_quantity
        (price : PlanPrice) (ts : list PriceTier) (q : Z) :
  pricing_model price = tiered ->
  tiers price = Some ts ->
  validateTiers ts = inr tt ->
  ends_open ts ->
  0 <= q ->
  sum_Z (tiered_units ts q) = q
  /\ Forall (fun n => 0 <= n) (tiered_units ts q)
  /\ calculatePrice price q = charge_for (tiered_units ts q) ts.
Proof.
  intros Hm Ht Hv Hopen Hq. apply validateTiers_from_ok in Hv.
  destruct (tiered_units_open ts 0 q ltac:(lia) Hv Hopen Hq) as [Hsum Hall].
  repeat split; try assumption.
  unfold calculatePrice. rewrite Hm, Ht. cbn [PricingModel_eqb].
  rewrite tiered_loop_units. lia.
Qed.

Lemma tiered_distributes_the_whole_quantity_witness :
  sum_Z (tiered_units three_tiers 40) = 40
  /\ Forall (fun n => 0 <= n) (tiered_units three_tiers 40)
  /\ calculatePrice (tiered_price three_tiers) 40
     = charge_for (tiered_units three_tiers 40) three_tiers.
Proof.
  apply (tiered_distributes_the_whole_quantity (tiered_price three_tiers)
                                               three_tiers 40).
  - reflexivity.
  - reflexivity.
  - reflexivity.
  - exists [ {| up_to := Some 10; tier_unit_amount := 5; flat_amount := None |};
             {| up_to := Some 20; tier_unit_amount := 3; flat_amount := None |} ],
           {| up_to := None; tier_unit_amount := 1; flat_amount := None |}.
    split; reflexivity.
  - lia.
Defined.

Lemma finite_bounds_nonneg (ts : list PriceTier) :
  forall lastUpTo, 0 <= lastUpTo -> tiers_ok lastUpTo ts ->
                   0 <= sum_Z (finite_bounds ts).
Proof.
  induction ts as [|tier rest IH]; intros lastUpTo Hl Hok; cbn; [lia|].
  destruct Hok as [_ Hok]. destruct (up_to tier) as [u|].
  - destruct Hok as [Hlt Hok]. specialize (IH u ltac:(lia) Hok).
    cbn. fold (sum_Z (finite_bounds rest)). lia.
  - subst rest. cbn. lia.
Qed.

Lemma tiered_units_closed (ts : list PriceTier) :
  forall lastUpTo q,
    0 <= lastUpTo -> tiers_ok lastUpTo ts -> all_finite ts -> 0 <= q ->
    sum_Z (tiered_units ts q) = Z.min q (sum_Z (finite_bounds ts)).
Proof.
  induction ts as [|tier rest IH]; intros lastUpTo q Hl Hok Hfin Hq.
  - cbn. lia.
  - cbn [tiered_units finite_bounds]. cbn zeta. destruct Hok as [_ Hok].
    inversion Hfin as [|? ? [u Hu] Hfin']; subst. rewrite Hu in *.
    destruct Hok as [Hlt Hok].
    pose proof (finite_bounds_nonneg rest u ltac:(lia) Hok) as Hrest.
    cbn [sum_Z fold_right]. fold (sum_Z (finite_bounds rest)).
    destruct (Z.leb_spec (q - Z.min q u) 0) as [Hle|Hgt].
    + cbn. lia.
    + assert (Hmin : Z.min q u = u) by lia. rewrite Hmin in *.
      fold (sum_Z (tiered_units rest (q - u))).
      rewrite (IH u (q - u) ltac:(lia) Hok Hfin' ltac:(lia)). lia.
Qed.

Lemma tiered_units_past_bounds (ts : list PriceTier) :
  forall lastUpTo q,
    0 <= lastUpTo -> tiers_ok lastUpTo ts -> all_finite ts ->
    sum_Z (finite_bounds ts) <= q ->
    tiered_units ts q = tiered_units ts (sum_Z (finite_bounds ts)).
Proof.
  induction ts as [|tier rest IH]; intros lastUpTo q Hl Hok Hfin Hbig;
    [reflexivity|].
  cbn [tiered_units finite_bounds] in *. cbn zeta. cbn [tiers_ok] in Hok.
  inversion Hfin as [|? ? [u Hu] Hfin']; subst. rewrite Hu in *.
  destruct Hok as [_ [Hlt Hok]].
  pose proof (finite_bounds_nonneg rest u ltac:(lia) Hok) as Hrest.
  cbn [sum_Z fold_right] in *. fold (sum_Z (finite_bounds rest)) in *.
  set (cap := sum_Z (finite_bounds rest)) in *.
  rewrite !Z.min_r by lia. f_equal.
  replace (u + cap - u) with cap by lia.
  destruct (Z.leb_spec (q - u) 0) as [Hq|Hq], (Z.leb_spec cap 0) as [Hc|Hc];
    try reflexivity; try lia.
  - assert (rest = []) as ->; [|reflexivity].
    destruct rest as [|t2 rest2]; [reflexivity|exfalso].
    inversion Hfin' as [|? ? [u2 Hu2] Hfin'']; subst.
    subst cap. cbn [finite_bounds] in *. cbn [tiers_ok] in Hok. rewrite Hu2 in *.
    destruct Hok as [_ [Hlt2 Hok2]].
    pose proof (finite_bounds_nonneg rest2 u2 ltac:(lia) Hok2).
    cbn [sum_Z fold_right] in *. fold (sum_Z (finite_bounds rest2)) in *. lia.
  - apply (IH u); try assumption; lia.
Qed.

(** X6. With validated tiers that are all finite, the graduated loop takes each
    tier's [up_to] as the number of units the tier can hold: it prices at
    most the sum of the bounds, and a quantity beyond that sum costs what
    the sum costs - the units past it are not charged. *)
Theorem tiered_charges_no_unit_beyond_the_bounds
        (price : PlanPrice) (ts : list PriceTier) (q : Z) :
  pricing_model price = tiered ->
  tiers price = Some ts ->
  validateTiers ts = inr tt ->
  all_finite ts ->
  0 <= q ->
  sum_Z (tiered_units ts q) = Z.min q (sum_Z (finite_bounds ts))
  /\ (sum_Z (finite_bounds ts) <= q ->
      calculatePrice price q = calculatePrice price (sum_Z (finite_bounds ts))).
Proof.
  intros Hm Ht Hv Hfin Hq. apply validateTiers_from_ok in Hv.
  split; [apply (tiered_units_closed ts 0); assumption || lia|].
  intros Hbig. unfold calculatePrice. rewrite Hm, Ht. cbn [PricingModel_eqb].
  rewrite !tiered_loop_units.
  rewrite (tiered_units_past_bounds ts 0 q) by (assumption || lia). reflexivity.
Qed.

Lemma tiered_charges_no_unit_beyond_the_bounds_witness :
  sum_Z (tiered_units [ {| up_to := Some 10; tier_unit_amount := 5;
                           flat_amount := None |} ] 25)
  = Z.min 25 10
  /\ (10 <= 25 ->
      calculatePrice
        (tiered_price [ {| up_to := Some 10; tier_unit_amount := 5;
                           flat_amount := None |} ]) 25
      = calculatePrice
          (tiered_price [ {| up_to := Some 10; tier_unit_amount := 5;
                             flat_amount := None |} ]) 10).
Proof.
  apply (tiered_charges_no_unit_beyond_the_bounds
           (tiered_price [ {| up_to := Some 10; tier_unit_amount := 5;
                              flat_amount := None |} ])
           [ {| up_to := Some 10; tier_unit_amount := 5; flat_amount := None |} ]
           25).
  - reflexivity.
  - reflexivity.
  - reflexivity.
  - repeat constructor. exists 10. reflexivity.
  - lia.
Defined.

Lemma tiered_loop_grows (ts : list PriceTier) :
  forall lastUpTo total remaining,
    0 <= lastUpTo -> tiers_ok lastUpTo ts ->
    Forall (fun tier => 0 <= surcharge tier) ts ->
    0 <= remaining ->
    total <= tiered_loop ts total remaining.
Proof.
  induction ts as [|tier rest IH]; intros lastUpTo total remaining Hl Hok Hs Hr.
  - cbn. lia.
  - rewrite tiered_loop_step. cbn zeta.
    destruct Hok as [Hu Hok]. inversion Hs as [|? ? Hs1 Hs2]; subst.
    set (units := Z.min remaining _).
    assert (Hunits : 0 <= units <= remaining).
    { subst units. destruct (up_to tier) as [u|]; [destruct Hok|]; lia. }
    assert (0 <= units * tier_unit_amount tier) by (apply Z.mul_nonneg_nonneg; lia).
    destruct (remaining - units <=? 0); [lia|].
    destruct (up_to tier) as [u|].
    + destruct Hok as [Hlt Hok].
      specialize (IH u (total + units * tier_unit_amount tier + surcharge tier)
                     (remaining - units) ltac:(lia) Hok Hs2 ltac:(lia)). lia.
    + subst rest. cbn. lia.
Qed.

Lemma tiered_loop_monotone (ts : list PriceTier) :
  forall lastUpTo t t' q q',
    0 <= lastUpTo -> tiers_ok lastUpTo ts ->
    Forall (fun tier => 0 <= surcharge tier) ts ->
    t <= t' -> 0 <= q <= q' ->
    tiered_loop ts t q <= tiered_loop ts t' q'.
Proof.
  induction ts as [|tier rest IH]; intros lastUpTo t t' q q' Hl Hok Hs Ht Hq.
  - cbn. lia.
  - rewrite !tiered_loop_step. cbn zeta.
    destruct Hok as [Hu Hok]. inversion Hs as [|? ? Hs1 Hs2]; subst.
    destruct (up_to tier) as [u|].
    + destruct Hok as [Hlt Hok].
      assert (Hmul : Z.min q u * tier_unit_amount tier
                     <= Z.min q' u * tier_unit_amount tier)
        by (apply Z.mul_le_mono_nonneg_r; lia).
      destruct (Z.leb_spec (q - Z.min q u) 0) as [Hb|Hb],
               (Z.leb_spec (q' - Z.min q' u) 0) as [Hb'|Hb']; try lia.
      * pose proof (tiered_loop_grows rest u
                      (t' + Z.min q' u * tier_unit_amount tier + surcharge tier)
                      (q' - Z.min q' u) ltac:(lia) Hok Hs2 ltac:(lia)). lia.
      * apply (IH u); try assumption; lia.
    + subst rest. rewrite !Z.min_id, !Z.sub_diag. cbn.
      assert (q * tier_unit_amount tier <= q' * tier_unit_amount tier)
        by (apply Z.mul_le_mono_nonneg_r; lia).
      lia.
Qed.

(** X7. For validated tiers none of which carries a negative flat surcharge,
    the graduated price never decreases as the quantity grows. *)
Theorem tiered_price_is_monotone
        (price : PlanPrice) (ts : list PriceTier) (q q' : Z) :
  pricing_model price = tiered ->
  tiers price = Some ts ->
  validateTiers ts = inr tt ->
  Forall (fun tier => 0 <= surcharge tier) ts ->
  0 <= q <= q' ->
  calculatePrice price q <= calculatePrice price q'.
Proof.
  intros Hm Ht Hv Hs Hq. apply validateTiers_from_ok in Hv.
  unfold calculatePrice. rewrite Hm, Ht. cbn [PricingModel_eqb].
  apply (tiered_loop_monotone ts 0); try assumption; lia.
Qed.

Lemma tiered_price_is_monotone_witness :
  calculatePrice (tiered_price surcharged_tiers) 100
  <= calculatePrice (tiered_price surcharged_tiers) 101.
Proof.
  apply (tiered_price_is_monotone (tiered_price surcharged_tiers) surcharged_tiers).
  - reflexivity.
  - reflexivity.
  - reflexivity.
  - repeat constructor; cbn; lia.
  - lia.
Defined.

(** *** Price resolution *)

Lemma upper_ascii_idempotent (c : ascii) : upper_ascii (upper_ascii c) = upper_ascii c.
Proof.
  destruct c as [b0 b1 b2 b3 b4 b5 b6 b7].
  destruct b0, b1, b2, b3, b4, b5, b6, b7; vm_compute; reflexivity.
Qed.

Lemma toUpperCase_idempotent (s : string) : toUpperCase (toUpperCase s) = toUpperCase s.
Proof.
  induction s as [|c s IH]; cbn; [reflexivity|].
  rewrite upper_ascii_idempotent, IH. reflexivity.
Qed.

(** X8. [getPriceForCurrency] ignores the case of the requested currency, and
    returns a price of the plan whose stored currency is the upper-cased
    request - or nothing, exactly when the plan has no such price: it never
    substitutes another currency. *)
Theorem getPriceForCurrency_matches_upper_case (plan : Plan) (cur : string) :
  getPriceForCurrency plan (toUpperCase cur) = getPriceForCurrency plan cur
  /\ (forall price, getPriceForCurrency plan cur = Some price ->
                    In price (prices plan) /\ currency price = toUpperCase cur)
  /\ (getPriceForCurrency plan cur = None <->
      forall price, In price (prices plan) -> currency price <> toUpperCase cur).
Proof.
  unfold getPriceForCurrency. rewrite toUpperCase_idempotent.
  split; [reflexivity|]. split.
  - intros price H. apply find_some in H. destruct H as [Hin Heq].
    apply String.eqb_eq in Heq. auto.
  - split.
    + intros H price Hin Heq.
      pose proof (find_none _ _ H price Hin) as Hno. cbn in Hno.
      rewrite Heq, String.eqb_refl in Hno. discriminate.
    + intros H. destruct (find _ (prices plan)) as [price|] eqn:E; [|reflexivity].
      apply find_some in E. destruct E as [Hin Heq].
      apply String.eqb_eq in Heq. exfalso. exact (H price Hin Heq).
Qed.

(** *** What validation guarantees of the stored prices *)

Lemma validatePriceInput_well_formed (p : PriceInput) (id : string) :
  validatePriceInput p = inr tt ->
  price_well_formed (price_of_input id p)
  /\ toUpperCase (currency (price_of_input id p)) = currency (price_of_input id p).
Proof.
  intros Hp.
  unfold validatePriceInput in Hp.
  destruct (String.eqb (in_currency p) "" || _) eqn:Hcur; [discriminate|].
  apply orb_false_iff in Hcur. destruct Hcur as [_ Hsup].
  apply negb_false_iff in Hsup.
  destruct (Z.ltb_spec (in_unit_amount p) 0) as [|Hunit]; [discriminate|].
  split; [|cbn; apply toUpperCase_idempotent].
  unfold price_well_formed. cbn. repeat split; try assumption.
  destruct (in_pricing_model p) as [[]|]; try exact I;
    (destruct (in_tiers p) as [[|tier rest]|]; try discriminate;
     exists tier, rest; split; [reflexivity|exact Hp]).
Qed.

(** X9. Every price that [create] stores for an input accepted by
    [validatePlanInput] has a non-negative unit amount and a supported,
    upper-cased currency, and - when its model is tiered or volume - a
    non-empty tier list that passes [validateTiers]. *)
Theorem validated_prices_are_well_formed
        (input : CreatePlanInput) (p : PriceInput) (id : string) :
  validatePlanInput input = inr tt ->
  In p (cpi_prices input) ->
  price_well_formed (price_of_input id p)
  /\ toUpperCase (currency (price_of_input id p)) = currency (price_of_input id p).
Proof.
  intros Hv Hin. apply validatePriceInput_well_formed.
  exact (validatePrices_In _ (validatePlanInput_prices _ Hv) p Hin).
Qed.

Lemma validated_prices_are_well_formed_witness :
  price_well_formed two_band_price
  /\ toUpperCase (currency two_band_price) = currency two_band_price.
Proof.
  apply (validated_prices_are_well_formed two_band_input).
  - vm_compute. reflexivity.
  - left. reflexivity.
Defined.

End PricingPropertiesMore.

(* ------------------------------------------------------------------ *)
(** ** Properties of the date arithmetic *)

Module DateProperties.

Import JSDate.

Lemma MonthFromDayWithinYear_range (leap : bool) (d : Z) :
  0 <= MonthFromDayWithinYear leap d <= 11.
Proof.
  unfold MonthFromDayWithinYear.
  repeat match goal with
         | |- context [if ?c then _ else _] => destruct c; [lia|]
         end.
  lia.
Qed.

Lemma MonthFromTime_range (t : Z) : 0 <= MonthFromTime t <= 11.
Proof. apply MonthFromDayWithinYear_range. Qed.

(** The year found for a day is the year that day lies in. *)
Lemma YearFromDay_spec (d : Z) :
  DayFromYear (YearFromDay d) <= d < DayFromYear (YearFromDay d + 1).
Proof.
  unfold YearFromDay. cbv zeta.
  set (c := 1970 + 400 * d / 146097).
  assert (Hc : 146097 * (c - 1970) <= 400 * d < 146097 * (c - 1970) + 146097).
  { subst c. pose proof (Z.div_mod (400 * d) 146097 ltac:(lia)).
    pose proof (Z.mod_pos_bound (400 * d) 146097 ltac:(lia)). lia. }
  clearbody c.
  destruct (Z.ltb_spec d (DayFromYear c)) as [H1|H1];
    [|destruct (Z.leb_spec (DayFromYear (c + 1)) d) as [H2|H2]];
    unfold DayFromYear in *;
    Z.to_euclidean_division_equations; lia.
Qed.

(** Taking a date apart and putting it together again gives its day. *)
Lemma MakeDay_of_parts (t n : Z) :
  MakeDay (YearFromTime t) (MonthFromTime t) (DateFromTime t + n) = Day t + n.
Proof.
  unfold MakeDay. cbv zeta.
  pose proof (MonthFromTime_range t) as Hm.
  rewrite (Z.div_small (MonthFromTime t) 12) by lia.
  rewrite (Z.mod_small (MonthFromTime t) 12) by lia.
  rewrite Z.add_0_r. unfold DateFromTime, DayWithinYear. lia.
Qed.

Lemma MakeDate_of_parts (t n : Z) :
  MakeDate (Day t + n) (TimeWithinDay t) = t + n * msPerDay.
Proof.
  unfold MakeDate, Day, TimeWithinDay.
  pose proof (Z.div_mod t msPerDay ltac:(unfold msPerDay; lia)). lia.
Qed.

(** [d.setDate(d.getDate() + n)] moves the instant by [n] whole days. *)
Lemma setDate_adds_days (t n : Z) :
  setDate t (getDate t + n) = t + n * msPerDay.
Proof.
  unfold setDate, getDate, LocalTime, UTC, LocalTZA. cbv zeta.
  rewrite !Z.add_0_r, Z.sub_0_r.
  rewrite MakeDay_of_parts. apply MakeDate_of_parts.
Qed.

End DateProperties.

(* ------------------------------------------------------------------ *)
(** ** Further properties of the date arithmetic and of [calculatePeriodEnd] *)

Module DatePropertiesMore.

Import JSDate DateProperties PlanService SubscriptionService.

Lemma DaysInYear_cases (y : Z) : DaysInYear y = 365 \/ DaysInYear y = 366.
Proof.
  unfold DaysInYear.
  repeat match goal with
         | |- context [if ?c then _ else _] => destruct c
         end; auto.
Qed.

Lemma DayFromYear_next (y : Z) : DayFromYear (y + 1) = DayFromYear y + DaysInYear y.
Proof.
  unfold DayFromYear, DaysInYear.
  destruct (Z.eqb_spec (y mod 4) 0); cbn [negb];
    [destruct (Z.eqb_spec (y mod 100) 0); cbn [negb];
     [destruct (Z.eqb_spec (y mod 400) 0); cbn [negb]|]|];
    Z.to_euclidean_division_equations; lia.
Qed.

Lemma DayFromYear_later (y k : Z) :
  0 <= k -> DayFromYear y + 365 * k <= DayFromYear (y + k).
Proof.
  intros Hk. unfold DayFromYear. Z.to_euclidean_division_equations. lia.
Qed.

(** A day lies in one year only. *)
Lemma YearFromDay_unique (d y : Z) :
  DayFromYear y <= d < DayFromYear (y + 1) -> YearFromDay d = y.
Proof.
  intros Hy. pose proof (YearFromDay_spec d) as Hs.
  set (x := YearFromDay d) in *.
  destruct (Z.lt_trichotomy x y) as [Hlt|[Heq|Hgt]]; [|assumption|].
  - pose proof (DayFromYear_later (x + 1) (y - (x + 1)) ltac:(lia)) as H.
    replace (x + 1 + (y - (x + 1))) with y in H by lia. lia.
  - pose proof (DayFromYear_later (y + 1) (x - (y + 1)) ltac:(lia)) as H.
    replace (y + 1 + (x - (y + 1))) with x in H by lia. lia.
Qed.

Lemma DayWithinYear_range (t : Z) :
  0 <= DayWithinYear t < DaysInYear (YearFromTime t).
Proof.
  unfold DayWithinYear, YearFromTime.
  pose proof (YearFromDay_spec (Day t)) as Hs.
  rewrite DayFromYear_next in Hs. lia.
Qed.

Lemma leap_day_of_year (y : Z) :
  DaysInYear y = 365 + leap_day (InLeapYear y).
Proof.
  unfold InLeapYear. destruct (DaysInYear_cases y) as [-> | ->]; reflexivity.
Qed.

Lemma MonthStart_bounds (leap : bool) (m : Z) :
  0 <= m <= 11 ->
  61 * m - 4 <= 2 * MonthStart leap m <= 61 * m + 1
  /\ 0 <= MonthStart leap m.
Proof.
  intros Hm. unfold MonthStart, leap_day.
  repeat match goal with
         | |- context [if ?a <=? ?b then _ else _] => destruct (Z.leb_spec a b)
         | |- context [if ?a =? ?b then _ else _] => destruct (Z.eqb_spec a b)
         end; destruct leap; lia.
Qed.

(** The month found for a day of the year is the month that day lies in. *)
Lemma MonthFromDayWithinYear_of_date (leap : bool) (m dt : Z) :
  0 <= m <= 11 -> 1 <= dt <= 28 ->
  MonthFromDayWithinYear leap (MonthStart leap m + dt - 1) = m.
Proof.
  intros Hm Hdt. unfold MonthFromDayWithinYear, MonthStart, leap_day.
  destruct leap;
    repeat match goal with
           | |- context [if ?a <=? ?b then _ else _] => destruct (Z.leb_spec a b)
           | |- context [if ?a =? ?b then _ else _] => destruct (Z.eqb_spec a b)
           | |- context [if ?a <? ?b then _ else _] => destruct (Z.ltb_spec a b)
           end; lia.
Qed.

Lemma DateFromTime_range (t : Z) : 1 <= DateFromTime t <= 31.
Proof.
  unfold DateFromTime, MonthFromTime.
  pose proof (DayWithinYear_range t) as Hd.
  rewrite leap_day_of_year in Hd.
  set (leap := InLeapYear (YearFromTime t)) in *.
  set (d := DayWithinYear t) in *. clearbody d leap.
  unfold MonthFromDayWithinYear, MonthStart, leap_day in *.
  destruct leap;
    repeat match goal with
           | |- context [if ?a <? ?b then _ else _] => destruct (Z.ltb_spec a b)
           end; cbn; lia.
Qed.

Lemma Day_MakeDate (d time : Z) :
  0 <= time < msPerDay ->
  Day (MakeDate d time) = d /\ TimeWithinDay (MakeDate d time) = time.
Proof.
  intros Ht. unfold Day, TimeWithinDay, MakeDate, msPerDay in *.
  Z.to_euclidean_division_equations. lia.
Qed.

Lemma TimeWithinDay_range (t : Z) : 0 <= TimeWithinDay t < msPerDay.
Proof. unfold TimeWithinDay, msPerDay. apply Z.mod_pos_bound. lia. Qed.

(** The calendar fields of a date put together from a year, a month and a
    day of the month that every month has. *)
Lemma fields_of_MakeDay (y m dt time : Z) :
  0 <= m <= 11 -> 1 <= dt <= 28 -> 0 <= time < msPerDay ->
  let t := MakeDate (MakeDay y m dt) time in
  YearFromTime t = y /\ MonthFromTime t = m /\ DateFromTime t = dt
  /\ TimeWithinDay t = time.
Proof.
  intros Hm Hdt Htime t.
  destruct (Day_MakeDate (MakeDay y m dt) time Htime) as [Hday Hrest].
  fold t in Hday, Hrest.
  assert (Hmk : MakeDay y m dt = DayFromYear y + MonthStart (InLeapYear y) m + dt - 1).
  { unfold MakeDay. cbv zeta. rewrite Z.div_small, Z.mod_small by lia.
    rewrite Z.add_0_r. reflexivity. }
  pose proof (MonthStart_bounds (InLeapYear y) m Hm) as Hms.
  assert (Hyear : YearFromTime t = y).
  { unfold YearFromTime. rewrite Hday. apply YearFromDay_unique.
    rewrite DayFromYear_next, Hmk, leap_day_of_year.
    unfold leap_day. destruct (InLeapYear y); lia. }
  assert (Hdwy : DayWithinYear t = MonthStart (InLeapYear y) m + dt - 1).
  { unfold DayWithinYear. rewrite Hyear, Hday, Hmk. lia. }
  assert (Hmonth : MonthFromTime t = m).
  { unfold MonthFromTime. rewrite Hyear, Hdwy.
    apply MonthFromDayWithinYear_of_date; assumption. }
  repeat split; try assumption.
  unfold DateFromTime. rewrite Hmonth, Hyear, Hdwy. lia.
Qed.

(** *** [calculatePeriodEnd] *)




Lemma period_end_after_start
      (start : Z) (interval : BillingInterval) (count : Z) :
  1 <= count ->
  start < calculatePeriodEnd start interval count.
Proof.
  intros Hcount.
  destruct interval.
  - unfold calculatePeriodEnd. rewrite setDate_adds_days. unfold msPerDay. lia.
  - unfold calculatePeriodEnd. rewrite setDate_adds_days. unfold msPerDay. lia.
  - unfold calculatePeriodEnd, setMonth, getMonth, LocalTime, UTC, LocalTZA.
    cbv zeta. rewrite !Z.add_0_r, Z.sub_0_r.
    pose proof (MakeDay_of_parts start 0) as Hsame. rewrite !Z.add_0_r in Hsame.
    pose proof (MakeDate_of_parts start 0) as Hstart.
    rewrite Z.add_0_r, Z.mul_0_l, Z.add_0_r in Hstart.
    pose proof (MonthFromTime_range start) as Hm.
    set (y := YearFromTime start) in *. set (m := MonthFromTime start) in *.
    set (dt := DateFromTime start) in *.
    assert (Hlater : MakeDay y m dt < MakeDay y (m + count) dt).
    { unfold MakeDay. cbv zeta.
      rewrite (Z.div_small m 12), (Z.mod_small m 12) by lia. rewrite Z.add_0_r.
      pose proof (Z.div_mod (m + count) 12 ltac:(lia)) as Hdm.
      pose proof (Z.mod_pos_bound (m + count) 12 ltac:(lia)) as Hb.
      set (k := (m + count) / 12) in *. set (mn := (m + count) mod 12) in *.
      pose proof (MonthStart_bounds (InLeapYear y) m Hm) as H1.
      pose proof (MonthStart_bounds (InLeapYear (y + k)) mn ltac:(lia)) as H2.
      destruct (Z.eq_dec k 0) as [Hk|Hk].
      - rewrite Hk in *. rewrite Z.add_0_r in *. lia.
      - pose proof (DayFromYear_later y k ltac:(lia)). lia. }
    rewrite Hsame in Hlater. unfold MakeDate, msPerDay in *. lia.
  - unfold calculatePeriodEnd, setFullYear, getFullYear, LocalTime, UTC, LocalTZA.
    cbv zeta. rewrite !Z.add_0_r, Z.sub_0_r.
    pose proof (MakeDay_of_parts start 0) as Hsame. rewrite !Z.add_0_r in Hsame.
    pose proof (MakeDate_of_parts start 0) as Hstart.
    rewrite Z.add_0_r, Z.mul_0_l, Z.add_0_r in Hstart.
    pose proof (MonthFromTime_range start) as Hm.
    set (y := YearFromTime start) in *. set (m := MonthFromTime start) in *.
    set (dt := DateFromTime start) in *.
    assert (Hlater : MakeDay y m dt < MakeDay (y + count) m dt).
    { unfold MakeDay. cbv zeta.
      rewrite (Z.div_small m 12), (Z.mod_small m 12) by lia. rewrite !Z.add_0_r.
      pose proof (DayFromYear_later y count ltac:(lia)).
      assert (MonthStart (InLeapYear y) m <= MonthStart (InLeapYear (y + count)) m + 1).
      { unfold MonthStart, leap_day.
        repeat match goal with
               | |- context [if ?a <=? ?b then _ else _] => destruct (Z.leb_spec a b)
               | |- context [if ?a =? ?b then _ else _] => destruct (Z.eqb_spec a b)
               end; destruct (InLeapYear y), (InLeapYear (y + count)); lia. }
      lia. }
    rewrite Hsame in Hlater. unfold MakeDate, msPerDay in *. lia.
Qed.



End DatePropertiesMore.

(* ------------------------------------------------------------------ *)
(** ** Properties of the subscription lifecycle *)

Module LifecycleProperties.

Import PlanService SubscriptionService LifecycleNotions.

(** *** Helper lemmas: the store primitives *)

Lemma filter_nil_iff {A} (f : A -> bool) (l : list A) :
  filter f l = [] <-> forall x, In x l -> f x = false.
Proof.
  induction l as [|a l IH]; cbn.
  - split; [intros _ x []|reflexivity].
  - destruct (f a) eqn:E; split.
    + discriminate.
    + intros H. specialize (H a (or_introl eq_refl)). congruence.
    + intros H x [<-|Hin]; [assumption|]. apply IH; assumption.
    + intros H. apply IH. intros x Hin. apply H. right. assumption.
Qed.

Lemma filter_head_In {A} (f : A -> bool) (l : list A) (a : A) (rest : list A) :
  filter f l = a :: rest -> In a l /\ f a = true.
Proof.
  intros H. assert (Hin : In a (filter f l)) by (rewrite H; left; reflexivity).
  apply filter_In in Hin. exact Hin.
Qed.

Lemma set_subscriptions_same (s : Store) :
  set_subscriptions (subscriptions s) s = s.
Proof. destruct s. reflexivity. Qed.

Lemma update_nothing (cond : Subscription -> bool)
      (set : Subscription -> Subscription) (l : list Subscription) :
  filter cond l = [] -> map (fun r => if cond r then set r else r) l = l.
Proof.
  intros H. rewrite filter_nil_iff in H.
  induction l as [|a l IH]; cbn; [reflexivity|].
  rewrite (H a (or_introl eq_refl)). f_equal. apply IH.
  intros x Hin. apply H. right. assumption.
Qed.

Lemma formatSubscription_id (row : Subscription) : formatSubscription row = row.
Proof.
  destruct row. unfold formatSubscription. cbn. rewrite orb_false_r. reflexivity.
Qed.

(** [getById] does not write, and finds the first row of the scope with
    the id. *)
Lemma getById_cases (app sid : string) (mode : bool) (s : Store) :
  (filter (where_id sid app mode) (subscriptions s) = []
   /\ getById app sid mode s = (s, inl (NotFoundError "Subscription not found")))
  \/ (exists row rest,
         filter (where_id sid app mode) (subscriptions s) = row :: rest
         /\ getById app sid mode s = (s, inr row)).
Proof.
  unfold getById, bind, query.
  destruct (filter (where_id sid app mode) (subscriptions s)) as [|row rest] eqn:E.
  - left. split; reflexivity.
  - right. exists row, rest. split; [reflexivity|].
    unfold ret. rewrite formatSubscription_id. reflexivity.
Qed.

(** An [UPDATE ... WHERE id ... RETURNING *] followed by
    [formatSubscription(result.rows[0])], on a store where the addressed row
    exists. *)
Lemma update_returning_first (set : Subscription -> Subscription)
      (app sid : string) (mode : bool) (s : Store) (row : Subscription)
      (rest : list Subscription) :
  filter (where_id sid app mode) (subscriptions s) = row :: rest ->
  bind (db_update (where_id sid app mode) set) format_first s
  = (set_subscriptions
       (map (fun r => if where_id sid app mode r then set r else r)
            (subscriptions s)) s,
     inr (formatSubscription (set row))).
Proof.
  intros H. unfold bind, db_update. rewrite H. reflexivity.
Qed.

Lemma option_string_eqb_spec (o : option string) (x : string) :
  option_string_eqb o x = true <-> o = Some x.
Proof.
  destruct o as [y|]; cbn.
  - destruct (String.eqb_spec y x); split; congruence.
  - split; discriminate.
Qed.

(** The duplicate check of [create] does not write; it passes exactly when
    the external id is free in the scope. *)
Lemma check_external_id_free_cases (app : string) (mode : bool)
      (ext : option string) (s : Store) :
  (check_external_id_free app mode ext s = (s, inr tt)
   /\ forall e, ext = Some e -> e <> "" -> external_id_unused s app mode e None)
  \/ (exists message,
         check_external_id_free app mode ext s = (s, inl (ConflictError message))
         /\ ~ (forall e, ext = Some e -> e <> "" ->
                         external_id_unused s app mode e None)).
Proof.
  unfold check_external_id_free, external_id_unused.
  destruct ext as [e|]; [|left; split; [reflexivity|discriminate]].
  destruct (String.eqb_spec e "") as [->|Hne]; cbn [negb].
  - left. split; [reflexivity|]. intros e [= <-] H. contradiction.
  - unfold bind, query.
    destruct (filter (where_external_id e app mode) (subscriptions s))
      as [|row rest] eqn:E.
    + left. split; [reflexivity|]. intros e' [= <-] _ row Hin Hrow.
      rewrite filter_nil_iff in E. rewrite (E row Hin) in Hrow. discriminate.
    + right. eexists. split; [reflexivity|]. intros H.
      apply filter_head_In in E. destruct E as [Hin Hrow].
      specialize (H e eq_refl Hne row Hin Hrow). discriminate.
Qed.

(** The uniqueness check of [update], likewise. *)
Lemma check_external_id_unique_cases (app sid : string) (mode : bool)
      (ext current : option string) (s : Store) :
  (check_external_id_unique app sid mode ext current s = (s, inr tt)
   /\ forall e, ext = Some e -> e <> "" -> current <> Some e ->
                external_id_unused s app mode e (Some sid))
  \/ (exists message,
         check_external_id_unique app sid mode ext current s
         = (s, inl (ConflictError message))
         /\ ~ (forall e, ext = Some e -> e <> "" -> current <> Some e ->
                         external_id_unused s app mode e (Some sid))).
Proof.
  unfold check_external_id_unique, external_id_unused.
  destruct ext as [e|]; [|left; split; [reflexivity|discriminate]].
  destruct (String.eqb_spec e "") as [->|Hne]; cbn [negb andb].
  - left. split; [reflexivity|]. intros e [= <-] H. contradiction.
  - destruct (option_string_eqb current e) eqn:Hcur; cbn [negb].
    + left. split; [reflexivity|]. intros e' [= <-] _ H.
      apply option_string_eqb_spec in Hcur. contradiction.
    + assert (Hdiff : current <> Some e).
      { intros H. apply option_string_eqb_spec in H. congruence. }
      unfold bind, query.
      match goal with
      | |- context [filter ?f (subscriptions s)] =>
          destruct (filter f (subscriptions s)) as [|row rest] eqn:E
      end.
      * left. split; [reflexivity|]. intros e' [= <-] _ _ row Hin Hrow.
        rewrite filter_nil_iff in E. specialize (E row Hin). cbn beta in E.
        rewrite Hrow in E. cbn in E.
        destruct (String.eqb_spec (id row) sid); [congruence|discriminate].
      * right. eexists. split; [reflexivity|]. intros H.
        apply filter_head_In in E. destruct E as [Hin Hrow].
        apply andb_true_iff in Hrow. destruct Hrow as [Hrow Hid].
        specialize (H e eq_refl Hne Hdiff row Hin Hrow).
        injection H as Hsid. rewrite Hsid, String.eqb_refl in Hid. discriminate.
Qed.

(** The trial handling of [create] does not write; it fails exactly on an
    explicit [trial_end] that is not in the future. *)
Lemma trial_window_cases (now : Z) (te_in : option Z) (days : Z) (s : Store) :
  (exists w, trial_window now te_in days s = (s, inr w)
             /\ forall te, te_in = Some te -> now < te)
  \/ (exists message,
         trial_window now te_in days s = (s, inl (ValidationError message))
         /\ ~ (forall te, te_in = Some te -> now < te)).
Proof.
  unfold trial_window. destruct te_in as [te|].
  - destruct (Z.leb_spec te now) as [Hle|Hlt].
    + right. eexists. split; [reflexivity|]. intros Hall.
      specialize (Hall te eq_refl). lia.
    + left. eexists. split; [reflexivity|]. intros te' [= <-]. assumption.
  - left. destruct (0 <? days); eexists; (split; [reflexivity|discriminate]).
Qed.

Lemma SubscriptionStatus_eqb_spec (a b : SubscriptionStatus) :
  SubscriptionStatus_eqb a b = true <-> a = b.
Proof. destruct a, b; cbn; split; congruence. Qed.

Lemma SubscriptionStatus_eqb_false (a b : SubscriptionStatus) :
  SubscriptionStatus_eqb a b = false <-> a <> b.
Proof. destruct a, b; cbn; split; congruence. Qed.

Lemma PlanStatus_eqb_spec (a b : PlanStatus) :
  PlanStatus_eqb a b = true <-> a = b.
Proof. destruct a, b; cbn; split; congruence. Qed.

Lemma found_unique (s : Store) (app sid : string) (mode : bool)
      (a b : Subscription) :
  found s app sid mode a -> found s app sid mode b -> a = b.
Proof. unfold found. intros Ha Hb. congruence. Qed.

Local Tactic Notation "open_call" ident(result) ident(E) :=
  unfold outcome; cbn [run precondition];
  match goal with
  | |- (exists e, ?call = _ /\ _) \/ _ => remember call as result eqn:E
  end.

Local Ltac raised E :=
  rewrite E; left; eexists; split; [reflexivity|intros _; exact I].

Local Tactic Notation "lookup" hyp(E) constr(app) constr(sid) constr(mode)
      constr(s) ident(row) ident(rest) ident(Hf) ident(Hg) :=
  unfold bind at 1 in E;
  destruct (getById_cases app sid mode s) as [[_ Hg]|[row [rest [Hf Hg]]]];
  rewrite Hg in E; [raised E|].

Local Ltac written E Hf :=
  rewrite (update_returning_first _ _ _ _ _ _ _ Hf) in E; rewrite E; eauto.

Lemma cancel_outcome rt app sid mode at_period_end reason s :
  outcome rt (Cancel app sid mode at_period_end reason) s.
Proof.
  open_call result E. unfold cancel in E. lookup E app sid mode s row rest Hf Hg.
  destruct (SubscriptionStatus_eqb (status row) canceled) eqn:Hs; [raised E|].
  apply SubscriptionStatus_eqb_false in Hs.
  right. split; [exists row; split; assumption|].
  destruct (match at_period_end with Some b => b | None => true end);
    cbv iota in E; written E Hf.
Qed.

Lemma reactivate_outcome rt app sid mode s :
  outcome rt (Reactivate app sid mode) s.
Proof.
  open_call result E. unfold reactivate in E. lookup E app sid mode s row rest Hf Hg.
  destruct (SubscriptionStatus_eqb (status row) canceled) eqn:Hs; [raised E|].
  apply SubscriptionStatus_eqb_false in Hs.
  destruct (cancel_at_period_end row) eqn:Hp; cbn [negb] in E; [|raised E].
  right. split; [exists row; repeat split; assumption|].
  written E Hf.
Qed.

Lemma pause_outcome rt app sid mode resume_at s :
  outcome rt (Pause app sid mode resume_at) s.
Proof.
  open_call result E. unfold pause in E. lookup E app sid mode s row rest Hf Hg.
  destruct (SubscriptionStatus_eqb (status row) active) eqn:Hs; cbn [negb] in E;
    [|raised E].
  apply SubscriptionStatus_eqb_spec in Hs.
  destruct resume_at as [r|].
  - destruct (Z.leb_spec r (js_now rt)); [raised E|].
    right. split.
    + exists row. repeat split; try assumption. intros r' [= <-]. assumption.
    + written E Hf.
  - right. split.
    + exists row. repeat split; try assumption. discriminate.
    + written E Hf.
Qed.

Lemma resume_outcome rt app sid mode s :
  outcome rt (Resume app sid mode) s.
Proof.
  open_call result E. unfold resume in E. lookup E app sid mode s row rest Hf Hg.
  destruct (SubscriptionStatus_eqb (status row) paused) eqn:Hs; cbn [negb] in E;
    [|raised E].
  apply SubscriptionStatus_eqb_spec in Hs.
  assert (Hpre : exists sub, found s app sid mode sub /\ status sub = paused)
    by (exists row; split; assumption).
  destruct (items row) as [|item0 others].
  - rewrite E. left. eexists. split; [reflexivity|]. intros Hno. contradiction.
  - unfold bind at 1, lift in E.
    destruct (PlanService.getById (plans s) app (item_plan_id item0) mode true)
      as [e|plan].
    + rewrite E. left. eexists. split; [reflexivity|]. intros Hno. contradiction.
    + right. split; [assumption|]. written E Hf.
Qed.

Lemma PlanService_getById_error table app pid mode archived e :
  PlanService.getById table app pid mode archived = inl e -> caller_visible e.
Proof.
  unfold PlanService.getById. destruct (filter _ table); [|discriminate].
  intros [= <-]. exact I.
Qed.

Lemma CustomerService_getById_error table app cid mode deleted e :
  CustomerService.getById table app cid mode deleted = inl e -> caller_visible e.
Proof.
  unfold CustomerService.getById. destruct (filter _ table); [|discriminate].
  intros [= <-]. exact I.
Qed.

Lemma changePlan_outcome rt app sid mode newPlanId immediate s :
  outcome rt (ChangePlan app sid mode newPlanId immediate) s.
Proof.
  open_call result E. unfold changePlan in E. lookup E app sid mode s row rest Hf Hg.
  destruct (SubscriptionStatus_eqb (status row) active
            || SubscriptionStatus_eqb (status row) trialing) eqn:Hs;
    cbn [negb] in E; [|raised E].
  apply orb_true_iff in Hs. rewrite !SubscriptionStatus_eqb_spec in Hs.
  unfold bind at 1, lift in E.
  destruct (PlanService.getById (plans s) app newPlanId mode false)
    as [e|plan] eqn:Hp.
  - rewrite E. left. eexists. split; [reflexivity|]. intros _.
    eapply PlanService_getById_error. exact Hp.
  - destruct (PlanStatus_eqb (plan_status plan) plan_active) eqn:Ha;
      cbn [negb] in E; [|raised E].
    apply PlanStatus_eqb_spec in Ha.
    destruct (getPriceForCurrency plan (sub_currency row)) as [price|] eqn:Hpr;
      [|raised E].
    right. split.
    + exists row. repeat split; try assumption.
      exists plan. repeat split; try assumption. congruence.
    + written E Hf.
Qed.

Lemma update_outcome rt app sid mode input s :
  outcome rt (Update app sid mode input) s.
Proof.
  open_call result E. unfold update in E. lookup E app sid mode s row rest Hf Hg.
  destruct (SubscriptionStatus_eqb (status row) canceled) eqn:Hs; [raised E|].
  apply SubscriptionStatus_eqb_false in Hs.
  unfold bind at 1 in E.
  destruct (check_external_id_unique_cases app sid mode (usi_external_id input)
                                           (external_id row) s)
    as [[Hcheck Hfree]|[message [Hcheck Hno]]]; rewrite Hcheck in E; [|raised E].
  right. split.
  - exists row. repeat split; assumption.
  - written E Hf.
Qed.

Lemma create_outcome rt app mode input dc s :
  outcome rt (Create app mode input dc) s.
Proof.
  open_call result E. unfold create in E. unfold bind at 1, lift in E.
  destruct (CustomerService.getById (customers s) app (csi_customer_id input)
                                    mode false) as [e|customer] eqn:Hc.
  { rewrite E. left. eexists. split; [reflexivity|]. intros _.
    eapply CustomerService_getById_error. exact Hc. }
  unfold bind at 1 in E.
  destruct (PlanService.getById (plans s) app (csi_plan_id input) mode false)
    as [e|plan] eqn:Hp.
  { rewrite E. left. eexists. split; [reflexivity|]. intros _.
    eapply PlanService_getById_error. exact Hp. }
  destruct (PlanStatus_eqb (plan_status plan) plan_active) eqn:Ha;
    cbn [negb] in E; [|raised E].
  apply PlanStatus_eqb_spec in Ha.
  unfold bind at 1 in E.
  destruct (check_external_id_free_cases app mode (csi_external_id input) s)
    as [[Hcheck Hfree]|[message [Hcheck Hno]]]; rewrite Hcheck in E; [|raised E].
  destruct (getPriceForCurrency plan (requested_currency input dc))
    as [price|] eqn:Hpr; [|raised E].
  unfold bind at 1 in E.
  destruct (trial_window_cases (js_now rt) (csi_trial_end input)
              (match csi_trial_period_days input with
               | Some d => d
               | None => trial_period_days plan
               end) s)
    as [[[[[trialStart trialEnd] periodStart] status0] [Hw Hfuture]]
       |[message [Hw Hno]]]; rewrite Hw in E; [|raised E].
  right. split.
  - repeat split; try assumption.
    + exists customer. reflexivity.
    + exists plan. repeat split; try assumption. congruence.
  - unfold bind, db_insert, format_first, ret in E. rewrite E. eauto.
Qed.

Lemma run_outcome rt call s : outcome rt call s.
Proof.
  destruct call.
  - apply create_outcome.
  - apply update_outcome.
  - apply changePlan_outcome.
  - apply cancel_outcome.
  - apply reactivate_outcome.
  - apply pause_outcome.
  - apply resume_outcome.
Qed.

(** *** Helper lemmas: what an [UPDATE] leaves in the table *)

Lemma filter_updated (cond : Subscription -> bool)
      (set : Subscription -> Subscription) (l : list Subscription) :
  (forall r, cond (set r) = cond r) ->
  filter cond (map (fun r => if cond r then set r else r) l)
  = map set (filter cond l).
Proof.
  intros Hset. induction l as [|a l IH]; cbn; [reflexivity|].
  destruct (cond a) eqn:Ha.
  - rewrite Hset, Ha. cbn. f_equal. exact IH.
  - rewrite Ha. exact IH.
Qed.

Lemma updated_keeps_other_rows (sid app : string) (mode : bool)
      (set : Subscription -> Subscription) (s : Store) :
  other_rows_kept sid app mode s
    (set_subscriptions
       (map (fun r => if where_id sid app mode r then set r else r)
            (subscriptions s)) s).
Proof.
  unfold other_rows_kept. cbn. repeat split.
  - apply length_map.
  - intros n row Hn Hrow. rewrite nth_error_map, Hn. cbn. rewrite Hrow. reflexivity.
Qed.

Lemma found_after_update (sid app : string) (mode : bool)
      (set : Subscription -> Subscription) (s : Store)
      (row : Subscription) (rest : list Subscription) :
  (forall r, where_id sid app mode (set r) = where_id sid app mode r) ->
  filter (where_id sid app mode) (subscriptions s) = row :: rest ->
  found (set_subscriptions
           (map (fun r => if where_id sid app mode r then set r else r)
                (subscriptions s)) s) app sid mode (set row).
Proof.
  intros Hset Hf. unfold found.
  match goal with |- getById _ _ _ ?s1 = _ => set (s' := s1) end.
  destruct (getById_cases app sid mode s') as [[Hnil _]|[row' [rest' [Hf' Hg']]]].
  - subst s'. cbn in Hnil. rewrite filter_updated, Hf in Hnil by assumption.
    discriminate.
  - subst s'. cbn in Hf'. rewrite filter_updated, Hf in Hf' by assumption.
    injection Hf' as <- _. exact Hg'.
Qed.

Lemma found_filter (s : Store) (app sid : string) (mode : bool) (sub : Subscription) :
  found s app sid mode sub ->
  exists rest, filter (where_id sid app mode) (subscriptions s) = sub :: rest.
Proof.
  unfold found. intros H.
  destruct (getById_cases app sid mode s) as [[_ Hg]|[row [rest [Hf Hg]]]];
    rewrite Hg in H; [discriminate|].
  injection H as <-. eauto.
Qed.

(** *** Helper lemmas: the scheduler's statement *)

Lemma trial_ended_spec (sid : string) (now : Z) (row : Subscription) :
  trial_ended sid now row = true
  <-> id row = sid /\ status row = trialing
      /\ exists te, trial_end row = Some te /\ te <= now.
Proof.
  unfold trial_ended. rewrite !andb_true_iff, String.eqb_eq, SubscriptionStatus_eqb_spec.
  destruct (trial_end row) as [te|].
  - rewrite Z.leb_le. split.
    + intros [[? ?] ?]. eauto.
    + intros [? [? [te' [[= <-] ?]]]]. auto.
  - split.
    + intros [_ ?]. discriminate.
    + intros [_ [_ [te [? _]]]]. discriminate.
Qed.

(** On a store where no subscription with the id is [trialing], the
    statement selects nothing: the call returns [null] and the store is the
    one it was given. *)
Lemma activateTrialEnding_not_trialing (rt : Runtime) (sid : string) (s : Store) :
  (forall row, In row (subscriptions s) -> id row = sid -> status row <> trialing) ->
  activateTrialEnding rt sid s = (s, inr None).
Proof.
  intros Hnot.
  assert (Hnil : filter (trial_ended sid (sql_now rt)) (subscriptions s) = []).
  { apply filter_nil_iff. intros row Hin.
    destruct (trial_ended sid (sql_now rt) row) eqn:E; [|reflexivity].
    apply trial_ended_spec in E. destruct E as [Hid [Hst _]].
    exfalso. exact (Hnot row Hin Hid Hst). }
  unfold activateTrialEnding, db_update. rewrite Hnil. cbn [forallb map].
  rewrite update_nothing by assumption.
  rewrite set_subscriptions_same. reflexivity.
Qed.

Lemma activated_status (s : Store) (now : Z) (row row' : Subscription) :
  activated s now row = Some row' -> status row' = active /\ id row' = id row.
Proof.
  unfold activated. destruct (trial_end row); [|discriminate].
  destruct (items row) as [|item0 others]; [discriminate|].
  destruct (filter _ (plans s)); [discriminate|].
  intros [= <-]. split; reflexivity.
Qed.

Lemma unique_id (l : list Subscription) (a b : Subscription) :
  NoDup (map id l) -> In a l -> In b l -> id a = id b -> a = b.
Proof.
  induction l as [|x l IH]; cbn; intros Hnd Ha Hb Hid; [contradiction|].
  inversion Hnd as [|? ? Hnotin Hnd']; subst.
  destruct Ha as [->|Ha], Hb as [->|Hb]; [reflexivity| | |auto].
  - exfalso. apply Hnotin. rewrite Hid. apply in_map. assumption.
  - exfalso. apply Hnotin. rewrite <- Hid. apply in_map. assumption.
Qed.

(** *** Helper lemmas: pending cancellation *)

Lemma cancel_at_period_end_effect
      (rt : Runtime) (app sid : string) (mode : bool)
      (at_period_end : option bool) (reason : option CancellationReason)
      (s : Store) (sub : Subscription) :
  found s app sid mode sub ->
  status sub <> canceled ->
  at_period_end <> Some false ->
  exists s1 sub1,
    cancel rt app sid mode at_period_end reason s = (s1, inr sub1)
    /\ found s1 app sid mode sub1
    /\ other_rows_kept sid app mode s s1
    /\ cancel_at_period_end sub1 = true
    /\ cancel_at sub1 = Some (current_period_end sub)
    /\ cancellation_reason sub1 = Some (match reason with
                                        | Some r => r
                                        | None => customer_request
                                        end)
    /\ updated_at sub1 = sql_now rt
    /\ same_but_pending_cancellation sub1 sub.
Proof.
  intros Hfound Hs Hat. destruct (found_filter _ _ _ _ _ Hfound) as [rest Hf].
  unfold cancel. unfold bind at 1. rewrite Hfound.
  apply SubscriptionStatus_eqb_false in Hs. rewrite Hs.
  assert (Hend : match at_period_end with Some b => b | None => true end = true).
  { destruct at_period_end as [[|]|]; congruence. }
  rewrite Hend. cbv iota.
  match goal with |- context [db_update _ ?f] => set (upd := f) end.
  eexists. eexists. split.
  { unfold bind, db_update. rewrite Hf. cbn [map format_first]. unfold ret.
    rewrite formatSubscription_id. reflexivity. }
  split; [|split].
  - apply (found_after_update sid app mode upd s sub rest); [|assumption].
    intros r. reflexivity.
  - apply updated_keeps_other_rows.
  - cbn. unfold same_but_pending_cancellation. cbn. repeat split; reflexivity.
Qed.

Lemma reactivate_effect
      (rt : Runtime) (app sid : string) (mode : bool)
      (s : Store) (sub : Subscription) :
  found s app sid mode sub ->
  status sub <> canceled ->
  cancel_at_period_end sub = true ->
  exists s2 sub2,
    reactivate rt app sid mode s = (s2, inr sub2)
    /\ found s2 app sid mode sub2
    /\ other_rows_kept sid app mode s s2
    /\ cancel_at_period_end sub2 = false
    /\ cancel_at sub2 = None
    /\ cancellation_reason sub2 = None
    /\ updated_at sub2 = sql_now rt
    /\ same_but_pending_cancellation sub2 sub.
Proof.
  intros Hfound Hs Hpending. destruct (found_filter _ _ _ _ _ Hfound) as [rest Hf].
  unfold reactivate. unfold bind at 1. rewrite Hfound.
  apply SubscriptionStatus_eqb_false in Hs. rewrite Hs, Hpending. cbn [negb].
  match goal with |- context [db_update _ ?f] => set (upd := f) end.
  eexists. eexists. split.
  { unfold bind, db_update. rewrite Hf. cbn [map format_first]. unfold ret.
    rewrite formatSubscription_id. reflexivity. }
  split; [|split].
  - apply (found_after_update sid app mode upd s sub rest); [|assumption].
    intros r. reflexivity.
  - apply updated_keeps_other_rows.
  - cbn. unfold same_but_pending_cancellation. cbn. repeat split; reflexivity.
Qed.

(** *** Helper lemmas: computations that stay within a scope *)

Section Scope.

Variable app : string.
Variable mode : bool.

Lemma filter_through_scope (f : Subscription -> bool) (l : list Subscription) :
  (forall r, f r = true -> in_scope app mode r = true) ->
  filter f l = filter f (filter (in_scope app mode) l).
Proof.
  intros Hf. induction l as [|a l IH]; cbn; [reflexivity|].
  destruct (in_scope app mode a) eqn:Ha; cbn.
  - destruct (f a); [f_equal|]; exact IH.
  - destruct (f a) eqn:Hfa; [|exact IH].
    rewrite (Hf a Hfa) in Ha. discriminate.
Qed.

Lemma filter_same_view (f : Subscription -> bool) (s1 s2 : Store) :
  (forall r, f r = true -> in_scope app mode r = true) ->
  same_view app mode s1 s2 ->
  filter f (subscriptions s1) = filter f (subscriptions s2).
Proof.
  intros Hf [Hsubs _].
  rewrite (filter_through_scope f (subscriptions s1) Hf).
  rewrite (filter_through_scope f (subscriptions s2) Hf).
  rewrite Hsubs. reflexivity.
Qed.

Lemma where_id_in_scope (sid : string) (r : Subscription) :
  where_id sid app mode r = true -> in_scope app mode r = true.
Proof. unfold where_id. intros H. apply andb_true_iff in H. apply H. Qed.

Lemma where_external_id_in_scope (e : string) (r : Subscription) :
  where_external_id e app mode r = true -> in_scope app mode r = true.
Proof. unfold where_external_id. intros H. apply andb_true_iff in H. apply H. Qed.

Lemma outside_kept_refl (s : Store) : outside_kept app mode s s.
Proof. repeat split. Qed.

Lemma outside_kept_trans (s1 s2 s3 : Store) :
  outside_kept app mode s1 s2 -> outside_kept app mode s2 s3 ->
  outside_kept app mode s1 s3.
Proof.
  intros [H1 [H2 H3]] [H4 [H5 H6]]. repeat split; congruence.
Qed.

Lemma within_ret {A} (a : A) : within_scope app mode (ret a).
Proof.
  split; [intros s; apply outside_kept_refl|].
  intros s1 s2 Hv. split; [reflexivity|exact Hv].
Qed.

Lemma within_throw {A} (e : AppError) : within_scope app mode (@throw A e).
Proof.
  split; [intros s; apply outside_kept_refl|].
  intros s1 s2 Hv. split; [reflexivity|exact Hv].
Qed.

Lemma within_query {A} (q : Store -> A) :
  (forall s1 s2, same_view app mode s1 s2 -> q s1 = q s2) ->
  within_scope app mode (query q).
Proof.
  intros Hq. split; [intros s; apply outside_kept_refl|].
  intros s1 s2 Hv. split; [cbn; f_equal; auto|exact Hv].
Qed.

Lemma within_lift {A} (q : Store -> Result A) :
  (forall s1 s2, same_view app mode s1 s2 -> q s1 = q s2) ->
  within_scope app mode (lift q).
Proof.
  intros Hq. split; [intros s; apply outside_kept_refl|].
  intros s1 s2 Hv. split; [cbn; auto|exact Hv].
Qed.

Lemma within_bind {A B} (m : M A) (k : A -> M B) :
  within_scope app mode m ->
  (forall a, within_scope app mode (k a)) ->
  within_scope app mode (bind m k).
Proof.
  intros [Hm1 Hm2] Hk. split.
  - intros s. unfold bind. specialize (Hm1 s).
    destruct (m s) as [s' [e|a]]; cbn in *; [assumption|].
    eapply outside_kept_trans; [exact Hm1|]. apply Hk.
  - intros s1 s2 Hv. unfold bind. specialize (Hm2 s1 s2 Hv).
    destruct (m s1) as [s1' [e1|a1]], (m s2) as [s2' [e2|a2]];
      cbn in Hm2; destruct Hm2 as [Hr Hv']; try discriminate.
    + injection Hr as <-. cbn. split; [reflexivity|assumption].
    + injection Hr as <-. apply Hk. assumption.
Qed.

Lemma filter_map_commute {A} (f : A -> bool) (g : A -> A) (l : list A) :
  (forall a, f (g a) = f a) -> filter f (map g l) = map g (filter f l).
Proof.
  intros H. induction l as [|a l IH]; cbn; [reflexivity|].
  rewrite H. destruct (f a); cbn; [f_equal|]; exact IH.
Qed.

Lemma map_outside_id {A} (f : A -> bool) (g : A -> A) (l : list A) :
  (forall a, f a = true -> g a = a) -> map g (filter f l) = filter f l.
Proof.
  intros H. induction l as [|a l IH]; cbn; [reflexivity|].
  destruct (f a) eqn:E; cbn; [rewrite (H a E); f_equal|]; exact IH.
Qed.

(** An [UPDATE] whose [WHERE] clause carries the scope and whose [SET]
    clause leaves tenant and mode alone. *)
Lemma within_db_update (cond : Subscription -> bool)
      (set : Subscription -> Subscription) :
  (forall r, cond r = true -> in_scope app mode r = true) ->
  (forall r, application_id (set r) = application_id r
             /\ test_mode (set r) = test_mode r) ->
  within_scope app mode (db_update cond set).
Proof.
  intros Hcond Hset.
  set (g := fun r => if cond r then set r else r).
  assert (Hg : forall r, in_scope app mode (g r) = in_scope app mode r).
  { intros r. unfold g, in_scope. destruct (cond r); [|reflexivity].
    destruct (Hset r) as [-> ->]. reflexivity. }
  split.
  - intros s. unfold db_update, outside_kept. cbn. fold g. repeat split.
    unfold out_of_scope.
    rewrite (filter_map_commute (fun r => negb (in_scope app mode r)) g)
      by (intros a; rewrite Hg; reflexivity).
    apply map_outside_id. intros r Hr. unfold g.
    destruct (cond r) eqn:E; [|reflexivity].
    rewrite (Hcond r E) in Hr. discriminate.
  - intros s1 s2 Hv. unfold db_update. cbn. fold g. split.
    + rewrite (filter_same_view cond s1 s2 Hcond Hv). reflexivity.
    + destruct Hv as [Hsubs [Hp Hc]]. unfold same_view. cbn. repeat split;
        try assumption.
      rewrite !(filter_map_commute (in_scope app mode) g) by exact Hg.
      rewrite Hsubs. reflexivity.
Qed.

(** An [INSERT] of a row of the scope. *)
Lemma within_db_insert (row : Subscription) :
  in_scope app mode row = true -> within_scope app mode (db_insert row).
Proof.
  intros Hrow. split.
  - intros s. unfold db_insert, outside_kept, out_of_scope. cbn.
    rewrite filter_app. cbn. rewrite Hrow. cbn. rewrite app_nil_r.
    repeat split.
  - intros s1 s2 [Hsubs [Hp Hc]]. unfold db_insert, same_view. cbn.
    rewrite !filter_app. cbn. rewrite Hrow, Hsubs. repeat split; assumption.
Qed.

Lemma within_format_first (rows : list Subscription) :
  within_scope app mode (format_first rows).
Proof. destruct rows; [apply within_throw|apply within_ret]. Qed.

Lemma within_getById (sid : string) :
  within_scope app mode (getById app sid mode).
Proof.
  unfold getById. apply within_bind.
  - apply within_query. intros s1 s2 Hv.
    apply filter_same_view; [apply where_id_in_scope|assumption].
  - intros [|row rest]; [apply within_throw|apply within_ret].
Qed.

Lemma within_getByExternalId (e : string) :
  within_scope app mode (getByExternalId app e mode).
Proof.
  unfold getByExternalId. apply within_bind.
  - apply within_query. intros s1 s2 Hv.
    apply filter_same_view; [apply where_external_id_in_scope|assumption].
  - intros [|row rest]; [apply within_throw|apply within_ret].
Qed.

Lemma within_getCustomerSubscriptions (cid : string)
      (st : option SubscriptionStatus) :
  within_scope app mode (getCustomerSubscriptions app cid mode st).
Proof.
  unfold getCustomerSubscriptions. apply within_bind.
  - apply within_query. intros s1 s2 Hv. f_equal.
    apply filter_same_view; [|assumption].
    intros r Hr. unfold in_scope.
    repeat (apply andb_true_iff in Hr; destruct Hr as [Hr ?]).
    apply andb_true_iff. split; assumption.
  - intros rows. apply within_ret.
Qed.

Lemma within_check_external_id_free (ext : option string) :
  within_scope app mode (check_external_id_free app mode ext).
Proof.
  unfold check_external_id_free. destruct ext as [e|]; [|apply within_ret].
  destruct (negb (String.eqb e "")); [|apply within_ret].
  apply within_bind.
  - apply within_query. intros s1 s2 Hv.
    apply filter_same_view; [apply where_external_id_in_scope|assumption].
  - intros [|row rest]; [apply within_ret|apply within_throw].
Qed.

Lemma within_check_external_id_unique (sid : string) (ext current : option string) :
  within_scope app mode (check_external_id_unique app sid mode ext current).
Proof.
  unfold check_external_id_unique. destruct ext as [e|]; [|apply within_ret].
  destruct (_ && _); [|apply within_ret].
  apply within_bind.
  - apply within_query. intros s1 s2 Hv.
    apply filter_same_view; [|assumption].
    intros r Hr. apply andb_true_iff in Hr. destruct Hr as [Hr _].
    eapply where_external_id_in_scope. exact Hr.
  - intros [|row rest]; [apply within_ret|apply within_throw].
Qed.

Lemma within_trial_window (now : Z) (te : option Z) (days : Z) :
  within_scope app mode (trial_window now te days).
Proof.
  unfold trial_window. destruct te as [te|].
  - destruct (te <=? now); [apply within_throw|apply within_ret].
  - destruct (0 <? days); apply within_ret.
Qed.

Lemma within_plan_lookup (pid : string) (archived : bool) :
  within_scope app mode
    (lift (fun s => PlanService.getById (plans s) app pid mode archived)).
Proof.
  apply within_lift. intros s1 s2 [_ [Hp _]]. rewrite Hp. reflexivity.
Qed.

Lemma within_customer_lookup (cid : string) :
  within_scope app mode
    (lift (fun s => CustomerService.getById (customers s) app cid mode false)).
Proof.
  apply within_lift. intros s1 s2 [_ [_ Hc]]. rewrite Hc. reflexivity.
Qed.

Local Ltac written_in_scope sid :=
  apply within_bind;
  [apply within_db_update;
   [apply (where_id_in_scope sid)|intros r; split; reflexivity]
  |intros rows; apply within_format_first].

Lemma within_update rt sid input :
  within_scope app mode (update rt app sid mode input).
Proof.
  unfold update. apply within_bind; [apply within_getById|intros existing].
  destruct (SubscriptionStatus_eqb (status existing) canceled);
    [apply within_throw|].
  apply within_bind; [apply within_check_external_id_unique|intros _].
  written_in_scope sid.
Qed.

Lemma within_changePlan rt sid newPlanId immediate :
  within_scope app mode (changePlan rt app sid mode newPlanId immediate).
Proof.
  unfold changePlan. apply within_bind; [apply within_getById|intros existing].
  destruct (negb _); [apply within_throw|].
  apply within_bind; [apply within_plan_lookup|intros newPlan].
  destruct (negb _); [apply within_throw|].
  destruct (getPriceForCurrency newPlan (sub_currency existing));
    [|apply within_throw].
  written_in_scope sid.
Qed.

Lemma within_cancel rt sid at_period_end reason :
  within_scope app mode (cancel rt app sid mode at_period_end reason).
Proof.
  unfold cancel. apply within_bind; [apply within_getById|intros existing].
  destruct (SubscriptionStatus_eqb (status existing) canceled);
    [apply within_throw|].
  destruct (match at_period_end with Some b => b | None => true end);
    written_in_scope sid.
Qed.

Lemma within_reactivate rt sid :
  within_scope app mode (reactivate rt app sid mode).
Proof.
  unfold reactivate. apply within_bind; [apply within_getById|intros existing].
  destruct (SubscriptionStatus_eqb (status existing) canceled);
    [apply within_throw|].
  destruct (negb _); [apply within_throw|].
  written_in_scope sid.
Qed.

Lemma within_pause rt sid resume_at :
  within_scope app mode (pause rt app sid mode resume_at).
Proof.
  unfold pause. apply within_bind; [apply within_getById|intros existing].
  destruct (negb _); [apply within_throw|].
  destruct (match resume_at with Some r => r <=? js_now rt | None => false end);
    [apply within_throw|].
  written_in_scope sid.
Qed.

Lemma within_resume rt sid :
  within_scope app mode (resume rt app sid mode).
Proof.
  unfold resume. apply within_bind; [apply within_getById|intros existing].
  destruct (negb _); [apply within_throw|].
  destruct (items existing) as [|item0 others]; [apply within_throw|].
  apply within_bind; [apply within_plan_lookup|intros plan].
  written_in_scope sid.
Qed.

Lemma within_create rt input dc :
  within_scope app mode (create rt app mode input dc).
Proof.
  unfold create. apply within_bind; [apply within_customer_lookup|intros _].
  apply within_bind; [apply within_plan_lookup|intros plan].
  destruct (negb _); [apply within_throw|].
  apply within_bind; [apply within_check_external_id_free|intros _].
  destruct (getPriceForCurrency plan (requested_currency input dc));
    [|apply within_throw].
  apply within_bind; [apply within_trial_window|].
  intros [[[trialStart trialEnd] periodStart] status0].
  apply within_bind; [|intros rows; apply within_format_first].
  apply within_db_insert. unfold in_scope. cbn.
  rewrite String.eqb_refl, Bool.eqb_reflx. reflexivity.
Qed.

End Scope.

Lemma within_run (rt : Runtime) (call : LifecycleCall) :
  within_scope (call_application call) (call_mode call) (run rt call).
Proof.
  destruct call; cbn [call_application call_mode run].
  - apply within_create.
  - apply within_update.
  - apply within_changePlan.
  - apply within_cancel.
  - apply within_reactivate.
  - apply within_pause.
  - apply within_resume.
Qed.

(** *** Helper lemmas: the scheduler's statement and the tenant of a row *)

Lemma trial_ended_rescope (tenant : string -> string * bool) (sid : string)
      (now : Z) (r : Subscription) :
  trial_ended sid now (rescope tenant r) = trial_ended sid now r.
Proof. reflexivity. Qed.

Lemma activated_rescope (tenant : string -> string * bool) (s : Store)
      (now : Z) (r : Subscription) :
  activated (rescope_store tenant s) now (rescope tenant r)
  = option_map (rescope tenant) (activated s now r).
Proof.
  unfold activated. cbn.
  destruct (trial_end r); [|reflexivity].
  destruct (items r) as [|item0 others]; [reflexivity|].
  destruct (filter _ (plans s)); reflexivity.
Qed.

Lemma forallb_map {A B} (p : B -> bool) (g : A -> B) (l : list A) :
  forallb p (map g l) = forallb (fun a => p (g a)) l.
Proof. induction l as [|a l IH]; cbn; [reflexivity|rewrite IH; reflexivity]. Qed.

Lemma forallb_ext_all {A} (p q : A -> bool) (l : list A) :
  (forall a, p a = q a) -> forallb p l = forallb q l.
Proof.
  intros H. induction l as [|a l IH]; cbn; [reflexivity|].
  rewrite H, IH. reflexivity.
Qed.

(** [activateTrialEnding] commutes with any reassignment of subscriptions
    to tenants and modes. *)
Lemma activateTrialEnding_rescope (tenant : string -> string * bool)
      (rt : Runtime) (sid : string) (s : Store) :
  activateTrialEnding rt sid (rescope_store tenant s)
  = (rescope_store tenant (fst (activateTrialEnding rt sid s)),
     rescope_result tenant (snd (activateTrialEnding rt sid s))).
Proof.
  unfold activateTrialEnding, db_update.
  cbn [rescope_store subscriptions set_subscriptions].
  fold (rescope_store tenant s).
  rewrite (filter_map_commute (trial_ended sid (sql_now rt)) (rescope tenant))
    by (intros a; apply trial_ended_rescope).
  rewrite forallb_map.
  rewrite (forallb_ext_all _
             (fun row => match activated s (sql_now rt) row with
                         | Some _ => true
                         | None => false
                         end))
    by (intros a; rewrite activated_rescope;
        destruct (activated s (sql_now rt) a); reflexivity).
  destruct (forallb _ (filter (trial_ended sid (sql_now rt)) (subscriptions s)));
    [|reflexivity].
  assert (Hset : forall r,
    match activated (rescope_store tenant s) (sql_now rt) (rescope tenant r) with
    | Some row' => row'
    | None => rescope tenant r
    end
    = rescope tenant match activated s (sql_now rt) r with
                     | Some row' => row'
                     | None => r
                     end).
  { intros r. rewrite activated_rescope.
    destruct (activated s (sql_now rt) r); reflexivity. }
  rewrite !map_map.
  assert (Hrows :
    map (fun x => if trial_ended sid (sql_now rt) (rescope tenant x)
                  then match activated (rescope_store tenant s) (sql_now rt)
                                       (rescope tenant x) with
                       | Some row' => row'
                       | None => rescope tenant x
                       end
                  else rescope tenant x) (subscriptions s)
    = map (rescope tenant)
          (map (fun r => if trial_ended sid (sql_now rt) r
                         then match activated s (sql_now rt) r with
                              | Some row' => row'
                              | None => r
                              end
                         else r) (subscriptions s))).
  { rewrite map_map. apply map_ext. intros r. rewrite trial_ended_rescope, Hset.
    destruct (trial_ended sid (sql_now rt) r); reflexivity. }
  rewrite Hrows.
  destruct (filter (trial_ended sid (sql_now rt)) (subscriptions s))
    as [|row0 rest]; cbn [map fst snd rescope_result].
  - destruct s. reflexivity.
  - rewrite Hset, !formatSubscription_id. destruct s. reflexivity.
Qed.

(** *** Helper lemmas: paging *)

Lemma In_insert_desc (row x : Subscription) (l : list Subscription) :
  In x (insert_desc row l) -> x = row \/ In x l.
Proof.
  induction l as [|a l IH]; cbn.
  - intros [<-|[]]. left. reflexivity.
  - destruct (created_at a <? created_at row); cbn.
    + intros [<-|H]; [left; reflexivity|right; exact H].
    + intros [<-|H]; [right; left; reflexivity|].
      destruct (IH H) as [->|Hin]; [left; reflexivity|right; right; exact Hin].
Qed.

Lemma In_order_by (x : Subscription) (l : list Subscription) :
  In x (order_by_created_at_desc l) -> In x l.
Proof.
  unfold order_by_created_at_desc. induction l as [|a l IH]; cbn; [trivial|].
  intros H. destruct (In_insert_desc _ _ _ H) as [->|Hin]; [left|right]; auto.
Qed.

Lemma In_firstn {A} (n : nat) (x : A) (l : list A) : In x (firstn n l) -> In x l.
Proof.
  revert l. induction n as [|n IH]; intros [|a l]; cbn; try contradiction.
  intros [<-|H]; [left; reflexivity|right; auto].
Qed.

(** [list] does not write, and every row of its page is a row of the
    store within the caller's scope. *)
Lemma listSubscriptions_page (params : ListSubscriptionsParams) (s : Store) :
  exists page,
    listSubscriptions params s = (s, inr page)
    /\ forall row, In row (data page) ->
                   In row (subscriptions s)
                   /\ in_scope (lsp_application_id params) (lsp_test_mode params) row
                      = true.
Proof.
  unfold listSubscriptions, bind, query, ret. eexists. split; [reflexivity|].
  cbn [data]. intros row Hin. apply in_map_iff in Hin.
  destruct Hin as [r [Hr Hin]]. rewrite formatSubscription_id in Hr. subst r.
  apply In_firstn, In_firstn, In_order_by, filter_In in Hin.
  destruct Hin as [Hin Hcond]. split; [assumption|].
  unfold list_condition in Hcond.
  do 4 (apply andb_true_iff in Hcond; destruct Hcond as [Hcond _]).
  assumption.
Qed.

(** *** The claims *)





(** C2. A subscription created without a trial at 2024-01-31T00:00:00Z on
    a monthly plan is claimed to get the period end 2024-02-29T00:00:00Z.
    [calculatePeriodEnd] adds the month with [setMonth], which carries the
    day 31 over the end of February: the stored period ends on
    2024-03-02T00:00:00Z. The status [active] and the period start are as
    claimed. The scheduler's statement, which adds the same interval in SQL,
    does stop at the last day of February. *)
Theorem month_end_runs_over_into_march :
  create (runtime_at jan31) "app_1" false plain_input None empty_store
  = (one_subscription, inr a_subscription)
  /\ status a_subscription = active
  /\ current_period_start a_subscription = jan31
  /\ current_period_end a_subscription = mar02
  /\ calculatePeriodEnd jan31 month 1 = mar02
  /\ mar02 <> feb29
  /\ Pg.add_billing_interval jan31 month 1 = feb29.
Proof.
  repeat split; try (vm_compute; reflexivity).
  vm_compute. discriminate.
Qed.

(** C7, as stated, fails: cancelling at period end also rewrites
    [updated_at], so the three cancellation fields are not all that
    changes. *)
Lemma cancel_at_period_end_touches_updated_at :
  found one_subscription "app_1" "sub_1" false a_subscription
  /\ exists s1 sub1,
      cancel (runtime_at feb29) "app_1" "sub_1" false (Some true) None
             one_subscription = (s1, inr sub1)
      /\ updated_at sub1 <> updated_at a_subscription.
Proof.
  split; [vm_compute; reflexivity|].
  eexists. eexists. split; [vm_compute; reflexivity|].
  vm_compute. discriminate.
Qed.

(** C7, amended. Cancel with [at_period_end] true (or left to its default)
    on a subscription that is not canceled leaves the status as it was and
    sets [cancel_at_period_end = true], [cancel_at = current_period_end]
    and [cancellation_reason]; a subsequent Reactivate sets
    [cancel_at_period_end = false], [cancel_at = null] and
    [cancellation_reason = null]. Either call also stamps [updated_at]; every
    other field of the subscription, and every row the call does not
    address, is unchanged. *)
Theorem cancel_at_period_end_then_reactivate
        (rt1 rt2 : Runtime) (app sid : string) (mode : bool)
        (at_period_end : option bool) (reason : option CancellationReason)
        (s : Store) (sub : Subscription) :
  found s app sid mode sub ->
  status sub <> canceled ->
  at_period_end <> Some false ->
  exists s1 sub1 s2 sub2,
    cancel rt1 app sid mode at_period_end reason s = (s1, inr sub1)
    /\ found s1 app sid mode sub1
    /\ other_rows_kept sid app mode s s1
    /\ status sub1 = status sub
    /\ cancel_at_period_end sub1 = true
    /\ cancel_at sub1 = Some (current_period_end sub)
    /\ cancellation_reason sub1 = Some (match reason with
                                        | Some r => r
                                        | None => customer_request
                                        end)
    /\ updated_at sub1 = sql_now rt1
    /\ same_but_pending_cancellation sub1 sub
    /\ reactivate rt2 app sid mode s1 = (s2, inr sub2)
    /\ found s2 app sid mode sub2
    /\ other_rows_kept sid app mode s1 s2
    /\ status sub2 = status sub1
    /\ cancel_at_period_end sub2 = false
    /\ cancel_at sub2 = None
    /\ cancellation_reason sub2 = None
    /\ updated_at sub2 = sql_now rt2
    /\ same_but_pending_cancellation sub2 sub1.
Proof.
  intros Hfound Hs Hat.
  destruct (cancel_at_period_end_effect rt1 app sid mode at_period_end reason
                                        s sub Hfound Hs Hat)
    as [s1 [sub1 [Hc [Hf1 [Hk1 [Hp1 [Hat1 [Hr1 [Hu1 Hsame1]]]]]]]]].
  assert (Hst1 : status sub1 = status sub) by apply Hsame1.
  assert (Hs1 : status sub1 <> canceled) by congruence.
  destruct (reactivate_effect rt2 app sid mode s1 sub1 Hf1 Hs1 Hp1)
    as [s2 [sub2 [Hre [Hf2 [Hk2 [Hp2 [Hat2 [Hr2 [Hu2 Hsame2]]]]]]]]].
  assert (Hst2 : status sub2 = status sub1) by apply Hsame2.
  exists s1, sub1, s2, sub2. repeat split; try assumption; try apply Hk1;
    try apply Hk2; try apply Hsame1; try apply Hsame2.
Qed.

Lemma cancel_at_period_end_then_reactivate_witness :
  exists s1 sub1 s2 sub2,
    cancel (runtime_at feb29) "app_1" "sub_1" false (Some true) (Some fraud)
           one_subscription = (s1, inr sub1)
    /\ found s1 "app_1" "sub_1" false sub1
    /\ other_rows_kept "sub_1" "app_1" false one_subscription s1
    /\ status sub1 = status a_subscription
    /\ cancel_at_period_end sub1 = true
    /\ cancel_at sub1 = Some (current_period_end a_subscription)
    /\ cancellation_reason sub1 = Some fraud
    /\ updated_at sub1 = sql_now (runtime_at feb29)
    /\ same_but_pending_cancellation sub1 a_subscription
    /\ reactivate (runtime_at mar02) "app_1" "sub_1" false s1 = (s2, inr sub2)
    /\ found s2 "app_1" "sub_1" false sub2
    /\ other_rows_kept "sub_1" "app_1" false s1 s2
    /\ status sub2 = status sub1
    /\ cancel_at_period_end sub2 = false
    /\ cancel_at sub2 = None
    /\ cancellation_reason sub2 = None
    /\ updated_at sub2 = sql_now (runtime_at mar02)
    /\ same_but_pending_cancellation sub2 sub1.
Proof.
  apply (cancel_at_period_end_then_reactivate
           (runtime_at feb29) (runtime_at mar02) "app_1" "sub_1" false
           (Some true) (Some fraud) one_subscription a_subscription).
  - vm_compute. reflexivity.
  - discriminate.
  - discriminate.
Defined.

(** C8. Trial-expiry activation is idempotent: once a call of
    [activateTrialEnding] has moved the subscription to [active], a further
    call - at any later or earlier clock reading - raises no error, returns
    the no-op result [null] and leaves the store exactly as it is. Ids are
    unique in the table (they are its primary key). *)
Theorem activateTrialEnding_idempotent
        (rt1 rt2 : Runtime) (sid : string) (s s1 : Store) (sub : Subscription) :
  NoDup (map id (subscriptions s)) ->
  activateTrialEnding rt1 sid s = (s1, inr (Some sub)) ->
  status sub = active
  /\ activateTrialEnding rt2 sid s1 = (s1, inr None).
Proof.
  intros Hnd H. unfold activateTrialEnding in H.
  destruct (forallb _ (filter (trial_ended sid (sql_now rt1)) (subscriptions s)))
    eqn:Hall; [|discriminate].
  rewrite forallb_forall in Hall.
  unfold db_update in H.
  destruct (filter (trial_ended sid (sql_now rt1)) (subscriptions s))
    as [|row0 rest] eqn:Hf; [discriminate|].
  cbn [map] in H. injection H as <- <-.
  destruct (filter_head_In _ _ _ _ Hf) as [Hin0 Hrow0].
  assert (Hset : forall r, In r (subscriptions s) ->
                           trial_ended sid (sql_now rt1) r = true ->
                           exists r', activated s (sql_now rt1) r = Some r').
  { intros r Hin Hr. specialize (Hall r).
    destruct (activated s (sql_now rt1) r) as [r'|]; [eauto|].
    assert (Hsel : In r (row0 :: rest)) by (rewrite <- Hf; apply filter_In; auto).
    specialize (Hall Hsel). discriminate. }
  split.
  - rewrite formatSubscription_id.
    destruct (Hset row0 Hin0 Hrow0) as [r' Hr']. rewrite Hr'.
    apply (activated_status _ _ _ _ Hr').
  - apply activateTrialEnding_not_trialing. cbn [subscriptions set_subscriptions].
    intros r1 Hin1 Hid1. apply in_map_iff in Hin1.
    destruct Hin1 as [r [Hr1 Hin]].
    destruct (trial_ended sid (sql_now rt1) r) eqn:Hr.
    + destruct (Hset r Hin Hr) as [r' Hr']. rewrite Hr' in Hr1. subst r1.
      destruct (activated_status _ _ _ _ Hr') as [Hact _]. rewrite Hact. discriminate.
    + subst r1. pose proof Hrow0 as Hsel0.
      apply trial_ended_spec in Hsel0. destruct Hsel0 as [Hid0 _].
      assert (r = row0) by (apply (unique_id (subscriptions s)); congruence).
      subst r. congruence.
Qed.

Lemma activateTrialEnding_idempotent_witness :
  status activated_subscription = active
  /\ activateTrialEnding (runtime_at (mar02 + 1)) "sub_1" activated_store
     = (activated_store, inr None).
Proof.
  apply (activateTrialEnding_idempotent
           (runtime_at mar02) (runtime_at (mar02 + 1)) "sub_1" trialing_store).
  - cbn. repeat constructor. intros [].
  - vm_compute. reflexivity.
Defined.



End LifecycleProperties.

(* ------------------------------------------------------------------ *)
(** ** Properties of the operations on plans *)

Module PlanProperties.

Import PlanService SubscriptionService PlanStore PlanNotions.
Import PricingNotions PricingNotionsMore.

(** *** Helper lemmas *)

Lemma formatPlan_id (row : Plan) : formatPlan row = row.
Proof.
  destruct row. unfold formatPlan. cbn.
  destruct (Z.eqb_spec trial_period_days0 0) as [->|]; reflexivity.
Qed.

Lemma PlanStatus_eqb_true (a b : PlanStatus) :
  PlanStatus_eqb a b = true -> a = b.
Proof. destruct a, b; cbn; congruence. Qed.

Lemma set_plans_same (s : Store) : set_plans (plans s) s = s.
Proof. destruct s. reflexivity. Qed.

Lemma plan_matches_all (app pid : string) (mode : bool) (row : Plan) :
  plan_matches app pid mode true row = where_plan_id pid app mode row.
Proof.
  unfold plan_matches, where_plan_id, plan_scope. cbn [orb].
  rewrite andb_true_r, andb_assoc. reflexivity.
Qed.

Lemma filter_nil {A} (f : A -> bool) (l : list A) :
  filter f l = [] <-> forall x, In x l -> f x = false.
Proof. apply LifecycleProperties.filter_nil_iff. Qed.

Lemma plans_update_nothing (cond : Plan -> bool) (set : Plan -> Plan) (l : list Plan) :
  filter cond l = [] -> map (fun r => if cond r then set r else r) l = l.
Proof.
  intros H. rewrite filter_nil in H.
  induction l as [|a l IH]; cbn; [reflexivity|].
  rewrite (H a (or_introl eq_refl)). f_equal. apply IH.
  intros x Hin. apply H. right. assumption.
Qed.

(** [getById] with archived plans included does not write and finds the
    first plan of the scope with the id. *)
Lemma getById_all_cases (app pid : string) (mode : bool) (s : Store) :
  (filter (where_plan_id pid app mode) (plans s) = []
   /\ getById app pid mode true s = (s, inl (NotFoundError "Plan not found")))
  \/ (exists row rest,
         filter (where_plan_id pid app mode) (plans s) = row :: rest
         /\ getById app pid mode true s = (s, inr row)).
Proof.
  unfold getById, bind, lift, PlanService.getById.
  rewrite (filter_ext _ _ (plan_matches_all app pid mode)).
  destruct (filter (where_plan_id pid app mode) (plans s)) as [|row rest].
  - left. split; reflexivity.
  - right. exists row, rest. split; [reflexivity|].
    unfold ret. rewrite formatPlan_id. reflexivity.
Qed.

Lemma validatePriceInput_error (p : PriceInput) (e : AppError) :
  validatePriceInput p = inl e -> exists message, e = ValidationError message.
Proof.
  unfold validatePriceInput. intros H.
  repeat match type of H with
         | (if ?c then _ else _) = _ => destruct c; [injection H as <-; eauto|]
         end.
  destruct (in_pricing_model p) as [[]|]; try discriminate;
    (destruct (in_tiers p) as [[|t ts]|];
     [injection H as <-; eauto
     |eapply PricingPropertiesMore.validateTiers_from_error; exact H
     |injection H as <-; eauto]).
Qed.

Lemma validatePlanInput_error (input : CreatePlanInput) (e : AppError) :
  validatePlanInput input = inl e -> exists message, e = ValidationError message.
Proof.
  unfold validatePlanInput. intros H.
  repeat match type of H with
         | (if ?c then _ else _) = _ => destruct c; [injection H as <-; eauto|]
         end.
  destruct (validatePrices (cpi_prices input)) as [e'|[]] eqn:Ep.
  - injection H as <-. clear - Ep.
    induction (cpi_prices input) as [|p0 rest IH]; [discriminate|].
    cbn in Ep. destruct (validatePriceInput p0) as [e0|[]] eqn:E0; [|auto].
    injection Ep as <-. eapply validatePriceInput_error. exact E0.
  - destruct (match cpi_trial_period_days input with
              | Some d => d <? 0 | None => false end);
      [injection H as <-; eauto|discriminate].
Qed.

Lemma validatePlanInput_facts (input : CreatePlanInput) :
  validatePlanInput input = inr tt ->
  trim (cpi_name input) <> ""
  /\ (forall c, cpi_billing_interval_count input = Some c -> 1 <= c)
  /\ cpi_prices input <> []
  /\ (forall d, cpi_trial_period_days input = Some d -> 0 <= d).
Proof.
  unfold validatePlanInput. intros H.
  destruct (String.eqb (cpi_name input) "" || _) eqn:Hname; [discriminate|].
  apply orb_false_iff in Hname. destruct Hname as [_ Hname].
  destruct (cpi_billing_interval_count input) as [c|] eqn:Hc.
  - destruct (Z.ltb_spec c 1); [discriminate|].
    destruct (cpi_prices input) as [|p ps] eqn:Hp; [discriminate|].
    cbn [List.length Nat.eqb] in H.
    destruct (validatePrices (p :: ps)) as [?|[]]; [discriminate|].
    destruct (cpi_trial_period_days input) as [d|].
    + destruct (Z.ltb_spec d 0); [discriminate|]. repeat split.
      * intros Ht. rewrite Ht in Hname. discriminate.
      * intros c' [= <-]. lia.
      * discriminate.
      * intros d' [= <-]. lia.
    + repeat split.
      * intros Ht. rewrite Ht in Hname. discriminate.
      * intros c' [= <-]. lia.
      * discriminate.
      * discriminate.
  - destruct (cpi_prices input) as [|p ps] eqn:Hp; [discriminate|].
    cbn [List.length Nat.eqb] in H.
    destruct (validatePrices (p :: ps)) as [?|[]]; [discriminate|].
    destruct (cpi_trial_period_days input) as [d|].
    + destruct (Z.ltb_spec d 0); [discriminate|]. repeat split.
      * intros Ht. rewrite Ht in Hname. discriminate.
      * discriminate.
      * discriminate.
      * intros d' [= <-]. lia.
    + repeat split; try discriminate.
      intros Ht. rewrite Ht in Hname. discriminate.
Qed.

Lemma prices_with_ids_well_formed (input : CreatePlanInput) (uuid : nat -> string) :
  validatePlanInput input = inr tt ->
  forall ps i, incl ps (cpi_prices input) ->
               Forall price_well_formed (prices_with_ids uuid i ps).
Proof.
  intros Hv. induction ps as [|p ps IH]; intros i Hincl; cbn; constructor.
  - apply PricingPropertiesMore.validatePriceInput_well_formed.
    apply (PricingProperties.validatePrices_In _ (PricingProperties.validatePlanInput_prices _ Hv)).
    apply Hincl. left. reflexivity.
  - apply IH. intros x Hx. apply Hincl. right. assumption.
Qed.

Lemma check_plan_external_id_free_cases (app : string) (mode : bool)
      (ext : option string) (s : Store) :
  (check_plan_external_id_free app mode ext s = (s, inr tt)
   /\ forall e, ext = Some e -> e <> "" ->
                filter (where_plan_external_id e app mode) (plans s) = [])
  \/ (exists message,
         check_plan_external_id_free app mode ext s
         = (s, inl (ConflictError message))).
Proof.
  unfold check_plan_external_id_free.
  destruct ext as [e|]; [|left; split; [reflexivity|discriminate]].
  destruct (String.eqb_spec e "") as [->|Hne]; cbn [negb].
  - left. split; [reflexivity|]. intros e [= <-] H. contradiction.
  - unfold bind, query.
    destruct (filter (where_plan_external_id e app mode) (plans s)) eqn:E.
    + left. split; [reflexivity|]. intros e' [= <-] _. assumption.
    + right. eexists. reflexivity.
Qed.

Lemma check_plan_external_id_unique_cases (app pid : string) (mode : bool)
      (ext current : option string) (s : Store) :
  check_plan_external_id_unique app pid mode ext current s = (s, inr tt)
  \/ (exists message,
         check_plan_external_id_unique app pid mode ext current s
         = (s, inl (ConflictError message))).
Proof.
  unfold check_plan_external_id_unique.
  destruct ext as [e|]; [|left; reflexivity].
  destruct (_ && _); [|left; reflexivity].
  unfold bind, query.
  match goal with
  | |- context [filter ?f (plans s)] => destruct (filter f (plans s))
  end; [left; reflexivity|right; eexists; reflexivity].
Qed.

(** *** How each writing call on plans ends *)

Lemma create_cases rt app mode input features metadata s :
  (exists e, create rt app mode input features metadata s = (s, inl e)
             /\ caller_visible e)
  \/ (validatePlanInput input = inr tt
      /\ (forall e, cpi_external_id input = Some e -> e <> "" ->
                    filter (where_plan_external_id e app mode) (plans s) = [])
      /\ exists plan,
          create rt app mode input features metadata s
          = (set_plans (plans s ++ [plan]) s, inr plan)
          /\ plan_id plan = plan_uuid rt
          /\ plan_application_id plan = app
          /\ plan_test_mode plan = mode
          /\ plan_external_id plan = (if truthy_string (cpi_external_id input)
                                      then cpi_external_id input else None)
          /\ plan_name plan = trim (cpi_name input)
          /\ billing_interval plan = cpi_billing_interval input
          /\ 1 <= billing_interval_count plan
          /\ 0 <= trial_period_days plan
          /\ prices plan = prices_with_ids (price_uuid rt) 0 (cpi_prices input)
          /\ plan_status plan = match cpi_status input with
                                | Some st => st
                                | None => plan_active
                                end
          /\ plan_archived_at plan = None).
Proof.
  remember (create rt app mode input features metadata s) as result eqn:E.
  unfold create in E. unfold bind at 1, lift in E.
  destruct (validatePlanInput input) as [e|[]] eqn:Hv.
  { left. exists e. split; [assumption|].
    destruct (validatePlanInput_error _ _ Hv) as [message ->]. exact I. }
  unfold bind at 1 in E.
  destruct (check_plan_external_id_free_cases app mode (cpi_external_id input) s)
    as [[Hc Hfree]|[message Hc]]; rewrite Hc in E.
  2:{ left. eexists. split; [exact E|exact I]. }
  right. split; [reflexivity|]. split; [assumption|].
  destruct (validatePlanInput_facts input Hv) as [Hname [Hcount [Hprices Htrial]]].
  unfold bind, db_insert_plan, format_first_plan, ret in E.
  rewrite formatPlan_id in E.
  eexists. split; [exact E|]. cbn. repeat split.
  - destruct (cpi_billing_interval_count input) as [c|]; cbn; [|lia].
    specialize (Hcount c eq_refl). destruct (Z.eqb_spec c 0); cbn; lia.
  - destruct (cpi_trial_period_days input) as [d|]; cbn; [|lia].
    specialize (Htrial d eq_refl). destruct (Z.eqb_spec d 0); cbn; lia.
Qed.

Lemma create_error_store
      (rt : PlanRuntime) (app : string) (mode : bool) (input : CreatePlanInput)
      (features metadata : option string) (s s' : Store) (e : AppError) :
  create rt app mode input features metadata s = (s', inl e) -> s' = s.
Proof.
  intros H.
  destruct (create_cases rt app mode input features metadata s)
    as [[e' [He _]]|[_ [_ [plan [Hc _]]]]]; rewrite H in *.
  - injection He as -> _. reflexivity.
  - discriminate.
Qed.

Lemma update_cases rt app pid mode input s :
  (exists e, update rt app pid mode input s = (s, inl e) /\ caller_visible e)
  \/ (exists existing rest,
         filter (where_plan_id pid app mode) (plans s) = existing :: rest
         /\ (plan_status existing = plan_archived ->
             upi_status input = Some plan_active
             \/ upi_status input = Some plan_draft)
         /\ update rt app pid mode input s
            = (set_plans
                 (map (fun r => if where_plan_id pid app mode r
                                then updated_plan rt existing input r else r)
                      (plans s)) s,
               inr (updated_plan rt existing input existing))).
Proof.
  remember (update rt app pid mode input s) as result eqn:E.
  unfold update in E. unfold bind at 1 in E.
  destruct (getById_all_cases app pid mode s) as [[_ Hg]|[row [rest [Hf Hg]]]];
    rewrite Hg in E; [left; eexists; split; [exact E|exact I]|].
  destruct (PlanStatus_eqb (plan_status row) plan_archived && _) eqn:Hcheck;
    [left; eexists; split; [exact E|exact I]|].
  unfold bind at 1 in E.
  destruct (check_plan_external_id_unique_cases app pid mode
              (upi_external_id input) (plan_external_id row) s)
    as [Hc|[message Hc]]; rewrite Hc in E;
    [|left; eexists; split; [exact E|exact I]].
  right. exists row, rest. split; [assumption|]. split.
  - intros Harch. rewrite Harch in Hcheck. cbn in Hcheck.
    destruct (upi_status input) as [[]|]; cbn in Hcheck; try discriminate; auto.
  - unfold bind, db_update_plans in E. rewrite Hf in E.
    cbn [map format_first_plan] in E.
    unfold ret in E. rewrite formatPlan_id in E. exact E.
Qed.

Lemma archive_cases rt app pid mode s :
  (exists e, archive rt app pid mode s = (s, inl e) /\ caller_visible e)
  \/ (exists existing rest,
         filter (where_plan_id pid app mode) (plans s) = existing :: rest
         /\ plan_status existing <> plan_archived
         /\ archive rt app pid mode s
            = (set_plans
                 (map (fun r => if where_plan_id pid app mode r
                                then archived_plan rt r else r) (plans s)) s,
               inr (archived_plan rt existing))).
Proof.
  remember (archive rt app pid mode s) as result eqn:E.
  unfold archive in E. unfold bind at 1 in E.
  destruct (getById_all_cases app pid mode s) as [[_ Hg]|[row [rest [Hf Hg]]]];
    rewrite Hg in E; [left; eexists; split; [exact E|exact I]|].
  destruct (PlanStatus_eqb (plan_status row) plan_archived) eqn:Ha;
    [left; eexists; split; [exact E|exact I]|].
  right. exists row, rest. split; [assumption|]. split.
  - intros H. rewrite H in Ha. discriminate.
  - unfold bind, db_update_plans in E. rewrite Hf in E.
    cbn [map format_first_plan] in E.
    unfold ret in E. rewrite formatPlan_id in E. exact E.
Qed.

Lemma unarchive_cases rt app pid mode s :
  (filter (archived_in_scope pid app mode) (plans s) = []
   /\ unarchive rt app pid mode s
      = (s, inl (NotFoundError "Archived plan not found")))
  \/ (exists existing rest,
         filter (archived_in_scope pid app mode) (plans s) = existing :: rest
         /\ unarchive rt app pid mode s
            = (set_plans
                 (map (fun r => if archived_in_scope pid app mode r
                                then unarchived_plan rt r else r) (plans s)) s,
               inr (unarchived_plan rt existing))).
Proof.
  remember (unarchive rt app pid mode s) as result eqn:E.
  unfold unarchive, bind, db_update_plans in E.
  fold (archived_in_scope pid app mode) in E.
  destruct (filter (archived_in_scope pid app mode) (plans s)) as [|row rest] eqn:Hf.
  - left. split; [reflexivity|]. cbn [map] in E.
    rewrite plans_update_nothing in E by assumption.
    rewrite set_plans_same in E. exact E.
  - right. exists row, rest. split; [reflexivity|]. cbn [map] in E.
    unfold ret in E. rewrite formatPlan_id in E. exact E.
Qed.

Lemma clone_cases rt app pid mode overrides s :
  (exists e, clone rt app pid mode overrides s = (s, inl e) /\ caller_visible e)
  \/ (exists existing rest features metadata,
         filter (where_plan_id pid app mode) (plans s) = existing :: rest
         /\ clone rt app pid mode overrides s
            = create rt app mode (clone_input existing overrides)
                     features metadata s).
Proof.
  unfold clone. unfold bind at 1.
  destruct (getById_all_cases app pid mode s) as [[_ Hg]|[row [rest [Hf Hg]]]];
    rewrite Hg.
  - left. eexists. split; [reflexivity|exact I].
  - right. exists row, rest. eexists. eexists. split; [assumption|].
    unfold bind. rewrite Hg. reflexivity.
Qed.

(** How a call on plans ends: with an error of the caller-visible kinds and
    the store it was given, with the plans table rewritten row by row, or
    with one plan appended. *)
Lemma run_plan_cases rt call s :
  (exists e, run_plan rt call s = (s, inl e) /\ caller_visible e)
  \/ (exists f plan,
         run_plan rt call s = (set_plans (map f (plans s)) s, inr plan)
         /\ (forall row, same_offering (f row) row)
         /\ match call with
            | UpdatePlan _ _ _ _ | ArchivePlan _ _ _ | UnarchivePlan _ _ _ => True
            | _ => False
            end)
  \/ (exists plan,
         run_plan rt call s = (set_plans (plans s ++ [plan]) s, inr plan)
         /\ match call with
            | CreatePlan _ _ _ _ _ | ClonePlan _ _ _ _ => True
            | _ => False
            end).
Proof.
  destruct call as [app mode input features metadata|app pid mode input
                   |app pid mode|app pid mode|app pid mode overrides];
    cbn [run_plan].
  - destruct (create_cases rt app mode input features metadata s)
      as [?|[_ [_ [plan [Hc _]]]]]; [left; assumption|].
    right. right. exists plan. split; [assumption|exact I].
  - destruct (update_cases rt app pid mode input s)
      as [?|[existing [rest [_ [_ Hu]]]]]; [left; assumption|].
    right. left. eexists. eexists. split; [exact Hu|]. split; [|exact I].
    intros row. cbn beta. destruct (where_plan_id pid app mode row);
      repeat split.
  - destruct (archive_cases rt app pid mode s)
      as [?|[existing [rest [_ [_ Hu]]]]]; [left; assumption|].
    right. left. eexists. eexists. split; [exact Hu|]. split; [|exact I].
    intros row. cbn beta. destruct (where_plan_id pid app mode row);
      repeat split.
  - destruct (unarchive_cases rt app pid mode s)
      as [[_ Hu]|[existing [rest [_ Hu]]]].
    + left. eexists. split; [exact Hu|exact I].
    + right. left. eexists. eexists. split; [exact Hu|]. split; [|exact I].
      intros row. cbn beta. destruct (archived_in_scope pid app mode row);
        repeat split.
  - destruct (clone_cases rt app pid mode overrides s)
      as [?|[existing [rest [features [metadata [_ Hcl]]]]]]; [left; assumption|].
    rewrite Hcl.
    destruct (create_cases rt app mode (clone_input existing overrides)
                           features metadata s)
      as [?|[_ [_ [plan [Hc _]]]]]; [left; assumption|].
    right. right. exists plan. split; [assumption|exact I].
Qed.

(** *** Properties *)

(** X13. A plan that [create] returns was accepted by [validatePlanInput] and is
    appended to the table as returned: scoped to the caller, with a trimmed,
    non-empty name, an interval count of at least 1, a non-negative trial
    length, at least one price, every price well formed, the requested
    status or ['active'], and no archive date. *)
Theorem create_stores_a_valid_plan
        (rt : PlanRuntime) (app : string) (mode : bool) (input : CreatePlanInput)
        (features metadata : option string) (s s' : Store) (plan : Plan) :
  create rt app mode input features metadata s = (s', inr plan) ->
  validatePlanInput input = inr tt
  /\ s' = set_plans (plans s ++ [plan]) s
  /\ plan_id plan = plan_uuid rt
  /\ plan_application_id plan = app
  /\ plan_test_mode plan = mode
  /\ plan_name plan = trim (cpi_name input)
  /\ plan_name plan <> ""
  /\ 1 <= billing_interval_count plan
  /\ 0 <= trial_period_days plan
  /\ prices plan <> []
  /\ Forall price_well_formed (prices plan)
  /\ plan_status plan = match cpi_status input with
                        | Some st => st
                        | None => plan_active
                        end
  /\ plan_archived_at plan = None.
Proof.
  intros H.
  destruct (create_cases rt app mode input features metadata s)
    as [[e [He _]]|[Hv [_ [plan' [Hc Hfacts]]]]].
  { rewrite He in H. discriminate. }
  rewrite Hc in H. injection H as <- <-.
  destruct Hfacts as [Hid [Happ [Hmode [_ [Hname [_ [Hcount [Htrial [Hprices
                     [Hstatus Harch]]]]]]]]]].
  destruct (validatePlanInput_facts input Hv) as [Hn [_ [Hp _]]].
  repeat split; try assumption.
  - rewrite Hname. assumption.
  - rewrite Hprices. destruct (cpi_prices input); [congruence|discriminate].
  - rewrite Hprices. apply (prices_with_ids_well_formed input); [assumption|].
    apply incl_refl.
Qed.

Lemma create_stores_a_valid_plan_witness :
  validatePlanInput draft_input = inr tt
  /\ one_draft_plan = set_plans (plans no_plans ++ [the_draft_plan]) no_plans
  /\ plan_id the_draft_plan = plan_uuid (plan_runtime 1000)
  /\ plan_application_id the_draft_plan = "app_1"
  /\ plan_test_mode the_draft_plan = false
  /\ plan_name the_draft_plan = trim (cpi_name draft_input)
  /\ plan_name the_draft_plan <> ""
  /\ 1 <= billing_interval_count the_draft_plan
  /\ 0 <= trial_period_days the_draft_plan
  /\ prices the_draft_plan <> []
  /\ Forall price_well_formed (prices the_draft_plan)
  /\ plan_status the_draft_plan = match cpi_status draft_input with
                                  | Some st => st
                                  | None => plan_active
                                  end
  /\ plan_archived_at the_draft_plan = None.
Proof.
  apply (create_stores_a_valid_plan (plan_runtime 1000) "app_1" false draft_input
                                    None None no_plans).
  vm_compute. reflexivity.
Defined.



(** X15. No call on plans changes what an existing plan offers: every plan of
    the table keeps its place, id, tenant and mode, billing interval and
    count, prices and creation date; and no call touches a subscription or
    a customer. *)
Theorem plan_calls_keep_every_offering
        (rt : PlanRuntime) (call : PlanCall) (s s' : Store) (r : Result Plan) :
  run_plan rt call s = (s', r) ->
  subscriptions s' = subscriptions s
  /\ customers s' = customers s
  /\ forall n row, nth_error (plans s) n = Some row ->
                   exists row', nth_error (plans s') n = Some row'
                                /\ same_offering row' row.
Proof.
  intros H.
  destruct (run_plan_cases rt call s)
    as [[e' [He _]]|[[f [plan [Hr [Hf _]]]]|[plan [Hr _]]]];
    rewrite H in *.
  - injection He as <- _. repeat split. intros n row Hn. exists row.
    split; [assumption|repeat split].
  - injection Hr as -> _. repeat split. intros n row Hn. exists (f row).
    cbn. rewrite nth_error_map, Hn. split; [reflexivity|apply Hf].
  - injection Hr as -> _. repeat split. intros n row Hn. exists row.
    cbn. split; [|repeat split].
    rewrite nth_error_app1; [assumption|].
    apply nth_error_Some. congruence.
Qed.

Lemma plan_calls_keep_every_offering_witness :
  exists s',
    subscriptions s' = subscriptions one_draft_plan
    /\ customers s' = customers one_draft_plan
    /\ forall n row, nth_error (plans one_draft_plan) n = Some row ->
                     exists row', nth_error (plans s') n = Some row'
                                  /\ same_offering row' row.
Proof.
  eexists.
  apply (plan_calls_keep_every_offering (plan_runtime 2000)
           (UpdatePlan "app_1" "plan_new" false rename_input) one_draft_plan _
           (snd (run_plan (plan_runtime 2000)
                   (UpdatePlan "app_1" "plan_new" false rename_input)
                   one_draft_plan))).
  vm_compute. reflexivity.
Defined.

Lemma plan_matches_visible (app pid : string) (mode : bool) (row : Plan) :
  plan_matches app pid mode false row
  = where_plan_id pid app mode row
    && negb (PlanStatus_eqb (plan_status row) plan_archived).
Proof.
  unfold plan_matches, where_plan_id, plan_scope. cbn [orb].
  rewrite !andb_assoc. reflexivity.
Qed.

Lemma filter_rewritten {A} (cond1 cond2 : A -> bool) (set : A -> A) (l : list A) :
  (forall r, cond1 r = true -> cond2 (set r) = true) ->
  (forall r, cond1 r = false -> cond2 r = false) ->
  filter cond2 (map (fun r => if cond1 r then set r else r) l)
  = map set (filter cond1 l).
Proof.
  intros H1 H2. induction l as [|a l IH]; cbn; [reflexivity|].
  destruct (cond1 a) eqn:Ha.
  - rewrite (H1 a Ha). cbn. f_equal. exact IH.
  - rewrite (H2 a Ha). exact IH.
Qed.

(** X16. A plan that [create] returns under a fresh id can be read back: by id,
    with archived plans included and - unless it was created archived -
    without; and by its external id, when it has one. *)
Theorem created_plan_is_found
        (rt : PlanRuntime) (app : string) (mode : bool) (input : CreatePlanInput)
        (features metadata : option string) (s s' : Store) (plan : Plan) :
  create rt app mode input features metadata s = (s', inr plan) ->
  (forall row, In row (plans s) -> plan_id row <> plan_uuid rt) ->
  getById app (plan_id plan) mode true s' = (s', inr plan)
  /\ (plan_status plan <> plan_archived ->
      getById app (plan_id plan) mode false s' = (s', inr plan))
  /\ (forall e, cpi_external_id input = Some e -> e <> "" ->
                getByExternalId app e mode true s' = (s', inr plan)).
Proof.
  intros H Hfresh.
  destruct (create_cases rt app mode input features metadata s)
    as [[e [He _]]|[Hv [Hfree [plan' [Hc Hfacts]]]]].
  { rewrite He in H. discriminate. }
  rewrite Hc in H. injection H as <- <-.
  destruct Hfacts as [Hid [Happ [Hmode [Hext _]]]].
  assert (Hnone : forall arch,
             filter (plan_matches app (plan_id plan') mode arch) (plans s) = []).
  { intros arch. apply filter_nil. intros row Hin. unfold plan_matches.
    destruct (String.eqb_spec (plan_id row) (plan_id plan')) as [Heq|]; [|reflexivity].
    exfalso. apply (Hfresh row Hin). congruence. }
  assert (Hscope : where_plan_id (plan_id plan') app mode plan' = true).
  { unfold where_plan_id, plan_scope.
    rewrite Happ, Hmode, !String.eqb_refl, Bool.eqb_reflx. reflexivity. }
  repeat split.
  - unfold getById, bind, lift, PlanService.getById. cbn [plans set_plans].
    rewrite filter_app, Hnone. cbn [filter List.app].
    rewrite plan_matches_all, Hscope. unfold ret. rewrite formatPlan_id. reflexivity.
  - intros Hvisible.
    unfold getById, bind, lift, PlanService.getById. cbn [plans set_plans].
    rewrite filter_app, Hnone. cbn [filter List.app].
    rewrite plan_matches_visible, Hscope.
    destruct (plan_status plan'); try contradiction; cbn;
      unfold ret; rewrite formatPlan_id; reflexivity.
  - intros e He Hne.
    unfold getByExternalId, bind, query. cbn [plans set_plans].
    rewrite filter_app.
    assert (Hno : filter (fun row => where_plan_external_id e app mode row
                                     && (true || negb (PlanStatus_eqb (plan_status row)
                                                                      plan_archived)))
                         (plans s) = []).
    { apply filter_nil. intros row Hin. cbn [orb]. rewrite andb_true_r.
      pose proof (Hfree e He Hne) as Hf. rewrite filter_nil in Hf. auto. }
    rewrite Hno. cbn [filter List.app orb].
    assert (Hmatch : where_plan_external_id e app mode plan' = true).
    { unfold where_plan_external_id, plan_scope. rewrite Hext, He. cbn.
      destruct (String.eqb_spec e ""); [contradiction|]. cbn.
      rewrite Happ, Hmode, !String.eqb_refl, Bool.eqb_reflx. reflexivity. }
    rewrite Hmatch. cbn. unfold ret. rewrite formatPlan_id. reflexivity.
Qed.

Lemma created_plan_is_found_witness :
  getById "app_1" (plan_id the_draft_plan) false true one_draft_plan
  = (one_draft_plan, inr the_draft_plan)
  /\ (plan_status the_draft_plan <> plan_archived ->
      getById "app_1" (plan_id the_draft_plan) false false one_draft_plan
      = (one_draft_plan, inr the_draft_plan))
  /\ (forall e, cpi_external_id draft_input = Some e -> e <> "" ->
                getByExternalId "app_1" e false true one_draft_plan
                = (one_draft_plan, inr the_draft_plan)).
Proof.
  apply (created_plan_is_found (plan_runtime 1000) "app_1" false draft_input
                               None None no_plans).
  - vm_compute. reflexivity.
  - intros row [].
Defined.

(** X17. Archiving hides a plan from the default lookup and cannot be repeated;
    unarchiving brings it back as ['active'] - whatever its status was
    before, a draft included - with no archive date. Apart from status,
    archive date and update stamp the plan is as it was. *)
Theorem archive_then_unarchive
        (rt1 rt2 rt3 : PlanRuntime) (app pid : string) (mode : bool)
        (s : Store) (plan : Plan) :
  getById app pid mode true s = (s, inr plan) ->
  plan_status plan <> plan_archived ->
  exists s1 p1 s2 p2,
    archive rt1 app pid mode s = (s1, inr p1)
    /\ plan_status p1 = plan_archived
    /\ plan_archived_at p1 = Some (plan_sql_now rt1)
    /\ same_but_archiving p1 plan
    /\ getById app pid mode false s1 = (s1, inl (NotFoundError "Plan not found"))
    /\ getById app pid mode true s1 = (s1, inr p1)
    /\ archive rt3 app pid mode s1
       = (s1, inl (ValidationError "Plan is already archived"))
    /\ unarchive rt2 app pid mode s1 = (s2, inr p2)
    /\ plan_status p2 = plan_active
    /\ plan_archived_at p2 = None
    /\ same_but_archiving p2 plan.
Proof.
  intros Hfound Hstatus.
  destruct (getById_all_cases app pid mode s) as [[_ Hg]|[row [rest [Hf Hg]]]];
    rewrite Hg in Hfound; [discriminate|]. injection Hfound as ->.
  destruct (archive_cases rt1 app pid mode s)
    as [[e [He _]]|[existing [rest' [Hf' [_ Ha]]]]].
  { exfalso. unfold archive, bind in He. rewrite Hg in He.
    destruct (PlanStatus_eqb (plan_status plan) plan_archived) eqn:E.
    - apply PlanStatus_eqb_true in E. contradiction.
    - unfold db_update_plans in He. rewrite Hf in He. discriminate. }
  rewrite Hf in Hf'. injection Hf' as <- <-.
  set (g := fun r => if where_plan_id pid app mode r then archived_plan rt1 r else r)
    in *.
  set (s1 := set_plans (map g (plans s)) s) in *.
  assert (Hall : filter (where_plan_id pid app mode) (plans s1)
                 = map (archived_plan rt1) (plan :: rest)).
  { subst s1 g. cbn [plans set_plans]. rewrite <- Hf.
    apply filter_rewritten; [intros r Hr; exact Hr|intros r Hr; exact Hr]. }
  assert (Harchived : filter (archived_in_scope pid app mode) (plans s1)
                      = map (archived_plan rt1) (plan :: rest)).
  { subst s1 g. cbn [plans set_plans]. rewrite <- Hf.
    apply filter_rewritten.
    - intros r Hr. unfold archived_in_scope. cbn. rewrite andb_true_r. exact Hr.
    - intros r Hr. unfold archived_in_scope. rewrite Hr. reflexivity. }
  assert (Hhidden : filter (plan_matches app pid mode false) (plans s1) = []).
  { apply filter_nil. intros r Hin. rewrite plan_matches_visible.
    subst s1 g. cbn [plans set_plans] in Hin. apply in_map_iff in Hin.
    destruct Hin as [r0 [<- _]]. cbn beta.
    destruct (where_plan_id pid app mode r0) eqn:Hr0.
    - cbn. apply andb_false_r.
    - rewrite Hr0. reflexivity. }
  exists s1, (archived_plan rt1 plan).
  destruct (unarchive_cases rt2 app pid mode s1)
    as [[Hnil _]|[ex [rest2 [Hf2 Hu]]]].
  { rewrite Harchived in Hnil. discriminate. }
  rewrite Harchived in Hf2. cbn [map] in Hf2. injection Hf2 as <- _.
  eexists. exists (unarchived_plan rt2 (archived_plan rt1 plan)).
  repeat split; try reflexivity; try exact Ha; try exact Hu.
  - unfold getById, bind, lift, PlanService.getById. rewrite Hhidden. reflexivity.
  - destruct (getById_all_cases app pid mode s1)
      as [[Hnil _]|[row1 [rest1 [Hf1 Hg1]]]].
    + rewrite Hall in Hnil. discriminate.
    + rewrite Hall in Hf1. cbn [map] in Hf1. injection Hf1 as <- _. exact Hg1.
  - unfold archive, bind.
    destruct (getById_all_cases app pid mode s1)
      as [[Hnil _]|[row1 [rest1 [Hf1 Hg1]]]].
    + rewrite Hall in Hnil. discriminate.
    + rewrite Hall in Hf1. cbn [map] in Hf1. injection Hf1 as <- _.
      rewrite Hg1. reflexivity.
Qed.

Lemma archive_then_unarchive_witness :
  exists s1 p1 s2 p2,
    archive (plan_runtime 2000) "app_1" "plan_new" false one_draft_plan = (s1, inr p1)
    /\ plan_status p1 = plan_archived
    /\ plan_archived_at p1 = Some (plan_sql_now (plan_runtime 2000))
    /\ same_but_archiving p1 the_draft_plan
    /\ getById "app_1" "plan_new" false false s1
       = (s1, inl (NotFoundError "Plan not found"))
    /\ getById "app_1" "plan_new" false true s1 = (s1, inr p1)
    /\ archive (plan_runtime 4000) "app_1" "plan_new" false s1
       = (s1, inl (ValidationError "Plan is already archived"))
    /\ unarchive (plan_runtime 3000) "app_1" "plan_new" false s1 = (s2, inr p2)
    /\ plan_status p2 = plan_active
    /\ plan_archived_at p2 = None
    /\ same_but_archiving p2 the_draft_plan.
Proof.
  apply (archive_then_unarchive (plan_runtime 2000) (plan_runtime 3000)
                                (plan_runtime 4000) "app_1" "plan_new" false
                                one_draft_plan the_draft_plan).
  - vm_compute. reflexivity.
  - discriminate.
Defined.



Lemma unique_plan_id (l : list Plan) (a b : Plan) :
  NoDup (map plan_id l) -> In a l -> In b l -> plan_id a = plan_id b -> a = b.
Proof.
  induction l as [|x l IH]; cbn; intros Hnd Ha Hb Hid; [contradiction|].
  inversion Hnd as [|? ? Hnotin Hnd']; subst.
  destruct Ha as [->|Ha], Hb as [->|Hb]; [reflexivity| | |auto].
  - exfalso. apply Hnotin. rewrite Hid. apply in_map. assumption.
  - exfalso. apply Hnotin. rewrite <- Hid. apply in_map. assumption.
Qed.

Lemma where_plan_id_id (pid app : string) (mode : bool) (row : Plan) :
  where_plan_id pid app mode row = true -> plan_id row = pid.
Proof.
  unfold where_plan_id. intros H. apply andb_true_iff in H.
  destruct H as [H _]. apply String.eqb_eq in H. exact H.
Qed.

(** X19. On a table with unique plan ids in which every plan is marked archived
    exactly when it carries an archive date, every call on plans keeps it
    so - provided the call does not create a plan as ['archived'], which
    [create] stores without an archive date. *)
Theorem archive_flag_stays_consistent
        (rt : PlanRuntime) (call : PlanCall) (s s' : Store) (r : Result Plan) :
  NoDup (map plan_id (plans s)) ->
  adds_no_archived_plan call ->
  Forall archive_flag_consistent (plans s) ->
  run_plan rt call s = (s', r) ->
  Forall archive_flag_consistent (plans s').
Proof.
  intros Hnd Hadd Hinv Hrun.
  assert (Hnew : forall input features metadata app mode plan st,
             cpi_status input <> Some plan_archived ->
             create rt app mode input features metadata s = (st, inr plan) ->
             Forall archive_flag_consistent (plans st)).
  { intros input features metadata app mode plan st Hst Hc.
    destruct (create_cases rt app mode input features metadata s)
      as [[e [He _]]|[_ [_ [plan' [Hc' Hfacts]]]]].
    { rewrite He in Hc. discriminate. }
    rewrite Hc' in Hc. injection Hc as <- <-. cbn [plans set_plans].
    apply Forall_app. split; [assumption|]. constructor; [|constructor].
    destruct Hfacts as [_ [_ [_ [_ [_ [_ [_ [_ [_ [Hstatus Harch]]]]]]]]]].
    unfold archive_flag_consistent. rewrite Hstatus, Harch.
    destruct (cpi_status input) as [[]|]; split; congruence. }
  destruct call as [app mode input features metadata|app pid mode input
                   |app pid mode|app pid mode|app pid mode overrides];
    cbn [run_plan adds_no_archived_plan] in *.
  - destruct r as [e|plan].
    + rewrite (create_error_store _ _ _ _ _ _ _ _ _ Hrun). assumption.
    + eapply Hnew; eassumption.
  - destruct (update_cases rt app pid mode input s)
      as [[e [He _]]|[existing [rest [Hf [Hre Hu]]]]]; rewrite Hrun in *.
    { injection He as -> _. assumption. }
    injection Hu as -> _. cbn [plans set_plans].
    destruct (LifecycleProperties.filter_head_In _ _ _ _ Hf) as [Hin Hex].
    apply Forall_forall. intros row Hrow. apply in_map_iff in Hrow.
    destruct Hrow as [r0 [<- Hin0]]. rewrite Forall_forall in Hinv.
    destruct (where_plan_id pid app mode r0) eqn:Hr0; [|auto].
    assert (r0 = existing).
    { apply (unique_plan_id (plans s)); try assumption.
      rewrite (where_plan_id_id _ _ _ _ Hr0), (where_plan_id_id _ _ _ _ Hex).
      reflexivity. }
    subst r0. specialize (Hinv existing Hin).
    unfold archive_flag_consistent in *. cbn.
    destruct (upi_status input) as [[]|] eqn:Hst.
    + destruct (PlanStatus_eqb (plan_status existing) plan_archived) eqn:Ha.
      * split; congruence.
      * split; [discriminate|]. intros Hat. apply Hinv in Hat.
        rewrite Hat in Ha. discriminate.
    + split; congruence.
    + destruct (PlanStatus_eqb (plan_status existing) plan_archived) eqn:Ha.
      * split; congruence.
      * split; [discriminate|]. intros Hat. apply Hinv in Hat.
        rewrite Hat in Ha. discriminate.
    + exact Hinv.
  - destruct (archive_cases rt app pid mode s)
      as [[e [He _]]|[existing [rest [_ [_ Hu]]]]]; rewrite Hrun in *.
    { injection He as -> _. assumption. }
    injection Hu as -> _. cbn [plans set_plans].
    apply Forall_forall. intros row Hrow. apply in_map_iff in Hrow.
    destruct Hrow as [r0 [<- Hin0]]. rewrite Forall_forall in Hinv.
    destruct (where_plan_id pid app mode r0); [|auto].
    unfold archive_flag_consistent. cbn. split; congruence.
  - destruct (unarchive_cases rt app pid mode s)
      as [[_ Hu]|[existing [rest [_ Hu]]]]; rewrite Hrun in *.
    { injection Hu as -> _. assumption. }
    injection Hu as -> _. cbn [plans set_plans].
    apply Forall_forall. intros row Hrow. apply in_map_iff in Hrow.
    destruct Hrow as [r0 [<- Hin0]]. rewrite Forall_forall in Hinv.
    destruct (archived_in_scope pid app mode r0); [|auto].
    unfold archive_flag_consistent. cbn. split; congruence.
  - destruct (clone_cases rt app pid mode overrides s)
      as [[e [He _]]|[existing [rest [features [metadata [_ Hcl]]]]]];
      rewrite Hrun in *.
    { injection He as -> _. assumption. }
    destruct r as [e|plan].
    + symmetry in Hcl.
      rewrite (create_error_store _ _ _ _ _ _ _ _ _ Hcl). assumption.
    + symmetry in Hcl. eapply Hnew; [|exact Hcl]. cbn. discriminate.
Qed.

Lemma archive_flag_stays_consistent_witness :
  Forall archive_flag_consistent
    (plans (fst (run_plan (plan_runtime 2000)
                          (ArchivePlan "app_1" "plan_new" false) one_draft_plan))).
Proof.
  apply (archive_flag_stays_consistent (plan_runtime 2000)
           (ArchivePlan "app_1" "plan_new" false) one_draft_plan _
           (snd (run_plan (plan_runtime 2000)
                          (ArchivePlan "app_1" "plan_new" false) one_draft_plan))).
  - cbn. repeat constructor. intros [].
  - exact I.
  - constructor; [|constructor]. unfold archive_flag_consistent. cbn.
    split; [discriminate|intros H; exfalso; apply H; reflexivity].
  - vm_compute. reflexivity.
Defined.





(** *** Paging *)

Lemma descending_cons (a : Z) (l : list Z) :
  descending l -> (forall b, In b l -> b <= a) -> descending (a :: l).
Proof.
  destruct l as [|b l]; cbn; [trivial|]. intros H Hall. split; [|exact H].
  apply Hall. left. reflexivity.
Qed.

Lemma descending_bound (a : Z) (l : list Z) :
  descending (a :: l) -> forall b, In b l -> b <= a.
Proof.
  revert a. induction l as [|c l IH]; intros a H b Hin; [contradiction|].
  cbn in H. destruct H as [Hca H]. destruct Hin as [<-|Hin]; [assumption|].
  specialize (IH c H b Hin). lia.
Qed.

Lemma descending_tail (a : Z) (l : list Z) : descending (a :: l) -> descending l.
Proof. destruct l; cbn; [trivial|]. intros [_ H]. exact H. Qed.

Lemma descending_firstn (n : nat) (l : list Z) :
  descending l -> descending (firstn n l).
Proof.
  revert l. induction n as [|n IH]; intros l H; [exact I|].
  destruct l as [|a l]; [exact I|]. cbn [firstn].
  apply descending_cons.
  - apply IH. eapply descending_tail. exact H.
  - intros b Hb. apply (descending_bound a l H).
    revert Hb. clear. revert l. induction n as [|n IH]; intros [|c l]; cbn;
      try contradiction.
    intros [<-|Hb]; [left; reflexivity|right; auto].
Qed.

Lemma insert_plan_desc_In (row x : Plan) (l : list Plan) :
  In x (insert_plan_desc row l) <-> x = row \/ In x l.
Proof.
  induction l as [|a l IH]; cbn.
  - split; [intros [<-|[]]; left; reflexivity|intros [->|[]]; left; reflexivity].
  - destruct (plan_created_at a <? plan_created_at row); cbn.
    + split; [intros [<-|H]; auto|intros [->|H]; auto].
    + rewrite IH. split.
      * intros [<-|[->|H]]; auto.
      * intros [->|[<-|H]]; auto.
Qed.

Lemma insert_plan_desc_length (row : Plan) (l : list Plan) :
  List.length (insert_plan_desc row l) = S (List.length l).
Proof.
  induction l as [|a l IH]; cbn; [reflexivity|].
  destruct (plan_created_at a <? plan_created_at row); cbn; [reflexivity|].
  rewrite IH. reflexivity.
Qed.

Lemma insert_plan_desc_descending (row : Plan) (l : list Plan) :
  descending (map plan_created_at l) ->
  descending (map plan_created_at (insert_plan_desc row l)).
Proof.
  induction l as [|a l IH]; intros H; cbn; [exact I|].
  destruct (Z.ltb_spec (plan_created_at a) (plan_created_at row)).
  - cbn [map]. apply descending_cons; [exact H|].
    intros b [<-|Hb]; [lia|].
    pose proof (descending_bound _ _ H b Hb). lia.
  - cbn [map]. apply descending_cons.
    + apply IH. eapply descending_tail. exact H.
    + intros b Hb. apply in_map_iff in Hb. destruct Hb as [x [<- Hx]].
      apply insert_plan_desc_In in Hx. destruct Hx as [->|Hx]; [lia|].
      apply (descending_bound _ _ H). apply in_map. assumption.
Qed.

Lemma order_plans_facts (l : list Plan) :
  List.length (order_plans_by_created_at_desc l) = List.length l
  /\ descending (map plan_created_at (order_plans_by_created_at_desc l))
  /\ forall x, In x (order_plans_by_created_at_desc l) <-> In x l.
Proof.
  unfold order_plans_by_created_at_desc.
  induction l as [|a l [Hlen [Hdesc Hin]]]; cbn.
  - repeat split; trivial.
  - split; [rewrite insert_plan_desc_length, Hlen; reflexivity|].
    split; [apply insert_plan_desc_descending; assumption|].
    intros x. rewrite insert_plan_desc_In, Hin. split; intros [->|H]; auto.
Qed.

Lemma safe_limit_range (limit : option Z) : 1 <= safe_limit limit <= 100.
Proof. unfold safe_limit. lia. Qed.

Lemma page_length {A} (safe : Z) (l : list A) :
  1 <= safe ->
  Z.of_nat (List.length (firstn (Z.to_nat safe) (firstn (Z.to_nat (safe + 1)) l)))
  = Z.min safe (Z.of_nat (List.length l))
  /\ ((Z.of_nat (List.length (firstn (Z.to_nat (safe + 1)) l)) >? safe) = true
      <-> safe < Z.of_nat (List.length l)).
Proof.
  intros Hs. rewrite !length_firstn. split.
  - lia.
  - rewrite Z.gtb_ltb, Z.ltb_lt. lia.
Qed.


(** *** clone *)

Lemma cloned_prices (uuid : nat -> string) (ps : list PlanPrice) :
  forall i, Forall2 same_pricing
                    (prices_with_ids uuid i (map input_of_price ps)) ps.
Proof.
  induction ps as [|p ps IH]; intros i; cbn; constructor.
  - repeat split.
  - apply IH.
Qed.



End PlanProperties.

(* ------------------------------------------------------------------ *)
(** ** Further properties of the subscription lifecycle *)

Module LifecyclePropertiesMore.

Import PlanService SubscriptionService LifecycleNotions LifecycleNotionsMore.
Import LifecycleProperties.

(** *** changePlan *)



(** *** Immediate cancellation *)

(** A canceled subscription accepts no further lifecycle call: update,
    changePlan, cancel, reactivate, pause and resume all raise a
    ValidationError and write nothing. *)
Lemma canceled_accepts_nothing
      (rt : Runtime) (call : LifecycleCall) (app sid : string) (mode : bool)
      (s : Store) (sub : Subscription) :
  found s app sid mode sub ->
  status sub = canceled ->
  addresses call app sid mode ->
  exists message, run rt call s = (s, inl (ValidationError message)).
Proof.
  intros Hfound Hst Haddr. unfold found in Hfound.
  destruct call; cbn [addresses] in Haddr; try contradiction;
    destruct Haddr as [-> [-> ->]]; cbn [run].
  - unfold update, bind. rewrite Hfound, Hst. eexists. reflexivity.
  - unfold changePlan, bind. rewrite Hfound, Hst. eexists. reflexivity.
  - unfold cancel, bind. rewrite Hfound, Hst. eexists. reflexivity.
  - unfold reactivate, bind. rewrite Hfound, Hst. eexists. reflexivity.
  - unfold pause, bind. rewrite Hfound, Hst. eexists. reflexivity.
  - unfold resume, bind. rewrite Hfound, Hst. eexists. reflexivity.
Qed.

(** X25. Cancel with [at_period_end = false] on a subscription that is not
    canceled sets the status to ['canceled'], [canceled_at] and [cancel_at]
    to the call's instant and the cancellation reason, and leaves the
    current period and the pending-cancellation flag as they were; after
    it, every lifecycle call addressing the subscription raises a
    ValidationError and writes nothing. *)
Theorem immediate_cancel_is_final
        (rt : Runtime) (app sid : string) (mode : bool)
        (reason : option CancellationReason) (s : Store) (sub : Subscription) :
  found s app sid mode sub ->
  status sub <> canceled ->
  exists s' sub',
    cancel rt app sid mode (Some false) reason s = (s', inr sub')
    /\ found s' app sid mode sub'
    /\ other_rows_kept sid app mode s s'
    /\ status sub' = canceled
    /\ canceled_at sub' = Some (js_now rt)
    /\ cancel_at sub' = Some (js_now rt)
    /\ cancellation_reason sub' = Some (match reason with
                                        | Some r => r
                                        | None => customer_request
                                        end)
    /\ cancel_at_period_end sub' = cancel_at_period_end sub
    /\ current_period_start sub' = current_period_start sub
    /\ current_period_end sub' = current_period_end sub
    /\ forall rt' call, addresses call app sid mode ->
         exists message, run rt' call s' = (s', inl (ValidationError message)).
Proof.
  intros Hfound Hs. destruct (found_filter _ _ _ _ _ Hfound) as [rest Hf].
  unfold cancel. unfold bind at 1. rewrite Hfound.
  apply SubscriptionStatus_eqb_false in Hs. rewrite Hs. cbv iota.
  match goal with |- context [db_update _ ?f] => set (upd := f) end.
  assert (Hfound' : found (set_subscriptions
                             (map (fun r => if where_id sid app mode r
                                            then upd r else r) (subscriptions s)) s)
                          app sid mode (upd sub)).
  { apply (found_after_update sid app mode upd s sub rest); [|assumption].
    intros r. reflexivity. }
  eexists. eexists. split.
  { unfold bind, db_update. rewrite Hf. cbn [map format_first]. unfold ret.
    rewrite formatSubscription_id. reflexivity. }
  split; [exact Hfound'|]. split; [apply updated_keeps_other_rows|].
  repeat split.
  intros rt' call Haddr.
  apply (canceled_accepts_nothing rt' call app sid mode _ (upd sub));
    [exact Hfound'|reflexivity|assumption].
Qed.

Lemma immediate_cancel_is_final_witness :
  exists s' sub',
    cancel (runtime_at feb29) "app_1" "sub_1" false (Some false) None
           one_subscription = (s', inr sub')
    /\ found s' "app_1" "sub_1" false sub'
    /\ other_rows_kept "sub_1" "app_1" false one_subscription s'
    /\ status sub' = canceled
    /\ canceled_at sub' = Some (js_now (runtime_at feb29))
    /\ cancel_at sub' = Some (js_now (runtime_at feb29))
    /\ cancellation_reason sub' = Some customer_request
    /\ cancel_at_period_end sub' = cancel_at_period_end a_subscription
    /\ current_period_start sub' = current_period_start a_subscription
    /\ current_period_end sub' = current_period_end a_subscription
    /\ forall rt' call, addresses call "app_1" "sub_1" false ->
         exists message, run rt' call s' = (s', inl (ValidationError message)).
Proof.
  apply (immediate_cancel_is_final (runtime_at feb29) "app_1" "sub_1" false None
                                   one_subscription a_subscription).
  - vm_compute. reflexivity.
  - discriminate.
Defined.

(** *** pause and resume *)



(** *** create without a trial *)



(** *** The scheduler's statement *)

Lemma filter_unique (sid : string) (cond : Subscription -> bool)
      (l : list Subscription) (row : Subscription) :
  NoDup (map id l) -> In row l -> id row = sid -> cond row = true ->
  (forall r, cond r = true -> id r = sid) ->
  filter cond l = [row].
Proof.
  intros Hnd Hin Hid Hrow Hcond.
  induction l as [|a l IH]; [contradiction|].
  cbn in Hnd. inversion Hnd as [|? ? Hnotin Hnd']; subst.
  cbn [filter]. destruct Hin as [->|Hin].
  - rewrite Hrow. f_equal. apply filter_nil_iff. intros r Hr.
    destruct (cond r) eqn:E; [|reflexivity].
    exfalso. apply Hnotin. rewrite <- (Hcond r E). apply in_map. assumption.
  - destruct (cond a) eqn:E.
    + exfalso. apply Hnotin. rewrite (Hcond a E). apply in_map. assumption.
    + apply IH; assumption.
Qed.



(** *** list *)

Lemma insert_desc_length (row : Subscription) (l : list Subscription) :
  List.length (insert_desc row l) = S (List.length l).
Proof.
  induction l as [|a l IH]; cbn; [reflexivity|].
  destruct (created_at a <? created_at row); cbn; [reflexivity|].
  rewrite IH. reflexivity.
Qed.

Lemma insert_desc_descending (row : Subscription) (l : list Subscription) :
  PlanNotions.descending (map created_at l) ->
  PlanNotions.descending (map created_at (insert_desc row l)).
Proof.
  induction l as [|a l IH]; intros H; cbn; [exact I|].
  destruct (Z.ltb_spec (created_at a) (created_at row)).
  - cbn [map]. apply PlanProperties.descending_cons; [exact H|].
    intros b [<-|Hb]; [lia|].
    pose proof (PlanProperties.descending_bound _ _ H b Hb). lia.
  - cbn [map]. apply PlanProperties.descending_cons.
    + apply IH. eapply PlanProperties.descending_tail. exact H.
    + intros b Hb. apply in_map_iff in Hb. destruct Hb as [x [<- Hx]].
      apply In_insert_desc in Hx. destruct Hx as [->|Hx]; [lia|].
      apply (PlanProperties.descending_bound _ _ H). apply in_map. assumption.
Qed.

Lemma order_by_created_at_desc_facts (l : list Subscription) :
  List.length (order_by_created_at_desc l) = List.length l
  /\ PlanNotions.descending (map created_at (order_by_created_at_desc l)).
Proof.
  unfold order_by_created_at_desc.
  induction l as [|a l [Hlen Hdesc]]; cbn.
  - split; trivial.
  - split; [rewrite insert_desc_length, Hlen; reflexivity|].
    apply insert_desc_descending. assumption.
Qed.


(** *** The shape of the stored subscriptions *)

Lemma PlanService_getById_In table app pid mode archived plan :
  PlanService.getById table app pid mode archived = inr plan -> In plan table.
Proof.
  unfold PlanService.getById.
  destruct (filter _ table) as [|row rest] eqn:Hf; [discriminate|].
  intros [= <-]. apply (filter_head_In _ _ _ _ Hf).
Qed.

Lemma written_well_formed
      (cond : Subscription -> bool) (set : Subscription -> Subscription)
      (s s' : Store) (r : Result Subscription) (row : Subscription)
      (rest : list Subscription) :
  filter cond (subscriptions s) = row :: rest ->
  Forall well_formed (subscriptions s) ->
  (forall x, In x (subscriptions s) -> well_formed x -> well_formed (set x)) ->
  bind (db_update cond set) format_first s = (s', r) ->
  ends_well_formed s s' r.
Proof.
  intros Hf Hwf Hset H. unfold bind, db_update, format_first, ret in H.
  rewrite Hf in H. cbn [map] in H. rewrite formatSubscription_id in H.
  injection H as <- <-.
  destruct (filter_head_In _ _ _ _ Hf) as [Hin _].
  rewrite Forall_forall in Hwf.
  split; [|split; [reflexivity|apply Hset; auto]].
  cbn [subscriptions set_subscriptions]. apply Forall_forall.
  intros x Hx. apply in_map_iff in Hx. destruct Hx as [x0 [<- Hx0]].
  destruct (cond x0); auto.
Qed.

Local Ltac stays H :=
  injection H as <- <-;
  split; [assumption|split; [reflexivity|try exact I]].

Local Tactic Notation "find_row" hyp(H) constr(app) constr(sid) constr(mode)
      constr(s) ident(row) ident(rest) ident(Hf) :=
  let Hg := fresh "Hg" in
  unfold bind at 1 in H;
  destruct (getById_cases app sid mode s) as [[_ Hg]|[row [rest [Hf Hg]]]];
  rewrite Hg in H; [stays H|].



End LifecyclePropertiesMore.
